(** * Poco::Net::SocketImpl — a shallow embedding of Net/src/SocketImpl.cpp

    The embedding follows the POSIX build of the file
    (POCO_OS_FAMILY_UNIX, so POCO_INVALID_SOCKET is -1 and lastError() is
    errno).  The conditional parts the properties below talk about are
    kept as build parameters: the readiness backend (epoll, poll, select),
    POCO_HAVE_SENDFILE and POCO_BROKEN_TIMEOUTS.  Numeric constants that live in headers
    outside this file (the POCO_E* codes, O_NONBLOCK) are parameters too.

    The operating system is modelled by a [World]: a descriptor table, an
    errno cell, a clock, the bytes accepted for transmission, and a script
    of replies that the kernel gives to the system calls whose result
    depends on the network.  A call for which the script holds no reply
    never returns ([Hang]).  Every attempted call is logged in the trace. *)

From Stdlib Require Import ZArith List Bool Lia.
From stdpp Require Import base gmap strings pretty list.
Import ListNotations.
Open Scope string_scope.
Open Scope list_scope.
Open Scope Z_scope.

(** ** Exceptions *)

(** The exception classes thrown by SocketImpl.cpp. *)
Inductive ExKind : Type :=
  | NetException
  | IOException
  | InvalidArgumentException
  | TimeoutException
  | ConnectionAbortedException
  | ConnectionResetException
  | ConnectionRefusedException
  | InvalidSocketException
  | NotImplementedException
  | AssertionViolationException.

(** An exception object is recorded as its class and the arguments its
    constructor received. *)
Record Exception : Type := mkException {
  ex_kind : ExKind;
  ex_msg : string;
  ex_arg : string;
  ex_code : Z
}.

(** Modelled from the spec: the three constructor shapes of Poco::Exception
    (Foundation's Exception.h is not part of this file): [K(code)],
    [K(msg, code)] and [K(msg, arg, code)], the code defaulting to 0. *)
Definition exn_code (k : ExKind) (code : Z) : Exception :=
  mkException k "" "" code.

Definition exn_msg (k : ExKind) (msg : string) (code : Z) : Exception :=
  mkException k msg "" code.

Definition exn_msg_arg (k : ExKind) (msg arg : string) (code : Z) : Exception :=
  mkException k msg arg code.

(** ** Platform constants *)

(** The platform error codes named by SocketImpl.cpp.  Their values come
    from SocketDefs.h and <errno.h>; the embedding takes them as a table. *)
Record ErrorCodes : Type := mkErrorCodes {
  POCO_ENOERR : Z;
  POCO_ESYSNOTREADY : Z;
  POCO_ENOTINIT : Z;
  POCO_EINTR : Z;
  POCO_EACCES : Z;
  POCO_EFAULT : Z;
  POCO_EINVAL : Z;
  POCO_EMFILE : Z;
  POCO_EAGAIN : Z;
  POCO_EWOULDBLOCK : Z;
  POCO_EINPROGRESS : Z;
  POCO_EALREADY : Z;
  POCO_ENOTSOCK : Z;
  POCO_EDESTADDRREQ : Z;
  POCO_EMSGSIZE : Z;
  POCO_EPROTOTYPE : Z;
  POCO_ENOPROTOOPT : Z;
  POCO_EPROTONOSUPPORT : Z;
  POCO_ESOCKTNOSUPPORT : Z;
  POCO_ENOTSUP : Z;
  POCO_EPFNOSUPPORT : Z;
  POCO_EAFNOSUPPORT : Z;
  POCO_EADDRINUSE : Z;
  POCO_EADDRNOTAVAIL : Z;
  POCO_ENETDOWN : Z;
  POCO_ENETUNREACH : Z;
  POCO_ENETRESET : Z;
  POCO_ECONNABORTED : Z;
  POCO_ECONNRESET : Z;
  POCO_ENOBUFS : Z;
  POCO_EISCONN : Z;
  POCO_ENOTCONN : Z;
  POCO_ESHUTDOWN : Z;
  POCO_ETIMEDOUT : Z;
  POCO_ECONNREFUSED : Z;
  POCO_EHOSTDOWN : Z;
  POCO_EHOSTUNREACH : Z;
  EPIPE : Z;
  EBADF : Z;
  ENOENT : Z
}.

(** The table of a Linux target. *)
Definition linux_codes : ErrorCodes :=
  {| POCO_ENOERR := 0; POCO_ESYSNOTREADY := -4; POCO_ENOTINIT := -5;
     POCO_EINTR := 4; POCO_EACCES := 13; POCO_EFAULT := 14;
     POCO_EINVAL := 22; POCO_EMFILE := 24; POCO_EAGAIN := 11;
     POCO_EWOULDBLOCK := 11; POCO_EINPROGRESS := 115; POCO_EALREADY := 114;
     POCO_ENOTSOCK := 88; POCO_EDESTADDRREQ := 89; POCO_EMSGSIZE := 90;
     POCO_EPROTOTYPE := 91; POCO_ENOPROTOOPT := 92;
     POCO_EPROTONOSUPPORT := 93; POCO_ESOCKTNOSUPPORT := 94;
     POCO_ENOTSUP := 95; POCO_EPFNOSUPPORT := 96; POCO_EAFNOSUPPORT := 97;
     POCO_EADDRINUSE := 98; POCO_EADDRNOTAVAIL := 99; POCO_ENETDOWN := 100;
     POCO_ENETUNREACH := 101; POCO_ENETRESET := 102;
     POCO_ECONNABORTED := 103; POCO_ECONNRESET := 104; POCO_ENOBUFS := 105;
     POCO_EISCONN := 106; POCO_ENOTCONN := 107; POCO_ESHUTDOWN := 108;
     POCO_ETIMEDOUT := 110; POCO_ECONNREFUSED := 111; POCO_EHOSTDOWN := 112;
     POCO_EHOSTUNREACH := 113; EPIPE := 32; EBADF := 9; ENOENT := 2 |}.

(** Which readiness facility poll() is compiled against. *)
Inductive PollBackend : Type :=
  | FD_EPOLL
  | FD_POLL
  | FD_SELECT.

(** The build target: constants and feature macros. *)
Record Platform : Type := mkPlatform {
  codes : ErrorCodes;
  O_NONBLOCK : Z;
  poll_backend : PollBackend;
  POCO_HAVE_SENDFILE : bool;
  POCO_BROKEN_TIMEOUTS : bool
}.

Definition linux : Platform :=
  {| codes := linux_codes; O_NONBLOCK := 2048;
     poll_backend := FD_EPOLL; POCO_HAVE_SENDFILE := true;
     POCO_BROKEN_TIMEOUTS := false |}.


(** A Linux target built with POCO_BROKEN_TIMEOUTS. *)
Definition linux_broken_timeouts : Platform :=
  {| codes := linux_codes; O_NONBLOCK := 2048;
     poll_backend := FD_EPOLL; POCO_HAVE_SENDFILE := true;
     POCO_BROKEN_TIMEOUTS := true |}.

Definition POCO_INVALID_SOCKET : Z := -1.

(** ** The error translator *)

(** Modelled from the spec: NumberFormatter::format(int) (Foundation) is the
    decimal rendering of the number. *)
Definition NumberFormatter_format (code : Z) : string := pretty code.

(** A C++ [switch] over integer labels: the arm of the first label equal to
    the scrutinee, else the default arm. *)
Fixpoint switch {A : Type} (x : Z) (arms : list (Z * A)) (default : A) : A :=
  match arms with
  | [] => default
  | (label, arm) :: rest => if Z.eqb x label then arm else switch x rest default
  end.

(** The arms of the switch in SocketImpl::error(int, const std::string&):
    [None] is the arm that returns, [Some e] an arm that throws [e]. *)
Definition error_arms (c : ErrorCodes) (code : Z) (arg : string)
  : list (Z * option Exception) :=
  [ (POCO_ENOERR c, None);
    (POCO_ESYSNOTREADY c, Some (exn_msg NetException "Net subsystem not ready" code));
    (POCO_ENOTINIT c, Some (exn_msg NetException "Net subsystem not initialized" code));
    (POCO_EINTR c, Some (exn_msg IOException "Interrupted" code));
    (POCO_EACCES c, Some (exn_msg IOException "Permission denied" code));
    (POCO_EFAULT c, Some (exn_msg IOException "Bad address" code));
    (POCO_EINVAL c, Some (exn_code InvalidArgumentException code));
    (POCO_EMFILE c, Some (exn_msg IOException "Too many open files" code));
    (POCO_EWOULDBLOCK c, Some (exn_msg IOException "Operation would block" code));
    (POCO_EINPROGRESS c, Some (exn_msg IOException "Operation now in progress" code));
    (POCO_EALREADY c, Some (exn_msg IOException "Operation already in progress" code));
    (POCO_ENOTSOCK c, Some (exn_msg IOException "Socket operation attempted on non-socket" code));
    (POCO_EDESTADDRREQ c, Some (exn_msg NetException "Destination address required" code));
    (POCO_EMSGSIZE c, Some (exn_msg NetException "Message too long" code));
    (POCO_EPROTOTYPE c, Some (exn_msg NetException "Wrong protocol type" code));
    (POCO_ENOPROTOOPT c, Some (exn_msg NetException "Protocol not available" code));
    (POCO_EPROTONOSUPPORT c, Some (exn_msg NetException "Protocol not supported" code));
    (POCO_ESOCKTNOSUPPORT c, Some (exn_msg NetException "Socket type not supported" code));
    (POCO_ENOTSUP c, Some (exn_msg NetException "Operation not supported" code));
    (POCO_EPFNOSUPPORT c, Some (exn_msg NetException "Protocol family not supported" code));
    (POCO_EAFNOSUPPORT c, Some (exn_msg NetException "Address family not supported" code));
    (POCO_EADDRINUSE c, Some (exn_msg_arg NetException "Address already in use" arg code));
    (POCO_EADDRNOTAVAIL c, Some (exn_msg_arg NetException "Cannot assign requested address" arg code));
    (POCO_ENETDOWN c, Some (exn_msg NetException "Network is down" code));
    (POCO_ENETUNREACH c, Some (exn_msg NetException "Network is unreachable" code));
    (POCO_ENETRESET c, Some (exn_msg NetException "Network dropped connection on reset" code));
    (POCO_ECONNABORTED c, Some (exn_code ConnectionAbortedException code));
    (POCO_ECONNRESET c, Some (exn_code ConnectionResetException code));
    (POCO_ENOBUFS c, Some (exn_msg IOException "No buffer space available" code));
    (POCO_EISCONN c, Some (exn_msg NetException "Socket is already connected" code));
    (POCO_ENOTCONN c, Some (exn_msg NetException "Socket is not connected" code));
    (POCO_ESHUTDOWN c, Some (exn_msg NetException "Cannot send after socket shutdown" code));
    (POCO_ETIMEDOUT c, Some (exn_code TimeoutException code));
    (POCO_ECONNREFUSED c, Some (exn_msg ConnectionRefusedException arg code));
    (POCO_EHOSTDOWN c, Some (exn_msg_arg NetException "Host is down" arg code));
    (POCO_EHOSTUNREACH c, Some (exn_msg_arg NetException "No route to host" arg code));
    (EPIPE c, Some (exn_msg IOException "Broken pipe" code));
    (EBADF c, Some (exn_msg IOException "Bad socket descriptor" code));
    (ENOENT c, Some (exn_msg_arg IOException "Not found" arg code)) ].

(** The case labels of that switch. *)
Definition enumerated (c : ErrorCodes) : list Z :=
  map fst (error_arms c 0 "").

(** SocketImpl::error(int code, const std::string& arg) as a function of its
    two arguments: [None] when the call returns, [Some e] when it throws. *)
Definition translate (c : ErrorCodes) (code : Z) (arg : string) : option Exception :=
  switch code (error_arms c code arg)
         (Some (exn_msg_arg IOException (NumberFormatter_format code) arg code)).

(** ** The handle and the operating system *)

(** The members of SocketImpl.  [timeouts are microseconds, as Poco::Timespan
    stores them.]  [is_secure] is the value the object's override of the
    virtual secure() returns; SocketImpl's own definition returns false. *)
Record SocketImpl : Type := mkSocketImpl {
  _sockfd : Z;
  _blocking : bool;
  _isBrokenTimeout : bool;
  _recvTimeout : Z;
  _sndTimeout : Z;
  is_secure : bool
}.

(** An address, as far as this file looks into it: af() and toString(). *)
Record SocketAddress : Type := mkSocketAddress {
  sa_af : Z;
  sa_toString : string
}.

(** The socket options the file reads or writes (level and name together). *)
Inductive OptionName : Type :=
  | SO_ERROR | SO_SNDBUF | SO_RCVBUF | SO_SNDTIMEO | SO_RCVTIMEO
  | SO_LINGER | SO_KEEPALIVE | SO_REUSEADDR | SO_REUSEPORT
  | SO_OOBINLINE | SO_BROADCAST | TCP_NODELAY.

(** The system calls the file issues, with the arguments that matter. *)
Inductive Syscall : Type :=
  | sys_socket (af : Z)
  | sys_connect (fd : Z) (address : SocketAddress)
  | sys_listen (fd backlog : Z)
  | sys_shutdown (fd how : Z)
  | sys_close (fd : Z)
  | sys_send (fd : Z) (data : list Z) (flags : Z)
  | sys_writev (fd : Z) (buffers : list (list Z))
  | sys_recv (fd len flags : Z)
  | sys_readv (fd : Z) (lens : list Z)
  | sys_sendto (fd : Z) (data : list Z) (flags : Z) (address : SocketAddress)
  | sys_sendmsg (fd : Z) (buffers : list (list Z)) (flags : Z) (address : SocketAddress)
  | sys_recvfrom (fd len flags : Z)
  | sys_recvmsg (fd : Z) (lens : list Z) (flags : Z)
  | sys_getsockopt (fd : Z) (opt : OptionName)
  | sys_setsockopt (fd : Z) (opt : OptionName) (value : list Z)
  | sys_ioctl_FIONREAD (fd : Z)
  | sys_fcntl_GETFL (fd : Z)
  | sys_fcntl_SETFL (fd flags : Z)
  | sys_epoll_create
  | sys_epoll_ctl_add (epfd fd : Z) (rd wr er : bool)
  | sys_epoll_wait (epfd timeout_ms : Z)
  | sys_poll (fd : Z) (rd wr : bool) (timeout_ms : Z)
  | sys_select (fd : Z) (rd wr ex : bool) (tv_sec tv_usec : Z)
  | sys_sendfile (sd fd offset count : Z).

(** What the kernel answers to one call: the return value, the errno it
    sets when the return value is negative, the time the call took
    (microseconds), the values it wrote through out-parameters or into the
    receive buffer, and the peer address it stored (for the calls that
    report one). *)
Record Reply : Type := mkReply {
  r_rc : Z;
  r_errno : Z;
  r_time : Z;
  r_out : list Z;
  r_addr : list Z
}.

(** The state of the operating system around the handle. *)
Record World : Type := mkWorld {
  w_fds : gmap Z Z;                          (* open descriptors and their status flags *)
  w_errno : Z;
  w_clock : Z;                               (* wall clock, microseconds *)
  w_script : list Reply;                     (* the replies still to come *)
  w_trace : list (Syscall * option Reply);   (* calls attempted, latest first *)
  w_wire : list Z                            (* bytes accepted for transmission *)
}.

Record State : Type := mkState {
  this : SocketImpl;
  os : World
}.

(** ** The computation monad: state, exceptions, calls that never return *)

Inductive Outcome (A : Type) : Type :=
  | Return (a : A)
  | Throw (e : Exception)
  | Hang.

Arguments Return {A} a.
Arguments Throw {A} e.
Arguments Hang {A}.

Definition M (A : Type) : Type := State -> Outcome A * State.

Definition ret {A : Type} (a : A) : M A := fun st => (Return a, st).

Definition bind {A B : Type} (m : M A) (k : A -> M B) : M B :=
  fun st =>
    match m st with
    | (Return a, st') => k a st'
    | (Throw e, st') => (Throw e, st')
    | (Hang, st') => (Hang, st')
    end.

Definition throw {A : Type} (e : Exception) : M A := fun st => (Throw e, st).

(** [try { m } catch (Poco::Exception& e) { handler e }]: every exception of
    the model is a Poco::Exception. *)
Definition try_catch {A : Type} (m : M A) (handler : Exception -> M A) : M A :=
  fun st =>
    match m st with
    | (Throw e, st') => handler e st'
    | r => r
    end.

Declare Scope m_scope.
Delimit Scope m_scope with M.
Notation "'let*' x := m 'in' k" := (bind m (fun x => k))
  (at level 10, x name, m at level 100, k at level 200) : m_scope.
Notation "'let*' ' p := m 'in' k" := (bind m (fun x => match x with p => k end))
  (at level 10, p strict pattern, m at level 100, k at level 200) : m_scope.
Notation "'do' m 'then' k" := (bind m (fun _ => k))
  (at level 10, m at level 100, k at level 200) : m_scope.
Open Scope m_scope.

Definition when (b : bool) (m : M unit) : M unit := if b then m else ret tt.

Definition get_this : M SocketImpl := fun st => (Return (this st), st).

Definition set_sockfd (fd : Z) : M unit :=
  fun st =>
    let s := this st in
    (Return tt,
     mkState (mkSocketImpl fd (_blocking s) (_isBrokenTimeout s)
                           (_recvTimeout s) (_sndTimeout s) (is_secure s))
             (os st)).

Definition set_blocking (flag : bool) : M unit :=
  fun st =>
    let s := this st in
    (Return tt,
     mkState (mkSocketImpl (_sockfd s) flag (_isBrokenTimeout s)
                           (_recvTimeout s) (_sndTimeout s) (is_secure s))
             (os st)).

Definition set_recvTimeout (t : Z) : M unit :=
  fun st =>
    let s := this st in
    (Return tt,
     mkState (mkSocketImpl (_sockfd s) (_blocking s) (_isBrokenTimeout s)
                           t (_sndTimeout s) (is_secure s))
             (os st)).

Definition set_sndTimeout (t : Z) : M unit :=
  fun st =>
    let s := this st in
    (Return tt,
     mkState (mkSocketImpl (_sockfd s) (_blocking s) (_isBrokenTimeout s)
                           (_recvTimeout s) t (is_secure s))
             (os st)).

(** A loop: [body] either asks for another round with a new loop state or
    leaves with a result. *)
Fixpoint iterate {A B : Type} (fuel : nat) (body : A -> M (A + B)) (a : A) : M B :=
  match fuel with
  | O => fun st => (Hang, st)
  | S n =>
      fun st =>
        match body a st with
        | (Return (inl a'), st') => iterate n body a' st'
        | (Return (inr b), st') => (Return b, st')
        | (Throw e, st') => (Throw e, st')
        | (Hang, st') => (Hang, st')
        end
  end.

(** Every loop of the file performs a scripted system call in each round
    (or leaves), so one more round than there are replies left is always
    enough; see [iterate_fuel]. *)
Definition loop {A B : Type} (body : A -> M (A + B)) (a : A) : M B :=
  fun st => iterate (S (length (w_script (os st)))) body a st.

(** ** System calls *)

Definition with_os (st : State) (w : World) : State := mkState (this st) w.

(** The state after the kernel answered the call [c] with [r]: the reply is
    taken off the script, errno is set on failure, the clock advances. *)
Definition answered (c : Syscall) (r : Reply) (st : State) : State :=
  let w := os st in
  with_os st (mkWorld (w_fds w)
                      (if r_rc r <? 0 then r_errno r else w_errno w)
                      (w_clock w + r_time r) (tl (w_script w))
                      ((c, Some r) :: w_trace w) (w_wire w)).

(** The state in which the call [c] was attempted and never returns. *)
Definition blocked (c : Syscall) (st : State) : State :=
  let w := os st in
  with_os st (mkWorld (w_fds w) (w_errno w) (w_clock w) (w_script w)
                      ((c, None) :: w_trace w) (w_wire w)).

(** A call whose result depends on the outside world: it takes the next
    reply of the script, or never returns when there is none. *)
Definition syscall (c : Syscall) : M Reply :=
  fun st =>
    match w_script (os st) with
    | [] => (Hang, blocked c st)
    | r :: _ => (Return r, answered c r st)
    end.

(** The state after a call the descriptor table alone decides: it returns
    [rc] at once and leaves the table as [fds]. *)
Definition decided (c : Syscall) (rc errno : Z) (fds : gmap Z Z) (st : State) : State :=
  let w := os st in
  with_os st (mkWorld fds (if rc <? 0 then errno else w_errno w) (w_clock w)
                      (w_script w)
                      ((c, Some (mkReply rc errno 0 [] [])) :: w_trace w)
                      (w_wire w)).

Definition kernel (c : Syscall) (rc : Z) (errno : Z) (fds : gmap Z Z) : M Z :=
  fun st => (Return rc, decided c rc errno fds st).

Definition get_fds : M (gmap Z Z) := fun st => (Return (w_fds (os st)), st).

Definition put_fds (fds : gmap Z Z) : M unit :=
  fun st =>
    let w := os st in
    (Return tt, with_os st (mkWorld fds (w_errno w) (w_clock w) (w_script w)
                                    (w_trace w) (w_wire w))).

Definition transmit (bytes : list Z) : M unit :=
  fun st =>
    let w := os st in
    (Return tt, with_os st (mkWorld (w_fds w) (w_errno w) (w_clock w) (w_script w)
                                    (w_trace w) (w_wire w ++ bytes))).

Definition set_errno (errno : Z) : M unit :=
  fun st =>
    let w := os st in
    (Return tt, with_os st (mkWorld (w_fds w) errno (w_clock w) (w_script w)
                                    (w_trace w) (w_wire w))).

(** The lowest descriptor number that is not open. *)
Definition lowest_free (fds : gmap Z Z) : option Z :=
  List.find (fun fd => bool_decide (fds !! fd = None))
            (map Z.of_nat (seq 0 (S (size fds)))).

(** lastError(): errno. *)
Definition lastError : M Z := fun st => (Return (w_errno (os st)), st).

(** Modelled from the spec: a default-constructed Poco::Timestamp holds the
    current wall-clock time (Timestamp.h is not part of this file). *)
Definition Timestamp_now : M Z := fun st => (Return (w_clock (os st)), st).

(** A kernel never moves more bytes than it was asked to. *)
Definition moved (rc asked : Z) : Z := if rc <? 0 then rc else Z.min rc asked.

Definition len {A : Type} (l : list A) : Z := Z.of_nat (length l).

Definition take {A : Type} (n : Z) (l : list A) : list A := firstn (Z.to_nat n) l.

Definition drop {A : Type} (n : Z) (l : list A) : list A := skipn (Z.to_nat n) l.

(** Storing [src] at the start of [buf]; the size of [buf] does not change. *)
Definition overwrite (buf src : list Z) : list Z :=
  firstn (length buf) (src ++ skipn (length src) buf).

(** static_cast<int>: two's-complement wrap to 32 bits. *)
Definition to_int (x : Z) : Z := (x + 2147483648) mod 4294967296 - 2147483648.

(** Conversion of an int to std::size_t (64 bits) in a mixed comparison. *)
Definition to_size_t (x : Z) : Z := x mod 18446744073709551616.

(** Modelled from the spec: the Poco::Timespan accessors (Timespan.h is not
    part of this file); a span is a count of microseconds, the quotients
    truncate as C++ division does. *)
Definition totalMicroseconds (span : Z) : Z := span.

Definition totalMilliseconds (span : Z) : Z := Z.quot span 1000.

Definition totalSeconds (span : Z) : Z := Z.quot span 1000000.

Definition useconds (span : Z) : Z := Z.rem span 1000000.

(** SelectMode, declared in SocketImpl.h. *)
Definition SELECT_READ : Z := 1.

Definition SELECT_WRITE : Z := 2.

Definition SELECT_ERROR : Z := 4.

(** [mode & flag] used as a condition. *)
Definition has_flag (mode flag : Z) : bool := negb (Z.land mode flag =? 0).

Section Socket.

Variable P : Platform.

Definition E : ErrorCodes := codes P.

(** *** The kernel's side of the calls *)

(** socket() and epoll_create(): a reply with a non-negative value stands
    for success, and the new descriptor is then the lowest-numbered one
    that is not open (as POSIX prescribes); any other reply is a failure,
    reported as -1. *)
Definition os_open (c : Syscall) : M Z :=
  let* r := syscall c in
  let* fds := get_fds in
  if 0 <=? r_rc r then
    match lowest_free fds with
    | Some fd => do put_fds (<[fd := 0]> fds) then ret fd
    | None => do set_errno (POCO_EMFILE E) then ret (-1)
    end
  else ret (-1).

Definition os_socket (af : Z) : M Z := os_open (sys_socket af).

Definition os_close (fd : Z) : M Z :=
  let* fds := get_fds in
  match fds !! fd with
  | Some _ => kernel (sys_close fd) 0 0 (delete fd fds)
  | None => kernel (sys_close fd) (-1) (EBADF E) fds
  end.

Definition os_fcntl_GETFL (fd : Z) : M Z :=
  let* fds := get_fds in
  match fds !! fd with
  | Some flags => kernel (sys_fcntl_GETFL fd) flags 0 fds
  | None => kernel (sys_fcntl_GETFL fd) (-1) (EBADF E) fds
  end.

Definition os_fcntl_SETFL (fd flags : Z) : M Z :=
  let* fds := get_fds in
  match fds !! fd with
  | Some _ => kernel (sys_fcntl_SETFL fd flags) 0 0 (<[fd := flags]> fds)
  | None => kernel (sys_fcntl_SETFL fd flags) (-1) (EBADF E) fds
  end.

Definition os_epoll_create : M Z := os_open sys_epoll_create.

(** Calls that only report a return value. *)
Definition os_call (c : Syscall) : M Z :=
  let* r := syscall c in ret (r_rc r).

(** Calls that hand [data] to the kernel for transmission. *)
Definition os_transmit (c : Syscall) (data : list Z) : M Z :=
  let* r := syscall c in
  let rc := moved (r_rc r) (len data) in
  do when (0 <=? rc) (transmit (take rc data)) then
  ret rc.

(** Calls that fill [buffer] with what arrived. *)
Definition os_receive (c : Syscall) (buffer : list Z) : M (Z * list Z) :=
  let* r := syscall c in
  let rc := moved (r_rc r) (Z.min (len buffer) (len (r_out r))) in
  ret (rc, if 0 <=? rc then overwrite buffer (take rc (r_out r)) else buffer).

(** getsockopt and ioctl(FIONREAD) store a value on success only. *)
Definition os_query (c : Syscall) (value : list Z) : M (Z * list Z) :=
  let* r := syscall c in
  ret (r_rc r, if r_rc r =? 0 then r_out r else value).

(** *** SocketImpl::error and its overloads *)

(** error(int code, const std::string& arg) *)
Definition error (code : Z) (arg : string) : M unit :=
  fun st =>
    match translate E code arg with
    | None => (Return tt, st)
    | Some e => (Throw e, st)
    end.

(** error() *)
Definition error_last : M unit :=
  let* err := lastError in error err "".

(** error(const std::string& arg) *)
Definition error_arg (arg : string) : M unit :=
  let* err := lastError in error err arg.

(** error(int code) *)
Definition error_code (code : Z) : M unit := error code "".

Definition InvalidSocket : Exception := exn_code InvalidSocketException 0.

(** [if (_sockfd == POCO_INVALID_SOCKET) throw InvalidSocketException();],
    giving the descriptor otherwise. *)
Definition valid_sockfd : M Z :=
  let* s := get_this in
  if _sockfd s =? POCO_INVALID_SOCKET then throw InvalidSocket
  else ret (_sockfd s).

(** *** Creation, blocking mode, options *)

(** Modelled from the spec: init and the adoption of a descriptor fail with
    a programming error when a descriptor is already owned.  poco_assert is
    a macro of Foundation (Bugcheck.h), which is not part of this file: a
    condition that fails throws AssertionViolationException.  The message
    it composes there names the condition, the source file and the line; the
    model keeps the text of the condition, [text], and nothing is proved
    from the message. *)
Definition poco_assert (cond : bool) (text : string) : M unit :=
  if cond then ret tt
  else throw (exn_msg AssertionViolationException text 0).

(** initSocket(af, type, proto), for the stream type init() passes. *)
Definition initSocket (af : Z) : M unit :=
  let* s := get_this in
  do poco_assert (_sockfd s =? POCO_INVALID_SOCKET)
                 "_sockfd == POCO_INVALID_SOCKET" then
  let* fd := os_socket af in
  do set_sockfd fd then
  when (fd =? POCO_INVALID_SOCKET) error_last.

Definition init (af : Z) : M unit := initSocket af.

(** fcntl(request) with F_GETFL *)
Definition fcntl_GETFL : M Z :=
  let* s := get_this in
  let* rc := os_fcntl_GETFL (_sockfd s) in
  do when (rc =? -1) error_last then
  ret rc.

(** fcntl(request, arg) with F_SETFL *)
Definition fcntl_SETFL (arg : Z) : M Z :=
  let* s := get_this in
  let* rc := os_fcntl_SETFL (_sockfd s) arg in
  do when (rc =? -1) error_last then
  ret rc.

(** setBlocking(flag), POCO_OS_FAMILY_UNIX branch *)
Definition setBlocking (flag : bool) : M unit :=
  let* arg := fcntl_GETFL in
  let flags := Z.land arg (Z.lnot (O_NONBLOCK P)) in
  let flags := if negb flag then Z.lor flags (O_NONBLOCK P) else flags in
  let* _ := fcntl_SETFL flags in
  set_blocking flag.

(** Modelled from the spec: getBlocking() (inline in SocketImpl.h) reports the
    cached blocking-mode flag. *)
Definition getBlocking : M bool :=
  let* s := get_this in ret (_blocking s).

(** ioctl(FIONREAD, int& arg) *)
Definition ioctl_FIONREAD (arg : Z) : M Z :=
  let* s := get_this in
  let* '(rc, out) := os_query (sys_ioctl_FIONREAD (_sockfd s)) [arg] in
  do when (negb (rc =? 0)) error_last then
  ret (hd arg out).

(** setRawOption(level, option, value, length) *)
Definition setRawOption (opt : OptionName) (value : list Z) : M unit :=
  let* fd := valid_sockfd in
  let* rc := os_call (sys_setsockopt fd opt value) in
  when (rc =? -1) error_last.

(** getRawOption(level, option, value, length) *)
Definition getRawOption (opt : OptionName) (value : list Z) : M (list Z) :=
  let* fd := valid_sockfd in
  let* '(rc, out) := os_query (sys_getsockopt fd opt) value in
  do when (rc =? -1) error_last then
  ret out.

(** setOption(level, option, int value) *)
Definition setOption (opt : OptionName) (value : Z) : M unit :=
  setRawOption opt [value].

(** setOption(level, option, const Poco::Timespan& value) *)
Definition setOption_Timespan (opt : OptionName) (value : Z) : M unit :=
  setRawOption opt [totalSeconds value; useconds value].

(** getOption(level, option, int& value) *)
Definition getOption (opt : OptionName) (value : Z) : M Z :=
  let* out := getRawOption opt [value] in ret (hd value out).

(** getOption(level, option, Poco::Timespan& value) *)
Definition getOption_Timespan (opt : OptionName) (value : Z) : M Z :=
  let* out := getRawOption opt [0; 0] in
  ret (nth 0 out 0 * 1000000 + nth 1 out 0).

(** socketError() *)
Definition socketError : M Z := getOption SO_ERROR 0.

(** getError(); the local starts uninitialised, taken as 0 here. *)
Definition getError : M Z := getOption SO_ERROR 0.

Definition setSendBufferSize (size : Z) : M unit := setOption SO_SNDBUF size.

Definition getSendBufferSize : M Z := getOption SO_SNDBUF 0.

Definition setReceiveBufferSize (size : Z) : M unit := setOption SO_RCVBUF size.

Definition getReceiveBufferSize : M Z := getOption SO_RCVBUF 0.

Definition setLinger (on : bool) (seconds : Z) : M unit :=
  setRawOption SO_LINGER [if on then 1 else 0; seconds].

Definition getLinger : M (bool * Z) :=
  let* out := getRawOption SO_LINGER [0; 0] in
  ret (negb (nth 0 out 0 =? 0), nth 1 out 0).

Definition setNoDelay (flag : bool) : M unit :=
  setOption TCP_NODELAY (if flag then 1 else 0).

Definition getNoDelay : M bool :=
  let* value := getOption TCP_NODELAY 0 in ret (negb (value =? 0)).

Definition setKeepAlive (flag : bool) : M unit :=
  setOption SO_KEEPALIVE (if flag then 1 else 0).

Definition getKeepAlive : M bool :=
  let* value := getOption SO_KEEPALIVE 0 in ret (negb (value =? 0)).

Definition setReuseAddress (flag : bool) : M unit :=
  setOption SO_REUSEADDR (if flag then 1 else 0).

Definition getReuseAddress : M bool :=
  let* value := getOption SO_REUSEADDR 0 in ret (negb (value =? 0)).

Definition getReusePort : M bool :=
  let* value := getOption SO_REUSEPORT 0 in ret (negb (value =? 0)).

Definition setOOBInline (flag : bool) : M unit :=
  setOption SO_OOBINLINE (if flag then 1 else 0).

Definition getOOBInline : M bool :=
  let* value := getOption SO_OOBINLINE 0 in ret (negb (value =? 0)).

Definition setBroadcast (flag : bool) : M unit :=
  setOption SO_BROADCAST (if flag then 1 else 0).

Definition getBroadcast : M bool :=
  let* value := getOption SO_BROADCAST 0 in ret (negb (value =? 0)).

(** setSendTimeout(timeout), POSIX branches: the option call is compiled
    only without POCO_BROKEN_TIMEOUTS. *)
Definition setSendTimeout (timeout : Z) : M unit :=
  do (if POCO_BROKEN_TIMEOUTS P then ret tt
      else setOption_Timespan SO_SNDTIMEO timeout) then
  let* s := get_this in
  when (_isBrokenTimeout s) (set_sndTimeout timeout).

(** getSendTimeout(); [Timespan result;] is zero until it is assigned. *)
Definition getSendTimeout : M Z :=
  let* result := (if POCO_BROKEN_TIMEOUTS P then ret 0
                  else getOption_Timespan SO_SNDTIMEO 0) in
  let* s := get_this in
  ret (if _isBrokenTimeout s then _sndTimeout s else result).

(** setReceiveTimeout(timeout), POSIX branches *)
Definition setReceiveTimeout (timeout : Z) : M unit :=
  do (if POCO_BROKEN_TIMEOUTS P then ret tt
      else setOption_Timespan SO_RCVTIMEO timeout) then
  let* s := get_this in
  when (_isBrokenTimeout s) (set_recvTimeout timeout).

(** getReceiveTimeout() *)
Definition getReceiveTimeout : M Z :=
  let* result := (if POCO_BROKEN_TIMEOUTS P then ret 0
                  else getOption_Timespan SO_RCVTIMEO 0) in
  let* s := get_this in
  ret (if _isBrokenTimeout s then _recvTimeout s else result).

(** available(), POCO_OS_LINUX branch *)
Definition available : M Z := ioctl_FIONREAD 0.

(** secure(): virtual; the value of the object's override. *)
Definition secure : M bool :=
  let* s := get_this in ret (is_secure s).

(** *** poll *)

(** The update of remainingTime after an interrupted wait. *)
Definition after_interrupt (remainingTime waited : Z) : Z :=
  if waited <? remainingTime then remainingTime - waited else 0.

(** [rc < 0 && lastError() == POCO_EINTR] *)
Definition wait_interrupted (rc : Z) : M bool :=
  let* err := lastError in ret ((rc <? 0) && (err =? POCO_EINTR E)).

(** One round of the do-while loop of the epoll branch. *)
Definition epoll_round (epollfd remainingTime : Z) : M (Z + Z) :=
  let* start := Timestamp_now in
  let* rc := os_call (sys_epoll_wait epollfd (to_int (totalMilliseconds remainingTime))) in
  let* intr := wait_interrupted rc in
  let* remainingTime :=
    (if intr then
       let* end_ := Timestamp_now in
       ret (after_interrupt remainingTime (end_ - start))
     else ret remainingTime) in
  let* again := wait_interrupted rc in
  ret (if again then inl remainingTime else inr rc).

Definition poll_epoll (timeout mode : Z) : M bool :=
  let* sockfd := valid_sockfd in
  let* epollfd := os_epoll_create in
  do when (epollfd <? 0) (error_arg "Can't create epoll queue") then
  let* rc := os_call (sys_epoll_ctl_add epollfd sockfd (has_flag mode SELECT_READ)
                        (has_flag mode SELECT_WRITE) (has_flag mode SELECT_ERROR)) in
  do when (rc <? 0)
       (let* _ := os_close epollfd in
        error_arg "Can't insert socket to epoll queue") then
  let* rc := loop (epoll_round epollfd) timeout in
  let* _ := os_close epollfd in
  do when (rc <? 0) error_last then
  ret (0 <? rc).

(** One round of the do-while loop of the poll branch. *)
Definition pollfd_round (fd mode remainingTime : Z) : M (Z + Z) :=
  let* start := Timestamp_now in
  let* rc := os_call (sys_poll fd (has_flag mode SELECT_READ) (has_flag mode SELECT_WRITE)
                               (to_int (totalMilliseconds remainingTime))) in
  let* intr := wait_interrupted rc in
  let* remainingTime :=
    (if intr then
       let* end_ := Timestamp_now in
       ret (after_interrupt remainingTime (end_ - start))
     else ret remainingTime) in
  let* again := wait_interrupted rc in
  ret (if again then inl remainingTime else inr rc).

Definition poll_pollfd (timeout mode : Z) : M bool :=
  let* sockfd := valid_sockfd in
  let* rc := loop (pollfd_round sockfd mode) timeout in
  do when (rc <? 0) error_last then
  ret (0 <? rc).

(** One round of the do-while loop of the select branch; the loop state
    is remainingTime and errorCode. *)
Definition select_round (sockfd mode : Z) (state : Z * Z) : M (Z * Z + Z * Z) :=
  let '(remainingTime, errorCode) := state in
  let* start := Timestamp_now in
  let* rc := os_call (sys_select sockfd (has_flag mode SELECT_READ)
                                 (has_flag mode SELECT_WRITE) (has_flag mode SELECT_ERROR)
                                 (totalSeconds remainingTime) (useconds remainingTime)) in
  let* errorCode := (if rc <? 0 then lastError else ret errorCode) in
  let intr := (rc <? 0) && (errorCode =? POCO_EINTR E) in
  let* remainingTime :=
    (if intr then
       let* end_ := Timestamp_now in
       ret (after_interrupt remainingTime (end_ - start))
     else ret remainingTime) in
  ret (if intr then inl (remainingTime, errorCode) else inr (rc, errorCode)).

Definition poll_select (timeout mode : Z) : M bool :=
  let* sockfd := valid_sockfd in
  let* '(rc, errorCode) := loop (select_round sockfd mode) (timeout, POCO_ENOERR E) in
  do when (rc <? 0) (error_code errorCode) then
  ret (0 <? rc).

(** poll(timeout, mode): the branch the build selects. *)
Definition poll (timeout mode : Z) : M bool :=
  match poll_backend P with
  | FD_EPOLL => poll_epoll timeout mode
  | FD_POLL => poll_pollfd timeout mode
  | FD_SELECT => poll_select timeout mode
  end.

(** *** Connection establishment *)

(** connect(address) *)
Definition connect_round (address : SocketAddress) (_ : unit) : M (unit + Z) :=
  let* s := get_this in
  let* rc := os_call (sys_connect (_sockfd s) address) in
  let* err := lastError in
  ret (if negb (rc =? 0) && (err =? POCO_EINTR E) then inl tt else inr rc).

Definition connect (address : SocketAddress) : M unit :=
  let* s := get_this in
  do when (_sockfd s =? POCO_INVALID_SOCKET) (init (sa_af address)) then
  let* rc := loop (connect_round address) tt in
  when (negb (rc =? 0))
    (let* err := lastError in error err (sa_toString address)).

(** The body of the try block of connect(address, timeout). *)
Definition connect_attempt (address : SocketAddress) (timeout : Z) : M unit :=
  let* s := get_this in
  let* rc := os_call (sys_connect (_sockfd s) address) in
  when (negb (rc =? 0))
    (let* err := lastError in
     do when (negb (err =? POCO_EINPROGRESS E) && negb (err =? POCO_EWOULDBLOCK E))
          (error err (sa_toString address)) then
     let* ready := poll timeout (Z.lor (Z.lor SELECT_READ SELECT_WRITE) SELECT_ERROR) in
     do when (negb ready)
          (throw (exn_msg_arg TimeoutException "connect timed out" (sa_toString address) 0)) then
     let* err := socketError in
     when (negb (err =? 0)) (error_code err)).

(** connect(address, timeout) *)
Definition connect_timeout (address : SocketAddress) (timeout : Z) : M unit :=
  let* s := get_this in
  do when (_sockfd s =? POCO_INVALID_SOCKET) (init (sa_af address)) then
  do setBlocking false then
  do try_catch (connect_attempt address timeout)
       (fun e => do setBlocking true then throw e) then
  setBlocking true.

(** connectNB(address) *)
Definition connectNB (address : SocketAddress) : M unit :=
  let* s := get_this in
  do when (_sockfd s =? POCO_INVALID_SOCKET) (init (sa_af address)) then
  do setBlocking false then
  let* s := get_this in
  let* rc := os_call (sys_connect (_sockfd s) address) in
  when (negb (rc =? 0))
    (let* err := lastError in
     when (negb (err =? POCO_EINPROGRESS E) && negb (err =? POCO_EWOULDBLOCK E))
       (error err (sa_toString address))).

(** *** Lifecycle and control *)

(** listen(backlog) *)
Definition listen (backlog : Z) : M unit :=
  let* fd := valid_sockfd in
  let* rc := os_call (sys_listen fd backlog) in
  when (negb (rc =? 0)) error_last.

(** close() *)
Definition close : M unit :=
  let* s := get_this in
  when (negb (_sockfd s =? POCO_INVALID_SOCKET))
    (let* _ := os_close (_sockfd s) in
     set_sockfd POCO_INVALID_SOCKET).

(** shutdownReceive() *)
Definition shutdownReceive : M unit :=
  let* fd := valid_sockfd in
  let* rc := os_call (sys_shutdown fd 0) in
  when (negb (rc =? 0)) error_last.

(** shutdownSend() *)
Definition shutdownSend : M Z :=
  let* fd := valid_sockfd in
  let* rc := os_call (sys_shutdown fd 1) in
  do when (negb (rc =? 0)) error_last then
  ret 0.

(** shutdown() *)
Definition shutdown : M Z :=
  let* fd := valid_sockfd in
  let* rc := os_call (sys_shutdown fd 2) in
  do when (negb (rc =? 0)) error_last then
  ret 0.

(** *** Timeout emulation *)

(** checkBrokenTimeout(mode) *)
Definition checkBrokenTimeout (mode : Z) : M unit :=
  let* s := get_this in
  when (_isBrokenTimeout s)
    (let timeout := if mode =? SELECT_READ then _recvTimeout s else _sndTimeout s in
     when (negb (totalMicroseconds timeout =? 0))
       (let* ready := poll timeout mode in
        when (negb ready) (throw (exn_code TimeoutException 0)))).

(** *** Data transfer *)

(** The exit test of every transfer loop:
    [_blocking && rc < 0 && lastError() == POCO_EINTR]. *)
Definition transfer_interrupted (rc : Z) : M bool :=
  let* s := get_this in
  let* err := lastError in
  ret (_blocking s && (rc <? 0) && (err =? POCO_EINTR E)).

(** The do-while loop of the transfer functions: [prepare] is the statement
    in front of the system call (the descriptor check, or the lazy init of
    sendTo), [call] the system call. *)
Definition transfer_loop {A : Type} (prepare : M Z) (call : Z -> M (Z * A)) : M (Z * A) :=
  loop (fun _ : unit =>
          let* fd := prepare in
          let* r := call fd in
          let* again := transfer_interrupted (fst r) in
          ret (if again then inl tt else inr r)) tt.

(** The block after every transfer loop: [if (rc < 0) { ... }]. *)
Definition transfer_failed (rc : Z) : M unit :=
  when (rc <? 0)
    (let* err := lastError in
     let* s := get_this in
     if negb (_blocking s) && ((err =? POCO_EAGAIN E) || (err =? POCO_EWOULDBLOCK E))
     then ret tt
     else if (err =? POCO_EAGAIN E) || (err =? POCO_ETIMEDOUT E)
     then throw (exn_code TimeoutException err)
     else error_code err).

Definition sending (c : Syscall) (data : list Z) : M (Z * unit) :=
  let* rc := os_transmit c data in ret (rc, tt).

(** sendBytes(buffer, length, flags) *)
Definition sendBytes (buffer : list Z) (flags : Z) : M Z :=
  let* s := get_this in
  do when (_blocking s) (checkBrokenTimeout SELECT_WRITE) then
  let* '(rc, _) := transfer_loop valid_sockfd
                     (fun fd => sending (sys_send fd buffer flags) buffer) in
  do transfer_failed rc then
  ret rc.

(** sendBytes(buffers, flags), writev branch *)
Definition sendBytes_vec (buffers : list (list Z)) (flags : Z) : M Z :=
  let* s := get_this in
  do when (_blocking s) (checkBrokenTimeout SELECT_WRITE) then
  let* '(rc, _) := transfer_loop valid_sockfd
                     (fun fd => sending (sys_writev fd buffers) (concat buffers)) in
  do transfer_failed rc then
  ret rc.

(** receiveBytes(buffer, length, flags); the buffer comes back with what
    was stored in it. *)
Definition receiveBytes (buffer : list Z) (flags : Z) : M (Z * list Z) :=
  let* s := get_this in
  do when (_blocking s) (checkBrokenTimeout SELECT_READ) then
  let* '(rc, buffer) := transfer_loop valid_sockfd
                          (fun fd => os_receive (sys_recv fd (len buffer) flags) buffer) in
  do transfer_failed rc then
  ret (rc, buffer).

(** Cutting a flat byte sequence back into buffers of the given sizes. *)
Fixpoint scatter (shape : list (list Z)) (flat : list Z) : list (list Z) :=
  match shape with
  | [] => []
  | b :: rest => firstn (length b) flat :: scatter rest (skipn (length b) flat)
  end.

(** receiveBytes(buffers, flags), readv branch *)
Definition receiveBytes_vec (buffers : list (list Z)) (flags : Z) : M (Z * list (list Z)) :=
  let* s := get_this in
  do when (_blocking s) (checkBrokenTimeout SELECT_READ) then
  let* '(rc, flat) := transfer_loop valid_sockfd
                        (fun fd => os_receive (sys_readv fd (map len buffers)) (concat buffers)) in
  do transfer_failed rc then
  ret (rc, scatter buffers flat).

(** Modelled from the spec: Poco::Buffer<char>::resize (Buffer.h is not part
    of this file) keeps the content that fits; new room is taken as zeroes. *)
Definition Buffer_resize (buffer : list Z) (newSize : Z) : list Z :=
  firstn (Z.to_nat newSize) buffer ++ repeat 0 (Z.to_nat newSize - length buffer)%nat.

(** receiveBytes(Poco::Buffer<char>& buffer, flags, timeout) *)
Definition receiveBytes_Buffer (buffer : list Z) (flags timeout : Z) : M (Z * list Z) :=
  let* ready := poll timeout SELECT_READ in
  if ready then
    let* avail := available in
    let buffer := if len buffer <? to_size_t avail
                  then Buffer_resize buffer (to_size_t avail) else buffer in
    let* '(rc, buffer) := transfer_loop valid_sockfd
                            (fun fd => os_receive (sys_recv fd (to_int (len buffer)) flags) buffer) in
    do transfer_failed rc then
    ret (rc, if to_size_t rc <? len buffer then Buffer_resize buffer (to_size_t rc) else buffer)
  else ret (0, buffer).

(** [if (_sockfd == POCO_INVALID_SOCKET) init(address.af());] *)
Definition lazy_sockfd (address : SocketAddress) : M Z :=
  let* s := get_this in
  do when (_sockfd s =? POCO_INVALID_SOCKET) (init (sa_af address)) then
  let* s := get_this in ret (_sockfd s).

(** sendTo(buffer, length, address, flags) *)
Definition sendTo (buffer : list Z) (address : SocketAddress) (flags : Z) : M Z :=
  let* '(rc, _) := transfer_loop (lazy_sockfd address)
                     (fun fd => sending (sys_sendto fd buffer flags address) buffer) in
  do transfer_failed rc then
  ret rc.

(** sendTo(buffers, address, flags), sendmsg branch *)
Definition sendTo_vec (buffers : list (list Z)) (address : SocketAddress) (flags : Z) : M Z :=
  let* '(rc, _) := transfer_loop (lazy_sockfd address)
                     (fun fd => sending (sys_sendmsg fd buffers flags address) (concat buffers)) in
  do transfer_failed rc then
  ret rc.

(** A receive that also reports the peer address the kernel stored. *)
Definition os_receive_from (c : Syscall) (buffer : list Z) : M (Z * (list Z * list Z)) :=
  let* r := syscall c in
  let rc := moved (r_rc r) (Z.min (len buffer) (len (r_out r))) in
  ret (rc, (if 0 <=? rc then overwrite buffer (take rc (r_out r)) else buffer, r_addr r)).

(** receiveFrom(buffer, length, ppSA, ppSALen, flags) *)
Definition receiveFrom_raw (buffer : list Z) (flags : Z) : M (Z * (list Z * list Z)) :=
  let* s := get_this in
  do when (_blocking s) (checkBrokenTimeout SELECT_READ) then
  let* r := transfer_loop valid_sockfd
              (fun fd => os_receive_from (sys_recvfrom fd (len buffer) flags) buffer) in
  do transfer_failed (fst r) then
  ret r.

(** receiveFrom(buffer, length, address, flags): the address is assigned
    (from the stored bytes) only when rc >= 0. *)
Definition receiveFrom (buffer : list Z) (flags : Z) : M (Z * list Z * option (list Z)) :=
  let* '(rc, (buffer, storage)) := receiveFrom_raw buffer flags in
  ret (rc, buffer, if 0 <=? rc then Some storage else None).

(** receiveFrom(buffers, pSA, ppSALen, flags), recvmsg branch *)
Definition receiveFrom_vec_raw (buffers : list (list Z)) (flags : Z)
  : M (Z * (list Z * list Z)) :=
  let* s := get_this in
  do when (_blocking s) (checkBrokenTimeout SELECT_READ) then
  let* r := transfer_loop valid_sockfd
              (fun fd => os_receive_from (sys_recvmsg fd (map len buffers) flags)
                                         (concat buffers)) in
  do transfer_failed (fst r) then
  ret r.

(** receiveFrom(buffers, address, flags) *)
Definition receiveFrom_vec (buffers : list (list Z)) (flags : Z)
  : M (Z * list (list Z) * option (list Z)) :=
  let* '(rc, (flat, storage)) := receiveFrom_vec_raw buffers flags in
  ret (rc, scatter buffers flat, if 0 <=? rc then Some storage else None).

Definition MSG_OOB : Z := 1.

(** sendUrgent(data) *)
Definition sendUrgent (data : Z) : M unit :=
  let* fd := valid_sockfd in
  let* rc := os_transmit (sys_send fd [data] MSG_OOB) [data] in
  when (rc <? 0) error_last.

(** *** File transmission *)

(** Modelled from the spec: the file resource (Poco::FileInputStream, not
    part of this file) exposes a native handle, a seek operation, a total
    size and a read-with-count operation.  [fis_ok] is the stream's
    conversion to bool, [fis_gcount] what gcount() reports. *)
Record FileInputStream : Type := mkFileInputStream {
  fis_handle : Z;
  fis_data : list Z;
  fis_pos : Z;
  fis_ok : bool;
  fis_gcount : Z
}.

Definition nativeHandle (f : FileInputStream) : Z := fis_handle f.

Definition size (f : FileInputStream) : Z := len (fis_data f).

(** seekg(offset, std::ios_base::beg) *)
Definition seekg (f : FileInputStream) (offset : Z) : FileInputStream :=
  if fis_ok f && (0 <=? offset)
  then mkFileInputStream (fis_handle f) (fis_data f) offset true (fis_gcount f)
  else mkFileInputStream (fis_handle f) (fis_data f) (fis_pos f) false (fis_gcount f).

(** read(s, n): the characters extracted and the stream afterwards; fewer
    than [n] characters are extracted only at the end of the file, and the
    stream then turns false. *)
Definition read (f : FileInputStream) (n : Z) : list Z * FileInputStream :=
  if fis_ok f then
    let chunk := take n (drop (fis_pos f) (fis_data f)) in
    (chunk,
     mkFileInputStream (fis_handle f) (fis_data f) (fis_pos f + len chunk)
                       (len chunk =? Z.max 0 n) (len chunk))
  else
    ([], mkFileInputStream (fis_handle f) (fis_data f) (fis_pos f) false 0).

Definition gcount (f : FileInputStream) : Z := fis_gcount f.

(** sendfile(sd, fd, &offset, count): the kernel moves at most [count]
    bytes of the file from [offset] on, and no more than the file holds. *)
Definition os_sendfile (sd : Z) (f : FileInputStream) (offset count : Z) : M Z :=
  let* r := syscall (sys_sendfile sd (nativeHandle f) offset count) in
  let source := drop offset (fis_data f) in
  let rc := moved (r_rc r) (Z.min count (len source)) in
  do when (0 <=? rc) (transmit (take rc source)) then
  ret rc.

(** sendFileUnix(sd, fd, offset, count), Linux branch *)
Definition sendFileUnix (sd : Z) (f : FileInputStream) (offset count : Z) : M Z :=
  os_sendfile sd f offset count.

(** One round of [while (count > 0)] in sendFileNative; the loop state is
    offset, count and sent. *)
Definition sendFileNative_round (f : FileInputStream) (state : Z * Z * Z)
  : M (Z * Z * Z + Z) :=
  let '(offset, count, sent) := state in
  if 0 <? count then
    let* s := get_this in
    let* rc := sendFileUnix (_sockfd s) f offset count in
    if 0 <=? rc then ret (inl (offset + rc, count - rc, sent + rc))
    else
      let* errno := lastError in
      do error_code errno then
      ret (inl (offset, count, sent))
  else ret (inr sent).

(** sendFileNative(fileInputStream, offset, count), POSIX definition *)
Definition sendFileNative (f : FileInputStream) (offset count : Z) : M Z :=
  let count := if count =? 0 then size f - offset else count in
  loop (sendFileNative_round f) (offset, count, 0).

(** The variables of the loop of sendFileBlockwise. *)
Record Blockwise : Type := mkBlockwise {
  bw_stream : FileInputStream;
  bw_buffer : list Z;
  bw_bufferSize : Z;
  bw_len : Z;
  bw_n : Z
}.

(** One round of the while loop of sendFileBlockwise. *)
Definition sendFileBlockwise_round (count : Z) (v : Blockwise)
  : M (Blockwise + Z * FileInputStream) :=
  if (0 <? bw_n v) && ((count =? 0) || (bw_len v <? count)) then
    let len' := bw_len v + bw_n v in
    let* _ := sendBytes (take (to_int (bw_n v)) (bw_buffer v)) 0 in
    let bufferSize :=
      if (0 <? count) && (len' <? count) then
        let remaining := count - len' in
        if remaining <? bw_bufferSize v then remaining else bw_bufferSize v
      else bw_bufferSize v in
    if fis_ok (bw_stream v) then
      let '(chunk, f) := read (bw_stream v) bufferSize in
      ret (inl (mkBlockwise f (overwrite (bw_buffer v) chunk) bufferSize len' (gcount f)))
    else
      ret (inl (mkBlockwise (bw_stream v) (bw_buffer v) bufferSize len' 0))
  else ret (inr (bw_len v, bw_stream v)).

(** sendFileBlockwise(fileInputStream, offset, count); the stream comes
    back as the call leaves it. *)
Definition sendFileBlockwise (f : FileInputStream) (offset count : Z)
  : M (Z * FileInputStream) :=
  let f := seekg f offset in
  let buffer := repeat 0 (Z.to_nat 8192) in
  let bufferSize := len buffer in
  let bufferSize := if (0 <? count) && (count <? bufferSize) then count else bufferSize in
  let '(chunk, f) := read f bufferSize in
  loop (sendFileBlockwise_round count)
       (mkBlockwise f (overwrite buffer chunk) bufferSize 0 (gcount f)).

(** sendFile(fileInputStream, offset, count) *)
Definition sendFile (f : FileInputStream) (offset count : Z) : M (Z * FileInputStream) :=
  let* blocking := getBlocking in
  do when (negb blocking)
       (throw (exn_msg NetException "sendFile() not supported for non-blocking sockets" 0)) then
  if POCO_HAVE_SENDFILE P then
    let* sec := secure in
    if sec then sendFileBlockwise f offset count
    else
      let* sent := sendFileNative f offset count in ret (sent, f)
  else sendFileBlockwise f offset count.

End Socket.

(** ** Sample handles, worlds and replies *)

Definition world (fds : gmap Z Z) (script : list Reply) : World :=
  mkWorld fds 0 0 script [] [].

Definition handle (fd : Z) (blocking broken : bool) (timeout : Z) : SocketImpl :=
  mkSocketImpl fd blocking broken timeout timeout false.

(** A reply reporting success with value [rc] after [t] microseconds. *)
Definition ok (rc t : Z) : Reply := mkReply rc 0 t [] [].

(** A reply reporting failure with [errno] after [t] microseconds. *)
Definition failed (errno t : Z) : Reply := mkReply (-1) errno t [] [].

(** A reply delivering [bytes]. *)
Definition delivered (bytes : list Z) : Reply := mkReply (len bytes) 0 0 bytes [].

Definition peer : SocketAddress := mkSocketAddress 2 "192.0.2.1:80".

(** ** Vocabulary of the properties *)

(** Whether [code] is one of the case labels of the translator's switch. *)
Definition is_enumerated (c : ErrorCodes) (code : Z) : bool :=
  existsb (Z.eqb code) (enumerated c).

(** The outcome error(code, arg) stands for. *)
Definition raised (c : ErrorCodes) (code : Z) (arg : string) : Outcome unit :=
  match translate c code arg with
  | None => Return tt
  | Some e => Throw e
  end.

(** close() called [n] times in a row. *)
Fixpoint close_times (P : Platform) (n : nat) : M unit :=
  match n with
  | O => ret tt
  | S n' => do close P then close_times P n'
  end.

(** The calls a computation attempted, oldest first. *)
Definition calls (st : State) : list Syscall := rev (map fst (w_trace (os st))).

(** [m] refuses an unset handle: it throws InvalidSocketException and the
    state, trace of attempted system calls included, is as before. *)
Definition rejects_unset {A : Type} (m : M A) : Prop :=
  forall st : State,
    _sockfd (this st) = POCO_INVALID_SOCKET -> m st = (Throw InvalidSocket, st).

(** An unset blocking handle in a world where descriptor 0 is open and the
    next two system calls succeed. *)
Definition unset_state : State :=
  mkState (handle POCO_INVALID_SOCKET true false 0) (world {[0 := 2]} [ok 0 0; ok 4 0]).

(** An unset blocking handle in a process that cannot open another
    descriptor: socket() fails with EMFILE. *)
Definition no_socket_state : State :=
  mkState (handle POCO_INVALID_SOCKET true false 0) (world {[0 := 2]} [failed 24 0]).

(** A three-byte file. *)
Definition small_file : FileInputStream := mkFileInputStream 7 [10; 20; 30] 0 true 0.

(** A non-blocking handle on the open descriptor 3. *)
Definition nonblocking_state : State :=
  mkState (handle 3 false false 0) (world {[3 := 2048]} [ok 0 0]).


(** [m], started in a state satisfying [inv], ends in a state satisfying
    [inv] whatever the outcome, and a value it returns satisfies [ok]. *)
Definition keeps {A : Type} (inv : State -> Prop) (m : M A) (ok : A -> Prop) : Prop :=
  forall st : State,
    inv st -> inv (snd (m st)) /\ forall a : A, fst (m st) = Return a -> ok a.

(** The handle [s] with its cached blocking flag set to [b]. *)
Definition with_blocking (b : bool) (s : SocketImpl) : SocketImpl :=
  mkSocketImpl (_sockfd s) b (_isBrokenTimeout s) (_recvTimeout s) (_sndTimeout s)
               (is_secure s).

(** The state holds the handle [s], up to its cached blocking flag, and the
    descriptor of [s] is open with status flags that are non-negative and
    equal [base] outside O_NONBLOCK. *)
Definition same_but_mode (P : Platform) (s : SocketImpl) (base : Z) (st : State) : Prop :=
  (exists b : bool, this st = with_blocking b s)
  /\ exists fl : Z,
      w_fds (os st) !! _sockfd s = Some fl
      /\ 0 <= fl
      /\ Z.land fl (Z.lnot (O_NONBLOCK P)) = base.

(** A blocking handle on descriptor 3 whose connect is in progress, is
    interrupted once while waiting and then fails with ECONNREFUSED. *)
Definition refused_state : State :=
  mkState (handle 3 true false 0)
          (world {[3 := 2]}
                 [failed 115 0; ok 0 0; ok 0 0; failed 4 300; ok 1 200;
                  mkReply 0 0 0 [111] []]).

(** The system calls poll() may issue. *)
Definition is_poll_call (c : Syscall) : bool :=
  match c with
  | sys_epoll_create | sys_epoll_ctl_add _ _ _ _ _ | sys_epoll_wait _ _
  | sys_poll _ _ _ _ | sys_select _ _ _ _ _ _ | sys_close _ => true
  | _ => false
  end.

Definition is_send_call (c : Syscall) : bool :=
  match c with
  | sys_send _ _ _ => true
  | _ => false
  end.

Definition is_recv_call (c : Syscall) : bool :=
  match c with
  | sys_recv _ _ _ => true
  | _ => false
  end.

(** Since [st0], only calls that [allowed] admits were attempted. *)
Definition only_calls (allowed : Syscall -> bool) (st0 st : State) : Prop :=
  exists new : list (Syscall * option Reply),
    w_trace (os st) = new ++ w_trace (os st0)
    /\ forallb (fun e => allowed (fst e)) new = true.

(** A readable socket whose peer has shut down: the wait reports it ready,
    FIONREAD reports nothing to read, recv returns 0. *)
Definition shutdown_state : State :=
  mkState (handle 3 true false 0)
          (world {[3 := 2]} [ok 0 0; ok 0 0; ok 1 100; mkReply 0 0 0 [0] []; ok 0 0]).

(** A socket on which nothing arrives: the wait runs into its timeout. *)
Definition silent_state : State :=
  mkState (handle 3 true false 0) (world {[3 := 2]} [ok 0 0; ok 0 0; ok 0 5000]).

(** A blocking handle under timeout emulation whose stored timeouts are
    zero, in a world where the kernel never answers. *)
Definition emulated_zero_state : State :=
  mkState (handle 3 true true 0) (world {[3 := 2]} []).

(** A blocking handle under timeout emulation with timeouts of 5 ms, on a
    socket that does not become ready. *)
Definition emulated_state : State :=
  mkState (handle 3 true true 5000) (world {[3 := 2]} [ok 0 0; ok 0 0; ok 0 5000]).







(** A blocking handle whose send is interrupted by a signal. *)
Definition interrupted_state : State :=
  mkState (handle 3 true false 0) (world {[3 := 2]} [failed 4 0]).

(** *** Vocabulary for the time budget of poll *)

(** A reply that reports a wait interrupted by a signal. *)
Definition is_interrupt (c : ErrorCodes) (r : Reply) : bool :=
  (r_rc r <? 0) && (r_errno r =? POCO_EINTR c).

(** In the words of the specification: after an interrupted wait the elapsed
    time is subtracted from the remaining budget, saturating at zero. *)
Definition budget_after (budget elapsed : Z) : Z := Z.max 0 (budget - elapsed).

(** The budgets with which the successive waits are entered, when the
    interrupted waits took [elapsed]: one wait more than interruptions. *)
Fixpoint budgets (budget : Z) (elapsed : list Z) : list Z :=
  match elapsed with
  | [] => [budget]
  | e :: rest => budget :: budgets (budget_after budget e) rest
  end.




(** The state after the kernel answered the given calls in turn. *)
Definition answered_all (l : list (Syscall * Reply)) (st : State) : State :=
  fold_left (fun st' cr => answered (fst cr) (snd cr) st') l st.


(** The time the calls answered by [l] took in total. *)
Definition total_time (l : list Reply) : Z := fold_right (fun r t => r_time r + t) 0 l.




(** A poll on descriptor 3 that is interrupted twice before the descriptor
    becomes ready. *)
Definition twice_interrupted_state : State :=
  mkState (handle 3 true false 0)
          (world {[3 := 2]} [ok 0 0; ok 0 0; failed 4 300; failed 4 200; ok 1 100]).



(** *** Vocabulary for file transmission *)

(** The bytes of the file [f] from [offset] on, [n] of them. *)
Definition file_bytes (f : FileInputStream) (offset n : Z) : list Z :=
  take n (drop offset (fis_data f)).

(** How many bytes a request for [count] bytes from [offset] can deliver:
    the rest of the file when [count] is 0, else [count] or what the file
    holds, whichever is less. *)
Definition deliverable (f : FileInputStream) (offset count : Z) : Z :=
  if count =? 0 then size f - offset else Z.min count (size f - offset).

(** A blocking plain handle on descriptor 3 and two send replies. *)
Definition plain_state : State :=
  mkState (handle 3 true false 0) (world {[3 := 2]} [ok 8192 0; ok 8192 0]).

(** What holds of the variables of the loop of sendFileBlockwise each time
    its condition is tested, for the file [f0] sent from [offset] with the
    request [count]: [bw_len] bytes were sent, the buffer holds the next
    [bw_n] bytes of the file, read with the buffer size [bw_bufferSize],
    and the stream is good exactly when that read was not cut short. *)
Definition blockwise_inv (f0 : FileInputStream) (offset count : Z) (v : Blockwise) : Prop :=
  let avail := size f0 - offset in
  let total := deliverable f0 offset count in
  fis_data (bw_stream v) = fis_data f0
  /\ len (bw_buffer v) = 8192
  /\ 0 <= bw_len v <= total
  /\ 0 < bw_bufferSize v <= 8192
  /\ (bw_len v < total ->
      bw_bufferSize v = if 0 <? count then Z.min 8192 (count - bw_len v) else 8192)
  /\ bw_n v = Z.min (bw_bufferSize v) (avail - bw_len v)
  /\ fis_ok (bw_stream v) = (bw_n v =? bw_bufferSize v)
  /\ (fis_ok (bw_stream v) = true -> fis_pos (bw_stream v) = offset + bw_len v + bw_n v)
  /\ take (bw_n v) (bw_buffer v) = file_bytes f0 (offset + bw_len v) (bw_n v).

(** ** Construction, adoption of a descriptor, port reuse *)

(** checkIsBrokenTimeout(), POSIX build: true exactly when
    POCO_BROKEN_TIMEOUTS is defined. *)
Definition checkIsBrokenTimeout (P : Platform) : bool := POCO_BROKEN_TIMEOUTS P.

(** SocketImpl::SocketImpl(); the two Timespan members are
    default-constructed (zero), secure() is SocketImpl's own. *)
Definition SocketImpl_new (P : Platform) : SocketImpl :=
  mkSocketImpl POCO_INVALID_SOCKET true (checkIsBrokenTimeout P) 0 0 false.

(** SocketImpl::SocketImpl(poco_socket_t sockfd) *)
Definition SocketImpl_adopt (P : Platform) (sockfd : Z) : SocketImpl :=
  mkSocketImpl sockfd true (checkIsBrokenTimeout P) 0 0 false.

(** useFileDescriptor(fd) *)
Definition useFileDescriptor (fd : Z) : M unit :=
  let* s := get_this in
  do poco_assert (_sockfd s =? POCO_INVALID_SOCKET)
                 "_sockfd == POCO_INVALID_SOCKET" then
  set_sockfd fd.

(** reset(aSocket) *)
Definition reset (aSocket : Z) : M unit := set_sockfd aSocket.

(** Modelled from the spec: a reuse option the platform does not support is
    silently ignored.  Which classes the catch clause of setReusePort takes
    follows the class declarations, which are not part of this file:
    NetException.h derives NetException from IOException, and
    InvalidSocketException and the three connection exceptions from
    NetException; Exception.h (Foundation) has TimeoutException under
    RuntimeException and the remaining three under LogicException. *)
Definition is_IOException (k : ExKind) : bool :=
  match k with
  | IOException | NetException | InvalidSocketException
  | ConnectionAbortedException | ConnectionResetException
  | ConnectionRefusedException => true
  | InvalidArgumentException | TimeoutException | NotImplementedException
  | AssertionViolationException => false
  end.

(** [try { m } catch (const IOException&) { handler }]: an exception of
    another class passes through. *)
Definition try_catch_IOException {A : Type} (m : M A) (handler : Exception -> M A) : M A :=
  fun st =>
    match m st with
    | (Throw e, st') => if is_IOException (ex_kind e) then handler e st' else (Throw e, st')
    | r => r
    end.

(** setReusePort(flag), with SO_REUSEPORT defined *)
Definition setReusePort (P : Platform) (flag : bool) : M unit :=
  try_catch_IOException (setOption P SO_REUSEPORT (if flag then 1 else 0))
                        (fun _ => ret tt).

(** ** Vocabulary of the further properties *)

(** The status flags [setBlocking(flag)] writes when it read [fl]. *)
Definition mode_flags (P : Platform) (flag : bool) (fl : Z) : Z :=
  let cleared := Z.land fl (Z.lnot (O_NONBLOCK P)) in
  if flag then cleared else Z.lor cleared (O_NONBLOCK P).

(** The exception classes the error translator throws. *)
Definition translator_classes : list ExKind :=
  [NetException; IOException; InvalidArgumentException; TimeoutException;
   ConnectionAbortedException; ConnectionResetException; ConnectionRefusedException].

(** A reply to connect() after which the call is over: success, or a
    failure that is not an interruption. *)
Definition settles (c : ErrorCodes) (r : Reply) : Prop :=
  r_rc r = 0 \/ (r_rc r < 0 /\ r_errno r <> POCO_EINTR c).

(** [setter] followed by [getter] gives back [v]: on a set handle, with a
    reply [p] to the setter's setsockopt that is not a failure and a reply
    [q] to the getter's getsockopt that reports success, the setter makes
    exactly one call, setsockopt of [opt] with some bytes, and the getter
    returns [v] whenever [q] hands those bytes back. *)
Definition round_trip {A : Type} (opt : OptionName) (setter : M unit) (getter : M A)
           (v : A) : Prop :=
  forall (st : State) (p q : Reply) (rest : list Reply),
    _sockfd (this st) <> POCO_INVALID_SOCKET ->
    w_script (os st) = p :: q :: rest ->
    r_rc p <> -1 -> r_rc q = 0 ->
    exists (value : list Z) (st1 : State),
      setter st = (Return tt, st1)
      /\ calls st1 = calls st ++ [sys_setsockopt (_sockfd (this st)) opt value]
      /\ (r_out q = value -> fst (getter st1) = Return v).

(** A set handle and a kernel that stores what it is given: the reply to
    the second call hands back [value]. *)
Definition storing_state (broken : bool) (value : list Z) : State :=
  mkState (handle 3 true broken 0) (world {[3 := 2]} [ok 0 0; mkReply 0 0 0 value []]).

Definition is_sendto_call (c : Syscall) : bool :=
  match c with
  | sys_sendto _ _ _ _ | sys_sendmsg _ _ _ _ => true
  | _ => false
  end.

(** A blocking handle on descriptor 3 whose connect is interrupted twice
    and then refused. *)
Definition interrupted_connect_state : State :=
  mkState (handle 3 true false 0)
          (world {[3 := 2]} [failed 4 10; failed 4 20; failed 111 30]).

(** A readable socket with five bytes pending, of which recv delivers
    three. *)
Definition readable_state : State :=
  mkState (handle 3 true false 0)
          (world {[3 := 2]}
                 [ok 0 0; ok 0 0; ok 1 100; mkReply 0 0 0 [5] [];
                  mkReply 3 0 0 [7; 8; 9] []]).

(** A datagram arriving from the peer whose address bytes are [192; 0; 2; 1]. *)
Definition datagram_state : State :=
  mkState (handle 3 true false 0)
          (world {[3 := 2]} [mkReply 2 0 0 [7; 8] [192; 0; 2; 1]]).

(** A non-blocking handle with nothing to receive. *)
Definition empty_queue_state : State :=
  mkState (handle 3 false false 0) (world {[3 := 2048]} [failed 11 0]).

(** A set handle whose next system call fails with [errno]. *)
Definition failing_state (errno : Z) : State :=
  mkState (handle 3 true false 0) (world {[3 := 2]} [failed errno 0]).

(** [m], started in a state satisfying [pre], satisfies [post a] in the
    state in which it returns [a], and [exc] in the state in which it
    throws; nothing is said of a run that never returns. *)
Definition ends {A : Type} (pre : State -> Prop) (m : M A)
           (post : A -> State -> Prop) (exc : State -> Prop) : Prop :=
  forall st : State,
    pre st ->
    match m st with
    | (Return a, st') => post a st'
    | (Throw _, st') => exc st'
    | (Hang, _) => True
    end.

(** What one round of the loop of sendFileBlockwise makes of its
    variables, the send apart: the statements after the call of sendBytes. *)
Definition blockwise_next (count : Z) (v : Blockwise) : Blockwise :=
  let len' := bw_len v + bw_n v in
  let bufferSize :=
    if (0 <? count) && (len' <? count) then
      let remaining := count - len' in
      if remaining <? bw_bufferSize v then remaining else bw_bufferSize v
    else bw_bufferSize v in
  if fis_ok (bw_stream v) then
    let '(chunk, f) := read (bw_stream v) bufferSize in
    mkBlockwise f (overwrite (bw_buffer v) chunk) bufferSize len' (gcount f)
  else
    mkBlockwise (bw_stream v) (bw_buffer v) bufferSize len' 0.


(** A blocking handle whose send is interrupted twice before the kernel
    accepts two bytes. *)
Definition interrupted_send_state : State :=
  mkState (handle 3 true false 0)
          (world {[3 := 2]} [failed 4 300; failed 4 200; ok 2 0]).

(** An unset handle of a build with POCO_BROKEN_TIMEOUTS: the emulation
    flag is set; no reply is scripted. *)
Definition unset_emulated_state : State :=
  mkState (handle POCO_INVALID_SOCKET true true 0) (world {[0 := 2]} []).

(** The calls the chunked fallback of sendFile may attempt: send with at
    most 8192 bytes, and the readiness calls of the emulated send timeout
    in front of it. *)
Definition is_chunk_call (c : Syscall) : bool :=
  match c with
  | sys_send _ data _ => len data <=? 8192
  | _ => is_poll_call c
  end.

(** A blocking handle of a secure transport and a kernel that accepts two
    whole chunks. *)
Definition secure_plain_state : State :=
  mkState (mkSocketImpl 3 true false 0 0 true) (world {[3 := 2]} [ok 8192 0; ok 8192 0]).

(** * Properties *)

(** ** The error translator *)

Lemma switch_default {A : Type} (x : Z) (arms : list (Z * A)) (d : A) :
  existsb (Z.eqb x) (map fst arms) = false -> switch x arms d = d.
Proof.
  induction arms as [|[label arm] rest IH]; simpl; [reflexivity|].
  intros H. apply orb_false_iff in H as [Hx Hrest].
  rewrite Hx. auto.
Qed.

Lemma error_arms_labels (c : ErrorCodes) (code : Z) (arg : string) :
  map fst (error_arms c code arg) = enumerated c.
Proof. reflexivity. Qed.

Lemma translate_ENOERR (c : ErrorCodes) (arg : string) :
  translate c (POCO_ENOERR c) arg = None.
Proof. unfold translate. simpl. rewrite Z.eqb_refl. reflexivity. Qed.

Lemma translate_default (c : ErrorCodes) (code : Z) (arg : string) :
  is_enumerated c code = false ->
  translate c code arg
  = Some (mkException IOException (NumberFormatter_format code) arg code).
Proof.
  intros H. unfold translate. apply switch_default.
  rewrite error_arms_labels. exact H.
Qed.

Lemma error_run (P : Platform) (code : Z) (arg : string) (st : State) :
  error P code arg st = (raised (codes P) code arg, st).
Proof. unfold error, raised, E. destruct (translate _ _ _); reflexivity. Qed.

(** C4. error(code, arg) is a total function of its two arguments alone: in
    every state it yields the same outcome, which is a return or a throw,
    and leaves the state as it was; the no-error code returns; a code that
    is not a case label throws IOException whose message is the decimal
    rendering of the code and which carries the context argument and the
    code, so that two such calls with different code or context throw
    different exceptions. *)
Theorem error_translator_pure (P : Platform) (code : Z) (arg : string) :
  (exists o : Outcome unit,
      o <> Hang /\ forall st : State, error P code arg st = (o, st))
  /\ (forall st : State, error P (POCO_ENOERR (codes P)) arg st = (Return tt, st))
  /\ (is_enumerated (codes P) code = false ->
      (forall st : State,
          error P code arg st
          = (Throw (mkException IOException (NumberFormatter_format code) arg code), st))
      /\ (forall (code' : Z) (arg' : string),
             is_enumerated (codes P) code' = false ->
             translate (codes P) code arg = translate (codes P) code' arg' ->
             code = code' /\ arg = arg')).
Proof.
  split; [|split].
  - exists (raised (codes P) code arg). split.
    + unfold raised. destruct (translate _ _ _); discriminate.
    + intros st. apply error_run.
  - intros st. rewrite error_run. unfold raised.
    rewrite translate_ENOERR. reflexivity.
  - intros Hcode. split.
    + intros st. rewrite error_run. unfold raised.
      rewrite (translate_default _ _ _ Hcode). reflexivity.
    + intros code' arg' Hcode' Heq.
      rewrite (translate_default _ _ _ Hcode) in Heq.
      rewrite (translate_default _ _ _ Hcode') in Heq.
      inversion Heq. split; reflexivity.
Qed.

(** ENOMEM (12) is not a case label on Linux: the translator throws
    IOException("12", "peer", 12). *)
Lemma error_translator_pure_witness :
  is_enumerated (codes linux) 12 = false
  /\ error linux 12 "peer" (mkState (handle 3 true false 0) (world ∅ []))
     = (Throw (mkException IOException "12" "peer" 12),
        mkState (handle 3 true false 0) (world ∅ [])).
Proof.
  split; [reflexivity|].
  apply (proj1 (proj2 (proj2 (error_translator_pure linux 12 "peer")) eq_refl)).
Defined.

(** ** Stepping through computations *)

Lemma bind_get_this {B : Type} (k : SocketImpl -> M B) (st : State) :
  bind get_this k st = k (this st) st.
Proof. reflexivity. Qed.

Lemma bind_ret {A B : Type} (a : A) (k : A -> M B) (st : State) :
  bind (ret a) k st = k a st.
Proof. reflexivity. Qed.

Lemma bind_lastError {B : Type} (k : Z -> M B) (st : State) :
  bind lastError k st = k (w_errno (os st)) st.
Proof. reflexivity. Qed.

Lemma bind_get_fds {B : Type} (k : gmap Z Z -> M B) (st : State) :
  bind get_fds k st = k (w_fds (os st)) st.
Proof. reflexivity. Qed.


Lemma bind_assoc {A B C : Type} (m : M A) (k : A -> M B) (h : B -> M C) (st : State) :
  bind (bind m k) h st = bind m (fun a => bind (k a) h) st.
Proof. unfold bind. destruct (m st) as [[a|e|] st']; reflexivity. Qed.

Lemma bind_throw {A B : Type} (m : M A) (k : A -> M B) (e : Exception) (st st' : State) :
  m st = (Throw e, st') -> bind m k st = (Throw e, st').
Proof. intros H. unfold bind. rewrite H. reflexivity. Qed.

Lemma bind_hang {A B : Type} (m : M A) (k : A -> M B) (st st' : State) :
  m st = (Hang, st') -> bind m k st = (Hang, st').
Proof. intros H. unfold bind. rewrite H. reflexivity. Qed.

Lemma bind_return {A B : Type} (m : M A) (k : A -> M B) (a : A) (st st' : State) :
  m st = (Return a, st') -> bind m k st = k a st'.
Proof. intros H. unfold bind. rewrite H. reflexivity. Qed.

(** ** Invariants of computations *)

Lemma keeps_weaken {A : Type} (inv : State -> Prop) (m : M A) (ok ok' : A -> Prop) :
  keeps inv m ok -> (forall a, ok a -> ok' a) -> keeps inv m ok'.
Proof. intros H Hw st Hst. destruct (H st Hst) as [Hi Ho]. split; auto. Qed.

Lemma keeps_ret {A : Type} (inv : State -> Prop) (a : A) (ok : A -> Prop) :
  ok a -> keeps inv (ret a) ok.
Proof. intros H st Hst. split; [exact Hst|]. simpl. intros a' [= <-]. exact H. Qed.

Lemma keeps_throw {A : Type} (inv : State -> Prop) (e : Exception) (ok : A -> Prop) :
  keeps inv (throw e) ok.
Proof. intros st Hst. split; [exact Hst|]. simpl. discriminate. Qed.

Lemma keeps_bind {A B : Type} (inv : State -> Prop) (m : M A) (k : A -> M B)
      (okA : A -> Prop) (okB : B -> Prop) :
  keeps inv m okA -> (forall a, okA a -> keeps inv (k a) okB) ->
  keeps inv (bind m k) okB.
Proof.
  intros Hm Hk st Hst. destruct (Hm st Hst) as [Hi Ho]. unfold bind.
  destruct (m st) as [[a|e|] st']; simpl in *.
  - apply (Hk a (Ho a eq_refl) st' Hi).
  - split; [exact Hi | discriminate].
  - split; [exact Hi | discriminate].
Qed.

Lemma keeps_when (inv : State -> Prop) (b : bool) (m : M unit) :
  keeps inv m (fun _ => True) -> keeps inv (when b m) (fun _ => True).
Proof.
  intros H. destruct b; simpl; [exact H|]. apply keeps_ret. exact I.
Qed.

Lemma keeps_try_catch {A : Type} (inv : State -> Prop) (m : M A)
      (handler : Exception -> M A) (ok : A -> Prop) :
  keeps inv m ok -> (forall e, keeps inv (handler e) ok) ->
  keeps inv (try_catch m handler) ok.
Proof.
  intros Hm Hh st Hst. destruct (Hm st Hst) as [Hi Ho]. unfold try_catch.
  destruct (m st) as [[a|e|] st']; simpl in *.
  - split; [exact Hi | exact Ho].
  - apply (Hh e st' Hi).
  - split; [exact Hi | discriminate].
Qed.

Lemma keeps_iterate {A B : Type} (inv : State -> Prop) (body : A -> M (A + B))
      (okA : A -> Prop) (okB : B -> Prop) (n : nat) :
  (forall a, okA a ->
             keeps inv (body a)
                   (fun r => match r with inl a' => okA a' | inr b => okB b end)) ->
  forall a, okA a -> keeps inv (iterate n body a) okB.
Proof.
  intros Hbody. induction n as [|n IH]; intros a Ha st Hst.
  - simpl. split; [exact Hst | discriminate].
  - simpl. destruct (Hbody a Ha st Hst) as [Hi Ho].
    destruct (body a st) as [[[a'|b]|e|] st']; simpl in *.
    + apply (IH a' (Ho _ eq_refl) st' Hi).
    + split; [exact Hi|]. intros b' [= <-]. apply (Ho _ eq_refl).
    + split; [exact Hi | discriminate].
    + split; [exact Hi | discriminate].
Qed.

Lemma keeps_loop {A B : Type} (inv : State -> Prop) (body : A -> M (A + B))
      (okA : A -> Prop) (okB : B -> Prop) :
  (forall a, okA a ->
             keeps inv (body a)
                   (fun r => match r with inl a' => okA a' | inr b => okB b end)) ->
  forall a, okA a -> keeps inv (loop body a) okB.
Proof.
  intros Hbody a Ha st Hst. unfold loop.
  apply (keeps_iterate inv body okA okB _ Hbody a Ha st Hst).
Qed.

Lemma keeps_get_this (inv : State -> Prop) :
  keeps inv get_this (fun s => exists st, inv st /\ this st = s).
Proof. intros st Hst. split; [exact Hst|]. simpl. intros a [= <-]. eauto. Qed.

Lemma keeps_lastError (inv : State -> Prop) : keeps inv lastError (fun _ => True).
Proof. intros st Hst. split; [exact Hst|]. auto. Qed.

Lemma keeps_Timestamp_now (inv : State -> Prop) : keeps inv Timestamp_now (fun _ => True).
Proof. intros st Hst. split; [exact Hst|]. auto. Qed.

Lemma keeps_error (P : Platform) (inv : State -> Prop) (code : Z) (arg : string) :
  keeps inv (error P code arg) (fun _ => True).
Proof.
  intros st Hst. unfold error. destruct (translate _ _ _); split; auto.
Qed.

Lemma keeps_error_last (P : Platform) (inv : State -> Prop) :
  keeps inv (error_last P) (fun _ => True).
Proof.
  eapply keeps_bind; [apply keeps_lastError|]. intros. apply keeps_error.
Qed.

Lemma keeps_error_arg (P : Platform) (inv : State -> Prop) (arg : string) :
  keeps inv (error_arg P arg) (fun _ => True).
Proof.
  eapply keeps_bind; [apply keeps_lastError|]. intros. apply keeps_error.
Qed.

Lemma keeps_any {A : Type} (i : State -> Prop) (m : M A) (ok : A -> Prop) :
  keeps i m ok -> keeps i m (fun _ => True).
Proof. intros H. apply (keeps_weaken _ _ _ _ H). auto. Qed.

Lemma keeps_sum {A B : Type} (i : State -> Prop) (m : M (A + B)) :
  keeps i m (fun _ => True) ->
  keeps i m (fun r => match r with inl _ => True | inr _ => True end).
Proof. intros H. apply (keeps_weaken _ _ _ _ H). intros [?|?]; auto. Qed.

Lemma keeps_error_code (P : Platform) (inv : State -> Prop) (code : Z) :
  keeps inv (error_code P code) (fun _ => True).
Proof. apply keeps_error. Qed.

(** One step of an invariant proof, chosen by the shape of the
    computation; [prim] settles the calls that depend on the invariant. *)
Ltac keeps_step prim :=
  first
    [ prim
    | lazymatch goal with
      | |- keeps _ (ret _) _ => apply keeps_ret; exact I
      | |- keeps _ (throw _) _ => apply keeps_throw
      | |- keeps _ lastError _ => apply keeps_lastError
      | |- keeps _ Timestamp_now _ => apply keeps_Timestamp_now
      | |- keeps _ get_this _ => apply (keeps_any _ _ _ (keeps_get_this _))
      | |- keeps _ (error _ _ _) _ => apply keeps_error
      | |- keeps _ (error_last _) _ => apply keeps_error_last
      | |- keeps _ (error_arg _ _) _ => apply keeps_error_arg
      | |- keeps _ (error_code _ _) _ => apply keeps_error_code
      | |- keeps _ (when _ _) _ => apply keeps_when
      | |- keeps _ (loop _ _) _ =>
          apply keeps_loop with (okA := fun _ => True);
          [intros; apply keeps_sum | exact I]
      | |- keeps _ (try_catch _ _) _ => apply keeps_try_catch; [|intros]
      | |- keeps _ (bind _ _) _ =>
          apply keeps_bind with (okA := fun _ => True); [|intros]
      | |- keeps _ (if ?b then _ else _) _ => destruct b
      | |- keeps _ (match ?x with (_, _) => _ end) _ => destruct x
      end ].

(** ** Operations on an unset handle *)

Lemma valid_sockfd_unset : rejects_unset valid_sockfd.
Proof.
  intros st H. unfold valid_sockfd. rewrite bind_get_this, H. reflexivity.
Qed.

Lemma valid_sockfd_set (st : State) :
  _sockfd (this st) <> POCO_INVALID_SOCKET ->
  valid_sockfd st = (Return (_sockfd (this st)), st).
Proof.
  intros H. unfold valid_sockfd. rewrite bind_get_this.
  destruct (Z.eqb_spec (_sockfd (this st)) POCO_INVALID_SOCKET); [contradiction|reflexivity].
Qed.

Lemma poll_unset (P : Platform) (timeout mode : Z) : rejects_unset (poll P timeout mode).
Proof.
  intros st H. unfold poll, poll_epoll, poll_pollfd, poll_select.
  destruct (poll_backend P); apply bind_throw, valid_sockfd_unset, H.
Qed.

Lemma checkBrokenTimeout_unset (P : Platform) (mode : Z) (st : State) :
  _sockfd (this st) = POCO_INVALID_SOCKET ->
  checkBrokenTimeout P mode st = (Return tt, st)
  \/ checkBrokenTimeout P mode st = (Throw InvalidSocket, st).
Proof.
  intros H. unfold checkBrokenTimeout. rewrite bind_get_this. unfold when.
  destruct (_isBrokenTimeout (this st)); [|left; reflexivity].
  destruct (negb _); [|left; reflexivity].
  right. apply bind_throw, poll_unset, H.
Qed.

Lemma transfer_loop_unset {A : Type} (P : Platform) (call : Z -> M (Z * A)) :
  rejects_unset (transfer_loop P valid_sockfd call).
Proof.
  intros st H. unfold transfer_loop, loop. simpl.
  rewrite (bind_throw _ _ _ _ _ (valid_sockfd_unset st H)). reflexivity.
Qed.

(** The shape shared by the send and receive functions: the emulated
    timeout check when blocking, then the transfer loop. *)
Lemma checked_transfer_unset {A B : Type} (P : Platform) (mode : Z)
      (call : Z -> M (Z * A)) (k : Z * A -> M B) :
  rejects_unset
    (let* s := get_this in
     do when (_blocking s) (checkBrokenTimeout P mode) then
     let* r := transfer_loop P valid_sockfd call in k r).
Proof.
  intros st H. rewrite bind_get_this.
  destruct (_blocking (this st)); simpl when.
  - destruct (checkBrokenTimeout_unset P mode st H) as [Hc | Hc].
    + rewrite (bind_return _ _ _ _ _ Hc).
      apply bind_throw, transfer_loop_unset, H.
    + apply bind_throw, Hc.
  - rewrite bind_ret. apply bind_throw, transfer_loop_unset, H.
Qed.

Lemma setRawOption_unset (P : Platform) opt value : rejects_unset (setRawOption P opt value).
Proof. intros st H. apply bind_throw, valid_sockfd_unset, H. Qed.

Lemma getRawOption_unset (P : Platform) opt value : rejects_unset (getRawOption P opt value).
Proof. intros st H. apply bind_throw, valid_sockfd_unset, H. Qed.

Lemma getOption_unset (P : Platform) opt value : rejects_unset (getOption P opt value).
Proof. intros st H. apply bind_throw, getRawOption_unset, H. Qed.

Lemma getOption_Timespan_unset (P : Platform) opt value :
  rejects_unset (getOption_Timespan P opt value).
Proof. intros st H. apply bind_throw, getRawOption_unset, H. Qed.

Lemma setReusePort_unset (P : Platform) (flag : bool) (st : State) :
  _sockfd (this st) = POCO_INVALID_SOCKET -> setReusePort P flag st = (Return tt, st).
Proof.
  intros H. unfold setReusePort, try_catch_IOException, setOption.
  rewrite (setRawOption_unset P _ _ st H). reflexivity.
Qed.

(** C5 (as amended). On a handle whose descriptor is unset, each of
    sendBytes, receiveBytes (all three forms), receiveFrom (all forms),
    sendUrgent, listen, shutdown, shutdownSend, shutdownReceive, poll,
    setRawOption, getRawOption and the option accessors that reach them
    throws InvalidSocketException with the state unchanged, so before any
    system call is attempted; the four timeout accessors do so in a build
    without POCO_BROKEN_TIMEOUTS.  Two accessors do not throw: setReusePort
    catches the exception and returns with the state unchanged, and in a
    build with POCO_BROKEN_TIMEOUTS the timeout accessors contain no option
    call, so the setters return having at most cached the value and the
    getters return the cached value (zero without the emulation flag), the
    operating system untouched. *)
Theorem unset_handle_rejected (P : Platform) :
  (forall buffer flags, rejects_unset (sendBytes P buffer flags))
  /\ (forall buffers flags, rejects_unset (sendBytes_vec P buffers flags))
  /\ (forall buffer flags, rejects_unset (receiveBytes P buffer flags))
  /\ (forall buffers flags, rejects_unset (receiveBytes_vec P buffers flags))
  /\ (forall buffer flags timeout, rejects_unset (receiveBytes_Buffer P buffer flags timeout))
  /\ (forall buffer flags, rejects_unset (receiveFrom_raw P buffer flags))
  /\ (forall buffer flags, rejects_unset (receiveFrom P buffer flags))
  /\ (forall buffers flags, rejects_unset (receiveFrom_vec_raw P buffers flags))
  /\ (forall buffers flags, rejects_unset (receiveFrom_vec P buffers flags))
  /\ (forall data, rejects_unset (sendUrgent P data))
  /\ (forall backlog, rejects_unset (listen P backlog))
  /\ rejects_unset (shutdown P)
  /\ rejects_unset (shutdownSend P)
  /\ rejects_unset (shutdownReceive P)
  /\ (forall timeout mode, rejects_unset (poll P timeout mode))
  /\ (forall opt value, rejects_unset (setRawOption P opt value))
  /\ (forall opt value, rejects_unset (getRawOption P opt value))
  /\ (forall opt value, rejects_unset (setOption P opt value))
  /\ (forall opt value, rejects_unset (getOption P opt value))
  /\ (forall opt value, rejects_unset (setOption_Timespan P opt value))
  /\ (forall opt value, rejects_unset (getOption_Timespan P opt value))
  /\ rejects_unset (socketError P)
  /\ rejects_unset (getError P)
  /\ (forall size, rejects_unset (setSendBufferSize P size))
  /\ rejects_unset (getSendBufferSize P)
  /\ (forall size, rejects_unset (setReceiveBufferSize P size))
  /\ rejects_unset (getReceiveBufferSize P)
  /\ (forall on seconds, rejects_unset (setLinger P on seconds))
  /\ rejects_unset (getLinger P)
  /\ (forall flag, rejects_unset (setNoDelay P flag))
  /\ rejects_unset (getNoDelay P)
  /\ (forall flag, rejects_unset (setKeepAlive P flag))
  /\ rejects_unset (getKeepAlive P)
  /\ (forall flag, rejects_unset (setReuseAddress P flag))
  /\ rejects_unset (getReuseAddress P)
  /\ rejects_unset (getReusePort P)
  /\ (forall flag, rejects_unset (setOOBInline P flag))
  /\ rejects_unset (getOOBInline P)
  /\ (forall flag, rejects_unset (setBroadcast P flag))
  /\ rejects_unset (getBroadcast P)
  /\ (POCO_BROKEN_TIMEOUTS P = false ->
      (forall timeout, rejects_unset (setSendTimeout P timeout))
      /\ rejects_unset (getSendTimeout P)
      /\ (forall timeout, rejects_unset (setReceiveTimeout P timeout))
      /\ rejects_unset (getReceiveTimeout P))
  /\ (forall (flag : bool) (st : State),
         _sockfd (this st) = POCO_INVALID_SOCKET ->
         setReusePort P flag st = (Return tt, st))
  /\ (POCO_BROKEN_TIMEOUTS P = true ->
      forall (timeout : Z) (st : State),
        (fst (setSendTimeout P timeout st) = Return tt
         /\ os (snd (setSendTimeout P timeout st)) = os st
         /\ _sockfd (this (snd (setSendTimeout P timeout st))) = _sockfd (this st))
        /\ (fst (setReceiveTimeout P timeout st) = Return tt
            /\ os (snd (setReceiveTimeout P timeout st)) = os st
            /\ _sockfd (this (snd (setReceiveTimeout P timeout st))) = _sockfd (this st))
        /\ getSendTimeout P st
           = (Return (if _isBrokenTimeout (this st) then _sndTimeout (this st) else 0), st)
        /\ getReceiveTimeout P st
           = (Return (if _isBrokenTimeout (this st) then _recvTimeout (this st) else 0), st)).
Proof.
  assert (Hplain : forall A (m : M A), rejects_unset m ->
             forall B (k : A -> M B), rejects_unset (bind m k)).
  { intros A m Hm B k st H. apply bind_throw, Hm, H. }
  repeat match goal with |- _ /\ _ => split end.
  all: try (intros; first
      [ apply checked_transfer_unset
      | apply poll_unset
      | intros st H;
        repeat first
          [ apply (valid_sockfd_unset st H)
          | apply (poll_unset P _ _ st H)
          | apply (setRawOption_unset P _ _ st H)
          | apply (getRawOption_unset P _ _ st H)
          | apply (getOption_unset P _ _ st H)
          | apply (getOption_Timespan_unset P _ _ st H)
          | apply (checked_transfer_unset P _ _ _ st H)
          | apply bind_throw ] ]; fail).
  - intros Hmacro.
    unfold setSendTimeout, getSendTimeout, setReceiveTimeout, getReceiveTimeout.
    rewrite Hmacro.
    repeat split; intros; apply Hplain; intros st H;
      first [ apply (setRawOption_unset P _ _ st H)
            | apply (getOption_Timespan_unset P _ _ st H) ].
  - intros flag st H. apply setReusePort_unset, H.
  - intros Hmacro timeout st.
    unfold setSendTimeout, getSendTimeout, setReceiveTimeout, getReceiveTimeout.
    rewrite Hmacro. rewrite !bind_ret, !bind_get_this.
    unfold when, set_sndTimeout, set_recvTimeout, ret.
    destruct (_isBrokenTimeout (this st)); simpl; repeat split; reflexivity.
Qed.

Lemma unset_handle_rejected_witness :
  _sockfd (this unset_state) = POCO_INVALID_SOCKET
  /\ sendBytes linux [1; 2; 3; 4] 0 unset_state = (Throw InvalidSocket, unset_state)
  /\ POCO_BROKEN_TIMEOUTS linux = false
  /\ setSendTimeout linux 1500000 unset_state = (Throw InvalidSocket, unset_state)
  /\ setReusePort linux true unset_state = (Return tt, unset_state)
  /\ POCO_BROKEN_TIMEOUTS linux_broken_timeouts = true
  /\ fst (setSendTimeout linux_broken_timeouts 1500000 unset_emulated_state) = Return tt
  /\ os (snd (setSendTimeout linux_broken_timeouts 1500000 unset_emulated_state))
     = os unset_emulated_state
  /\ fst (getSendTimeout linux_broken_timeouts
            (snd (setSendTimeout linux_broken_timeouts 1500000 unset_emulated_state)))
     = Return 1500000.
Proof.
  assert (Hunset : _sockfd (this unset_state) = POCO_INVALID_SOCKET) by reflexivity.
  pose proof (unset_handle_rejected linux) as Hlinux.
  pose proof (unset_handle_rejected linux_broken_timeouts) as Hbroken.
  split; [exact Hunset|].
  split; [exact (proj1 Hlinux [1; 2; 3; 4] 0 unset_state Hunset)|].
  do 40 apply proj2 in Hlinux. do 42 apply proj2 in Hbroken.
  destruct Hlinux as (Htimeouts & Hreuse & _).
  split; [reflexivity|].
  split; [exact (proj1 (Htimeouts eq_refl) 1500000 unset_state Hunset)|].
  split; [exact (Hreuse true unset_state Hunset)|].
  split; [reflexivity|].
  destruct (Hbroken eq_refl 1500000 unset_emulated_state) as ((Hret & Hos & _) & _ & _ & _).
  split; [exact Hret|]. split; [exact Hos|].
  destruct (Hbroken eq_refl 0
              (snd (setSendTimeout linux_broken_timeouts 1500000 unset_emulated_state)))
    as (_ & _ & Hget & _).
  rewrite Hget. reflexivity.
Defined.

(** C5 as stated fails for sendTo: on an unset handle it creates a socket
    (descriptor 1 here), sends the datagram and returns the byte count. *)
Lemma sendTo_unset_counterexample :
  _sockfd (this unset_state) = POCO_INVALID_SOCKET
  /\ fst (sendTo linux [1; 2; 3; 4] peer 0 unset_state) = Return 4
  /\ calls (snd (sendTo linux [1; 2; 3; 4] peer 0 unset_state))
     = [sys_socket 2; sys_sendto 1 [1; 2; 3; 4] 0 peer]
  /\ _sockfd (this (snd (sendTo linux [1; 2; 3; 4] peer 0 unset_state))) = 1.
Proof. vm_compute. repeat split; reflexivity. Qed.

(** ** close *)

Lemma close_unset (P : Platform) (st : State) :
  _sockfd (this st) = POCO_INVALID_SOCKET -> close P st = (Return tt, st).
Proof. intros H. unfold close. rewrite bind_get_this, H. reflexivity. Qed.

Lemma close_times_unset (P : Platform) (n : nat) (st : State) :
  _sockfd (this st) = POCO_INVALID_SOCKET -> close_times P n st = (Return tt, st).
Proof.
  intros H. induction n as [|n IH]; [reflexivity|].
  simpl. rewrite (bind_return _ _ _ _ _ (close_unset P st H)). exact IH.
Qed.

Lemma close_set (P : Platform) (st : State) :
  _sockfd (this st) <> POCO_INVALID_SOCKET ->
  exists st1,
    close P st = (Return tt, st1)
    /\ _sockfd (this st1) = POCO_INVALID_SOCKET
    /\ calls st1 = calls st ++ [sys_close (_sockfd (this st))]
    /\ w_fds (os st1) = delete (_sockfd (this st)) (w_fds (os st))
    /\ w_script (os st1) = w_script (os st)
    /\ w_wire (os st1) = w_wire (os st).
Proof.
  intros H. unfold close. rewrite bind_get_this.
  destruct (Z.eqb_spec (_sockfd (this st)) POCO_INVALID_SOCKET) as [|_]; [contradiction|].
  simpl when. unfold os_close. rewrite bind_assoc, bind_get_fds.
  destruct (w_fds (os st) !! _sockfd (this st)) as [flags|] eqn:Hfd.
  - eexists. split; [reflexivity|]. simpl. unfold calls. simpl.
    repeat split; reflexivity.
  - eexists. split; [reflexivity|]. simpl. unfold calls. simpl.
    repeat split; try reflexivity.
    symmetry. apply delete_id. exact Hfd.
Qed.

(** C8. close() never throws and leaves the descriptor at the sentinel; any
    number of further calls returns with exactly the state the first call
    left, so they attempt no system call; the first call attempts at most
    one, close of the handle's own descriptor, and removes only that
    descriptor from the table of open descriptors. *)
Theorem close_idempotent (P : Platform) (st : State) :
  exists st1 : State,
    close P st = (Return tt, st1)
    /\ _sockfd (this st1) = POCO_INVALID_SOCKET
    /\ (forall n : nat, close_times P (S n) st = (Return tt, st1))
    /\ close P st1 = (Return tt, st1)
    /\ calls st1
       = calls st ++ (if _sockfd (this st) =? POCO_INVALID_SOCKET then []
                      else [sys_close (_sockfd (this st))])
    /\ w_fds (os st1)
       = (if _sockfd (this st) =? POCO_INVALID_SOCKET then w_fds (os st)
          else delete (_sockfd (this st)) (w_fds (os st))).
Proof.
  destruct (Z.eqb_spec (_sockfd (this st)) POCO_INVALID_SOCKET) as [Hu | Hs].
  - exists st. split; [apply close_unset, Hu|]. split; [exact Hu|].
    split; [intros n; apply close_times_unset, Hu|].
    split; [apply close_unset, Hu|].
    split; [symmetry; apply app_nil_r | reflexivity].
  - destruct (close_set P st Hs) as (st1 & Hc & Hfd & Hcalls & Hfds & _).
    exists st1. split; [exact Hc|]. split; [exact Hfd|].
    split.
    { intros n. simpl. rewrite (bind_return _ _ _ _ _ Hc).
      apply close_times_unset, Hfd. }
    split; [apply close_unset, Hfd|].
    split; assumption.
Qed.

(** ** connect with a timeout and the blocking mode *)

Lemma keeps_syscall (inv : State -> Prop) (c : Syscall) :
  (forall r st, inv st -> inv (answered c r st)) ->
  (forall st, inv st -> inv (blocked c st)) ->
  keeps inv (syscall c) (fun _ => True).
Proof.
  intros Ha Hb st Hst. unfold syscall.
  destruct (w_script (os st)); simpl; split; auto.
Qed.

Section Mode.

Variable P : Platform.
Variable s : SocketImpl.
Variable base : Z.

Hypothesis sockfd_set : _sockfd s <> POCO_INVALID_SOCKET.

Let inv : State -> Prop := same_but_mode P s base.

Lemma mode_answered c r st : inv st -> inv (answered c r st).
Proof. intros H. exact H. Qed.

Lemma mode_blocked c st : inv st -> inv (blocked c st).
Proof. intros H. exact H. Qed.

Lemma mode_syscall c : keeps inv (syscall c) (fun _ => True).
Proof. apply keeps_syscall; [apply mode_answered | apply mode_blocked]. Qed.

Lemma mode_os_call c : keeps inv (os_call c) (fun _ => True).
Proof.
  eapply keeps_bind; [apply mode_syscall|]. intros. apply keeps_ret. exact I.
Qed.

Lemma mode_os_query c value : keeps inv (os_query c value) (fun _ => True).
Proof.
  eapply keeps_bind; [apply mode_syscall|]. intros. apply keeps_ret. exact I.
Qed.

Lemma mode_valid_sockfd : keeps inv valid_sockfd (fun fd => fd = _sockfd s).
Proof.
  eapply keeps_bind; [apply keeps_get_this|].
  intros s' (st & [[b Hb] _] & <-).
  destruct (_ =? _); [apply keeps_throw|].
  apply keeps_ret. rewrite Hb. reflexivity.
Qed.

Lemma lowest_free_free (fds : gmap Z Z) (fd : Z) :
  lowest_free fds = Some fd -> fds !! fd = None.
Proof.
  unfold lowest_free. intros H. apply find_some in H as [_ H].
  apply bool_decide_eq_true in H. exact H.
Qed.

Lemma mode_os_open c : keeps inv (os_open P c) (fun fd => fd <> _sockfd s).
Proof.
  intros st Hst. unfold os_open, syscall, bind.
  destruct (w_script (os st)) as [|r rest] eqn:Hscript; simpl.
  { split; [exact Hst | discriminate]. }
  destruct (0 <=? r_rc r).
  - destruct (lowest_free (w_fds (os st))) as [fd|] eqn:Hfree; simpl.
    + apply lowest_free_free in Hfree.
      destruct Hst as [Hthis (fl & Hfl & Hnn & Hbase)].
      assert (fd <> _sockfd s) by congruence.
      split.
      * split; [exact Hthis|]. exists fl. simpl.
        rewrite lookup_insert_ne by assumption. auto.
      * intros a [= <-]. assumption.
    + split; [exact Hst|]. intros a [= <-]. exact (not_eq_sym sockfd_set).
  - simpl. split; [exact Hst|]. intros a [= <-]. exact (not_eq_sym sockfd_set).
Qed.

Lemma mode_os_close fd : fd <> _sockfd s -> keeps inv (os_close P fd) (fun _ => True).
Proof.
  intros Hfd st Hst. unfold os_close. rewrite bind_get_fds.
  destruct Hst as [Hthis (fl & Hfl & Hnn & Hbase)].
  destruct (w_fds (os st) !! fd); simpl; (split; [|auto]).
  - split; [exact Hthis|]. exists fl. simpl.
    rewrite lookup_delete_ne by assumption. auto.
  - split; [exact Hthis|]. exists fl. auto.
Qed.


Ltac mode_prim :=
  idtac;
  lazymatch goal with
  | |- keeps _ (os_call _) _ => apply mode_os_call
  | |- keeps _ (os_query _ _) _ => apply mode_os_query
  | |- keeps _ (syscall _) _ => apply mode_syscall
  | |- keeps _ valid_sockfd _ => apply (keeps_any _ _ _ mode_valid_sockfd)
  end.

Lemma mode_wait_interrupted rc : keeps inv (wait_interrupted P rc) (fun _ => True).
Proof. unfold wait_interrupted. repeat keeps_step mode_prim. Qed.

Lemma mode_epoll_round epollfd remainingTime :
  keeps inv (epoll_round P epollfd remainingTime) (fun _ => True).
Proof.
  unfold epoll_round.
  repeat first [apply mode_wait_interrupted | keeps_step mode_prim].
Qed.

Lemma mode_poll_epoll timeout mode :
  keeps inv (poll_epoll P timeout mode) (fun _ => True).
Proof.
  unfold poll_epoll.
  eapply keeps_bind; [apply mode_valid_sockfd|]. intros sockfd ->.
  eapply keeps_bind; [apply mode_os_open|]. intros epollfd Hep.
  repeat first
    [ apply (keeps_any _ _ _ (mode_os_close epollfd Hep))
    | apply mode_epoll_round
    | keeps_step mode_prim ].
Qed.

Lemma mode_pollfd_round fd mode remainingTime :
  keeps inv (pollfd_round P fd mode remainingTime) (fun _ => True).
Proof.
  unfold pollfd_round.
  repeat first [apply mode_wait_interrupted | keeps_step mode_prim].
Qed.

Lemma mode_poll_pollfd timeout mode :
  keeps inv (poll_pollfd P timeout mode) (fun _ => True).
Proof.
  unfold poll_pollfd.
  repeat first [apply mode_pollfd_round | keeps_step mode_prim].
Qed.

Lemma mode_select_round fd mode state :
  keeps inv (select_round P fd mode state) (fun _ => True).
Proof.
  unfold select_round. destruct state as [remainingTime errorCode].
  repeat keeps_step mode_prim.
Qed.

Lemma mode_poll_select timeout mode :
  keeps inv (poll_select P timeout mode) (fun _ => True).
Proof.
  unfold poll_select.
  repeat first [apply mode_select_round | keeps_step mode_prim].
Qed.

Lemma mode_poll timeout mode : keeps inv (poll P timeout mode) (fun _ => True).
Proof.
  unfold poll. destruct (poll_backend P);
    [apply mode_poll_epoll | apply mode_poll_pollfd | apply mode_poll_select].
Qed.

Lemma mode_socketError : keeps inv (socketError P) (fun _ => True).
Proof.
  unfold socketError, getOption, getRawOption.
  repeat keeps_step mode_prim.
Qed.

Lemma mode_connect_attempt address timeout :
  keeps inv (connect_attempt P address timeout) (fun _ => True).
Proof.
  unfold connect_attempt.
  repeat first [apply mode_poll | apply mode_socketError | keeps_step mode_prim].
Qed.

Lemma fcntl_GETFL_run (st : State) (fl : Z) :
  w_fds (os st) !! _sockfd (this st) = Some fl -> 0 <= fl ->
  fcntl_GETFL P st
  = (Return fl, decided (sys_fcntl_GETFL (_sockfd (this st))) fl 0 (w_fds (os st)) st).
Proof.
  intros Hfl Hnn. unfold fcntl_GETFL, os_fcntl_GETFL.
  rewrite bind_get_this, bind_assoc, bind_get_fds, Hfl.
  unfold kernel, bind.
  destruct (Z.eqb_spec fl (-1)); [lia|]. reflexivity.
Qed.

Lemma fcntl_SETFL_run (st : State) (fl arg : Z) :
  w_fds (os st) !! _sockfd (this st) = Some fl ->
  fcntl_SETFL P arg st
  = (Return 0, decided (sys_fcntl_SETFL (_sockfd (this st)) arg) 0 0
                       (<[_sockfd (this st) := arg]> (w_fds (os st))) st).
Proof.
  intros Hfl. unfold fcntl_SETFL, os_fcntl_SETFL.
  rewrite bind_get_this, bind_assoc, bind_get_fds, Hfl. reflexivity.
Qed.

Lemma land_lnot_twice (a m : Z) :
  Z.land (Z.land a (Z.lnot m)) (Z.lnot m) = Z.land a (Z.lnot m).
Proof. rewrite <- Z.land_assoc, Z.land_diag. reflexivity. Qed.

Lemma land_lor_lnot (a m : Z) :
  Z.land (Z.lor (Z.land a (Z.lnot m)) m) (Z.lnot m) = Z.land a (Z.lnot m).
Proof.
  rewrite Z.land_lor_distr_l, land_lnot_twice, Z.land_lnot_diag, Z.lor_0_r.
  reflexivity.
Qed.

Lemma land_lnot_clear (a m : Z) : Z.land a m = 0 -> Z.land a (Z.lnot m) = a.
Proof.
  intros H. apply Z.bits_inj'. intros n Hn.
  rewrite Z.land_spec, Z.lnot_spec by assumption.
  assert (Hbit : Z.testbit (Z.land a m) n = false) by (rewrite H; apply Z.bits_0).
  rewrite Z.land_spec in Hbit.
  destruct (Z.testbit a n), (Z.testbit m n); simpl in *; congruence.
Qed.

Hypothesis nonblock_nonneg : 0 <= O_NONBLOCK P.

Lemma setBlocking_run (flag : bool) (st : State) :
  inv st ->
  exists st' : State,
    setBlocking P flag st = (Return tt, st')
    /\ this st' = with_blocking flag s
    /\ w_fds (os st') !! _sockfd s
       = Some (if flag then base else Z.lor base (O_NONBLOCK P))
    /\ inv st'.
Proof.
  intros [[b Hb] (fl & Hfl & Hnn & Hbase)].
  assert (Hfd : _sockfd (this st) = _sockfd s) by (rewrite Hb; reflexivity).
  unfold setBlocking.
  rewrite <- Hfd in Hfl.
  rewrite (bind_return _ _ _ _ _ (fcntl_GETFL_run st fl Hfl Hnn)).
  rewrite Hbase.
  set (flags := if negb flag then Z.lor base (O_NONBLOCK P) else base).
  set (st1 := decided _ fl 0 _ st).
  assert (Hfl1 : w_fds (os st1) !! _sockfd (this st1) = Some fl) by exact Hfl.
  rewrite (bind_return _ _ _ _ _ (fcntl_SETFL_run st1 fl flags Hfl1)).
  eexists. split; [reflexivity|].
  assert (Hlook : w_fds (os (snd (set_blocking flag
             (decided (sys_fcntl_SETFL (_sockfd (this st1)) flags) 0 0
                      (<[_sockfd (this st1):=flags]> (w_fds (os st1))) st1))))
           !! _sockfd s = Some (if flag then base else Z.lor base (O_NONBLOCK P))).
  { simpl. rewrite Hfd. rewrite lookup_insert_eq. subst flags.
    destruct flag; reflexivity. }
  assert (Hthis : this (snd (set_blocking flag
             (decided (sys_fcntl_SETFL (_sockfd (this st1)) flags) 0 0
                      (<[_sockfd (this st1):=flags]> (w_fds (os st1))) st1)))
           = with_blocking flag s).
  { simpl. rewrite Hb. reflexivity. }
  split; [exact Hthis|]. split; [exact Hlook|].
  split; [exists flag; exact Hthis|].
  eexists. split; [exact Hlook|].
  subst base. destruct flag.
  - split; [apply Z.land_nonneg; auto | apply land_lnot_twice].
  - split; [apply Z.lor_nonneg; split; [apply Z.land_nonneg; auto | assumption]
           | apply land_lor_lnot].
Qed.

End Mode.


(** ** Which system calls a computation attempts *)

Lemma keeps_get_fds (inv : State -> Prop) : keeps inv get_fds (fun _ => True).
Proof. intros st Hst. split; [exact Hst|]. auto. Qed.

Lemma only_calls_refl (allowed : Syscall -> bool) (st : State) : only_calls allowed st st.
Proof. exists []. split; reflexivity. Qed.

Section Calls.

Variable P : Platform.
Variable allowed : Syscall -> bool.
Variable st0 : State.

Let inv : State -> Prop := only_calls allowed st0.

Lemma calls_cons (e : Syscall * option Reply) (st st1 : State) :
  allowed (fst e) = true ->
  w_trace (os st1) = e :: w_trace (os st) ->
  inv st -> inv st1.
Proof.
  intros Ha Htr (new & Hnew & Hall). exists (e :: new). split.
  - rewrite Htr, Hnew. reflexivity.
  - simpl. rewrite Ha. exact Hall.
Qed.

Lemma calls_same (st st1 : State) :
  w_trace (os st1) = w_trace (os st) -> inv st -> inv st1.
Proof.
  intros Htr (new & Hnew & Hall). exists new. split; [congruence | exact Hall].
Qed.

Lemma calls_syscall c : allowed c = true -> keeps inv (syscall c) (fun _ => True).
Proof.
  intros Ha. apply keeps_syscall.
  - intros r st. apply (calls_cons (c, Some r)); [exact Ha | reflexivity].
  - intros st. apply (calls_cons (c, None)); [exact Ha | reflexivity].
Qed.

Lemma calls_kernel c rc errno fds :
  allowed c = true -> keeps inv (kernel c rc errno fds) (fun _ => True).
Proof.
  intros Ha st Hst. split; [|auto]. simpl.
  apply (calls_cons (c, Some (mkReply rc errno 0 [] [])) st); [exact Ha | reflexivity | exact Hst].
Qed.

Lemma calls_put_fds fds : keeps inv (put_fds fds) (fun _ => True).
Proof. intros st Hst. split; [|auto]. apply (calls_same st); [reflexivity | exact Hst]. Qed.

Lemma calls_set_errno e : keeps inv (set_errno e) (fun _ => True).
Proof. intros st Hst. split; [|auto]. apply (calls_same st); [reflexivity | exact Hst]. Qed.

Lemma calls_transmit bytes : keeps inv (transmit bytes) (fun _ => True).
Proof. intros st Hst. split; [|auto]. apply (calls_same st); [reflexivity | exact Hst]. Qed.

End Calls.

Ltac calls_prim :=
  idtac;
  lazymatch goal with
  | |- keeps _ (syscall _) _ => apply calls_syscall; reflexivity
  | |- keeps _ (kernel _ _ _ _) _ => apply calls_kernel; reflexivity
  | |- keeps _ (put_fds _) _ => apply calls_put_fds
  | |- keeps _ (set_errno _) _ => apply calls_set_errno
  | |- keeps _ (transmit _) _ => apply calls_transmit
  | |- keeps _ get_fds _ => apply keeps_get_fds
  | |- keeps _ (match ?x with Some _ => _ | None => _ end) _ => destruct x
  end.

Lemma poll_calls (P : Platform) (timeout mode : Z) (st0 : State) :
  keeps (only_calls is_poll_call st0) (poll P timeout mode) (fun _ => True).
Proof.
  unfold poll, poll_epoll, poll_pollfd, poll_select, epoll_round, pollfd_round,
    select_round, wait_interrupted, valid_sockfd, os_epoll_create, os_open,
    os_close, os_call.
  destruct (poll_backend P).
  - repeat keeps_step calls_prim.
  - repeat keeps_step calls_prim.
  - repeat keeps_step calls_prim.
Qed.

(** ** receiveBytes with a timeout, when nothing becomes readable *)

(** C9. When poll does not report the descriptor readable,
    receiveBytes(buffer, flags, timeout) returns 0 with the buffer as it
    was, in exactly the state poll left: nothing but polling calls were
    attempted, so no recv.  A peer that has shut down gives the same return
    value 0 (there through a recv that returns 0). *)
Theorem receiveBytes_Buffer_not_ready (P : Platform) (buffer : list Z)
        (flags timeout : Z) (st st' : State) :
  poll P timeout SELECT_READ st = (Return false, st') ->
  receiveBytes_Buffer P buffer flags timeout st = (Return (0, buffer), st')
  /\ only_calls is_poll_call st st'
  /\ (fst (poll linux 5000 SELECT_READ shutdown_state) = Return true
      /\ fst (receiveBytes_Buffer linux [0; 0; 0; 0] 0 5000 shutdown_state) = Return (0, [])
      /\ existsb is_recv_call
                 (calls (snd (receiveBytes_Buffer linux [0; 0; 0; 0] 0 5000 shutdown_state)))
         = true).
Proof.
  intros Hpoll. split; [|split].
  - unfold receiveBytes_Buffer. rewrite (bind_return _ _ _ _ _ Hpoll). reflexivity.
  - pose proof (poll_calls P timeout SELECT_READ st st (only_calls_refl _ st)) as [H _].
    rewrite Hpoll in H. exact H.
  - vm_compute. repeat split; reflexivity.
Qed.

Lemma receiveBytes_Buffer_not_ready_witness :
  poll linux 5000 SELECT_READ silent_state
  = (Return false, snd (poll linux 5000 SELECT_READ silent_state))
  /\ receiveBytes_Buffer linux [7; 8; 9] 0 5000 silent_state
     = (Return (0, [7; 8; 9]), snd (poll linux 5000 SELECT_READ silent_state)).
Proof.
  assert (H : poll linux 5000 SELECT_READ silent_state
              = (Return false, snd (poll linux 5000 SELECT_READ silent_state)))
    by (vm_compute; reflexivity).
  split; [exact H|].
  apply (proj1 (receiveBytes_Buffer_not_ready linux [7; 8; 9] 0 5000 silent_state _ H)).
Defined.

(** ** Timeout emulation *)

Lemma checkBrokenTimeout_zero (P : Platform) (mode : Z) (st : State) :
  (if mode =? SELECT_READ then _recvTimeout (this st) else _sndTimeout (this st)) = 0 ->
  checkBrokenTimeout P mode st = (Return tt, st).
Proof.
  intros H. unfold checkBrokenTimeout. rewrite bind_get_this.
  destruct (_isBrokenTimeout (this st)); [|reflexivity].
  simpl when. unfold totalMicroseconds. rewrite H. reflexivity.
Qed.

Lemma checkBrokenTimeout_nonzero (P : Platform) (mode : Z) (st : State) :
  _isBrokenTimeout (this st) = true ->
  (if mode =? SELECT_READ then _recvTimeout (this st) else _sndTimeout (this st)) <> 0 ->
  checkBrokenTimeout P mode st
  = (let* ready := poll P (if mode =? SELECT_READ then _recvTimeout (this st)
                           else _sndTimeout (this st)) mode in
     when (negb ready) (throw (exn_code TimeoutException 0))) st.
Proof.
  intros Hb H. unfold checkBrokenTimeout. rewrite bind_get_this, Hb.
  simpl when. unfold totalMicroseconds.
  destruct (Z.eqb_spec (if mode =? SELECT_READ then _recvTimeout (this st)
                        else _sndTimeout (this st)) 0); [contradiction|].
  reflexivity.
Qed.

Lemma send_transfer_calls (P : Platform) (buffer : list Z) (flags : Z) (st0 : State) :
  keeps (only_calls is_send_call st0)
        (let* '(rc, _) := transfer_loop P valid_sockfd
                            (fun fd => sending (sys_send fd buffer flags) buffer) in
         do transfer_failed P rc then ret rc)
        (fun _ => True).
Proof.
  unfold transfer_loop, transfer_failed, transfer_interrupted, sending, os_transmit,
    valid_sockfd.
  repeat keeps_step calls_prim.
Qed.

(** The transfer part of sendBytes on a set handle in a world where the
    kernel never answers: the send is attempted and never returns. *)
Lemma send_transfer_hangs (P : Platform) (buffer : list Z) (flags : Z) (st : State) :
  _sockfd (this st) <> POCO_INVALID_SOCKET ->
  w_script (os st) = [] ->
  (let* '(rc, _) := transfer_loop P valid_sockfd
                      (fun fd => sending (sys_send fd buffer flags) buffer) in
   do transfer_failed P rc then ret rc) st
  = (Hang, blocked (sys_send (_sockfd (this st)) buffer flags) st).
Proof.
  intros Hfd Hs. apply bind_hang. unfold transfer_loop, loop. cbv beta.
  rewrite Hs. simpl iterate.
  rewrite (bind_return _ _ _ _ _ (valid_sockfd_set st Hfd)).
  unfold sending, os_transmit, syscall, bind. rewrite Hs. reflexivity.
Qed.

(** C10. Under timeout emulation, checkBrokenTimeout does nothing when the
    stored timeout of the direction is zero; sendBytes on a non-blocking
    handle, or with a zero send timeout, attempts nothing but send calls, so
    no poll; with a zero send timeout on a blocking handle, a send the kernel
    never answers blocks for ever instead of raising Timeout; with a
    non-zero send timeout on a blocking handle the poll is performed and
    Timeout is raised when it reports the descriptor not ready. *)
Theorem emulated_timeout_poll_condition (P : Platform) (buffer : list Z)
        (flags : Z) (st : State) :
  _isBrokenTimeout (this st) = true ->
  (forall mode : Z,
      (if mode =? SELECT_READ then _recvTimeout (this st) else _sndTimeout (this st)) = 0 ->
      checkBrokenTimeout P mode st = (Return tt, st))
  /\ (_blocking (this st) = false \/ _sndTimeout (this st) = 0 ->
      only_calls is_send_call st (snd (sendBytes P buffer flags st)))
  /\ (_blocking (this st) = true -> _sndTimeout (this st) = 0 ->
      _sockfd (this st) <> POCO_INVALID_SOCKET -> w_script (os st) = [] ->
      sendBytes P buffer flags st
      = (Hang, blocked (sys_send (_sockfd (this st)) buffer flags) st))
  /\ (_blocking (this st) = true -> _sndTimeout (this st) <> 0 ->
      forall st' : State,
        poll P (_sndTimeout (this st)) SELECT_WRITE st = (Return false, st') ->
        sendBytes P buffer flags st = (Throw (exn_code TimeoutException 0), st')).
Proof.
  intros Hbroken. split; [|split; [|split]].
  - intros mode. apply checkBrokenTimeout_zero.
  - intros Hskip. unfold sendBytes. rewrite bind_get_this.
    assert (Hpre : (when (_blocking (this st)) (checkBrokenTimeout P SELECT_WRITE)) st
                   = (Return tt, st)).
    { destruct Hskip as [-> | Hz]; [reflexivity|].
      destruct (_blocking (this st)); [|reflexivity].
      apply checkBrokenTimeout_zero. exact Hz. }
    rewrite (bind_return _ _ _ _ _ Hpre).
    apply (send_transfer_calls P buffer flags st st (only_calls_refl _ st)).
  - intros Hb Hz Hfd Hs. unfold sendBytes. rewrite bind_get_this, Hb. simpl when.
    rewrite (bind_return _ _ _ _ _ (checkBrokenTimeout_zero P SELECT_WRITE st Hz)).
    apply send_transfer_hangs; assumption.
  - intros Hb Hnz st' Hpoll. unfold sendBytes. rewrite bind_get_this, Hb. simpl when.
    apply bind_throw.
    rewrite (checkBrokenTimeout_nonzero P SELECT_WRITE st Hbroken Hnz). simpl.
    rewrite (bind_return _ _ _ _ _ Hpoll). reflexivity.
Qed.

Lemma emulated_timeout_poll_condition_witness :
  _isBrokenTimeout (this emulated_zero_state) = true
  /\ _blocking (this emulated_zero_state) = true
  /\ _sndTimeout (this emulated_zero_state) = 0
  /\ _sockfd (this emulated_zero_state) <> POCO_INVALID_SOCKET
  /\ w_script (os emulated_zero_state) = []
  /\ sendBytes linux_broken_timeouts [1; 2] 0 emulated_zero_state
     = (Hang, blocked (sys_send 3 [1; 2] 0) emulated_zero_state)
  /\ _isBrokenTimeout (this emulated_state) = true
  /\ _sndTimeout (this emulated_state) <> 0
  /\ sendBytes linux_broken_timeouts [1; 2] 0 emulated_state
     = (Throw (exn_code TimeoutException 0),
        snd (poll linux_broken_timeouts 5000 SELECT_WRITE emulated_state)).
Proof.
  assert (Hfd : _sockfd (this emulated_zero_state) <> POCO_INVALID_SOCKET)
    by (vm_compute; discriminate).
  assert (Hnz : _sndTimeout (this emulated_state) <> 0) by (vm_compute; discriminate).
  split; [reflexivity|]. split; [reflexivity|]. split; [reflexivity|].
  split; [exact Hfd|]. split; [reflexivity|].
  split.
  { apply (proj1 (proj2 (proj2 (emulated_timeout_poll_condition
                                  linux_broken_timeouts [1; 2] 0 emulated_zero_state eq_refl)))
             eq_refl eq_refl Hfd eq_refl). }
  split; [reflexivity|]. split; [exact Hnz|].
  apply (proj2 (proj2 (proj2 (emulated_timeout_poll_condition
                                linux_broken_timeouts [1; 2] 0 emulated_state eq_refl)))
           eq_refl Hnz).
  vm_compute. reflexivity.
Defined.

(** ** Retry on interrupt, would-block and Timeout in the transfer functions *)

Lemma translate_raises (c : ErrorCodes) (code : Z) (arg : string) :
  code <> POCO_ENOERR c -> exists e : Exception, translate c code arg = Some e.
Proof.
  intros H. unfold translate, error_arms, switch.
  destruct (Z.eqb_spec code (POCO_ENOERR c)); [contradiction|].
  repeat (match goal with
          | |- context [if ?b then _ else _] => destruct b; [eexists; reflexivity|]
          end).
  eexists; reflexivity.
Qed.

Section Transfer.

Variable P : Platform.
Variables A B : Type.
Variable call : Z -> M (Z * A).
Variable c : Z -> Syscall.
Variable a0 : A.
Variable finish : Z -> A -> B.

(** A failing reply makes [call] return its negative value at once. *)
Hypothesis call_fails :
  forall (fd : Z) (st : State) (r : Reply) (rest : list Reply),
    w_script (os st) = r :: rest -> r_rc r < 0 ->
    call fd st = (Return (r_rc r, a0), answered (c fd) r st).

(** Without a reply, [call] never returns. *)
Hypothesis call_hangs :
  forall (fd : Z) (st : State),
    w_script (os st) = [] -> call fd st = (Hang, blocked (c fd) st).

Let body : unit -> M (unit + Z * A) :=
  fun _ : unit =>
    let* fd := valid_sockfd in
    let* r := call fd in
    let* again := transfer_interrupted P (fst r) in
    ret (if again then inl tt else inr r).

Lemma transfer_body_fails (st : State) (r : Reply) (rest : list Reply) :
  _sockfd (this st) <> POCO_INVALID_SOCKET ->
  w_script (os st) = r :: rest -> r_rc r < 0 ->
  body tt st
  = (Return (if _blocking (this st) && (r_errno r =? POCO_EINTR (codes P))
             then inl tt else inr (r_rc r, a0)),
     answered (c (_sockfd (this st))) r st).
Proof.
  intros Hfd Hs Hrc. unfold body.
  rewrite (bind_return _ _ _ _ _ (valid_sockfd_set st Hfd)).
  rewrite (bind_return _ _ _ _ _ (call_fails _ st r rest Hs Hrc)).
  unfold transfer_interrupted.
  rewrite bind_assoc, bind_get_this, bind_assoc, bind_lastError, bind_ret.
  unfold ret. simpl.
  destruct (Z.ltb_spec (r_rc r) 0) as [_|]; [|lia].
  rewrite andb_true_r. reflexivity.
Qed.

Lemma transfer_loop_retries (st : State) (r : Reply) (rest : list Reply) :
  _sockfd (this st) <> POCO_INVALID_SOCKET ->
  w_script (os st) = r :: rest -> r_rc r < 0 ->
  _blocking (this st) = true -> r_errno r = POCO_EINTR (codes P) ->
  transfer_loop P valid_sockfd call st
  = transfer_loop P valid_sockfd call (answered (c (_sockfd (this st))) r st).
Proof.
  intros Hfd Hs Hrc Hb He. unfold transfer_loop, loop. fold body. cbv beta.
  rewrite Hs. simpl length.
  change (iterate (S (S (length rest))) body tt st)
    with (match body tt st with
          | (Return (inl a'), st') => iterate (S (length rest)) body a' st'
          | (Return (inr b), st') => (Return b, st')
          | (Throw e, st') => (Throw e, st')
          | (Hang, st') => (Hang, st')
          end).
  rewrite (transfer_body_fails st r rest Hfd Hs Hrc), Hb, He, Z.eqb_refl. simpl andb.
  cbv iota. simpl w_script. rewrite Hs. reflexivity.
Qed.



(** The block after the loop, for a negative [rc]. *)
Lemma transfer_failed_run (rc : Z) (st : State) :
  rc < 0 ->
  transfer_failed P rc st
  = (let err := w_errno (os st) in
     let c := codes P in
     if negb (_blocking (this st)) && ((err =? POCO_EAGAIN c) || (err =? POCO_EWOULDBLOCK c))
     then (Return tt, st)
     else if (err =? POCO_EAGAIN c) || (err =? POCO_ETIMEDOUT c)
          then (Throw (exn_code TimeoutException err), st)
          else (raised c err "", st)).
Proof.
  intros Hrc. unfold transfer_failed.
  destruct (Z.ltb_spec rc 0) as [_|]; [|lia]. simpl when.
  rewrite bind_lastError, bind_get_this. cbv zeta. unfold E.
  destruct (negb _ && _); [reflexivity|].
  destruct (_ || _); [reflexivity|].
  unfold error_code. apply error_run.
Qed.

Let T : M B :=
  let* r := transfer_loop P valid_sockfd call in
  (let '(rc, a) := r in do transfer_failed P rc then ret (finish rc a)).

Lemma answered_errno (x : Syscall) (r : Reply) (st : State) :
  r_rc r < 0 -> w_errno (os (answered x r st)) = r_errno r.
Proof.
  intros H. simpl. destruct (Z.ltb_spec (r_rc r) 0); [reflexivity | lia].
Qed.



End Transfer.

Lemma moved_negative (rc asked : Z) : rc < 0 -> moved rc asked = rc.
Proof. intros H. unfold moved. destruct (Z.ltb_spec rc 0); [reflexivity | lia]. Qed.

Lemma sending_fails (x : Syscall) (data : list Z) (st : State) (r : Reply)
      (rest : list Reply) :
  w_script (os st) = r :: rest -> r_rc r < 0 ->
  sending x data st = (Return (r_rc r, tt), answered x r st).
Proof.
  intros Hs Hrc. unfold sending, os_transmit, syscall, bind. rewrite Hs.
  rewrite (moved_negative _ _ Hrc).
  destruct (Z.leb_spec 0 (r_rc r)); [lia|]. reflexivity.
Qed.


Lemma os_receive_fails (x : Syscall) (buffer : list Z) (st : State) (r : Reply)
      (rest : list Reply) :
  w_script (os st) = r :: rest -> r_rc r < 0 ->
  os_receive x buffer st = (Return (r_rc r, buffer), answered x r st).
Proof.
  intros Hs Hrc. unfold os_receive, syscall, bind. rewrite Hs.
  rewrite (moved_negative _ _ Hrc).
  destruct (Z.leb_spec 0 (r_rc r)); [lia|]. reflexivity.
Qed.





(** ** The time budget of poll *)


Lemma syscall_answered (x : Syscall) (st : State) (r : Reply) (rest : list Reply) :
  w_script (os st) = r :: rest -> syscall x st = (Return r, answered x r st).
Proof. intros Hs. unfold syscall. rewrite Hs. reflexivity. Qed.

Lemma syscall_blocked (x : Syscall) (st : State) :
  w_script (os st) = [] -> syscall x st = (Hang, blocked x st).
Proof. intros Hs. unfold syscall. rewrite Hs. reflexivity. Qed.

Lemma os_call_answered (x : Syscall) (st : State) (r : Reply) (rest : list Reply) :
  w_script (os st) = r :: rest -> os_call x st = (Return (r_rc r), answered x r st).
Proof.
  intros Hs. unfold os_call. rewrite (bind_return _ _ _ _ _ (syscall_answered x st r rest Hs)).
  reflexivity.
Qed.

Lemma answered_script (x : Syscall) (st : State) (r : Reply) (rest : list Reply) :
  w_script (os st) = r :: rest -> w_script (os (answered x r st)) = rest.
Proof. intros Hs. simpl. rewrite Hs. reflexivity. Qed.


Lemma iterate_step {A B : Type} (n : nat) (body : A -> M (A + B)) (a : A) (st : State) :
  iterate (S n) body a st
  = match body a st with
    | (Return (inl a'), st') => iterate n body a' st'
    | (Return (inr b), st') => (Return b, st')
    | (Throw e, st') => (Throw e, st')
    | (Hang, st') => (Hang, st')
    end.
Proof. reflexivity. Qed.

Section WaitLoop.

Variable P : Platform.

(** A round of a wait loop: what it does with the next reply. *)
Variable round : Z -> M (Z + Z).
Variable wait_call : Z -> Syscall.

Hypothesis round_run :
  forall (b : Z) (st : State) (r : Reply) (rest : list Reply),
    w_script (os st) = r :: rest ->
    round b st
    = (Return (if is_interrupt (codes P) r then inl (after_interrupt b (r_time r))
               else inr (r_rc r)),
       answered (wait_call b) r st).


End WaitLoop.



(** What a run of answered calls leaves behind. *)
Lemma answered_all_app (l1 l2 : list (Syscall * Reply)) (st : State) :
  answered_all (l1 ++ l2) st = answered_all l2 (answered_all l1 st).
Proof. unfold answered_all. apply fold_left_app. Qed.

Lemma answered_all_this (l : list (Syscall * Reply)) (st : State) :
  this (answered_all l st) = this st /\ w_fds (os (answered_all l st)) = w_fds (os st).
Proof.
  revert st. induction l as [|cr l IH]; intros st; [split; reflexivity|].
  simpl. destruct (IH (answered (fst cr) (snd cr) st)) as [H1 H2].
  unfold answered_all in *. rewrite H1, H2. split; reflexivity.
Qed.

Lemma answered_all_calls (l : list (Syscall * Reply)) (st : State) :
  calls (answered_all l st) = calls st ++ map fst l.
Proof.
  revert st. induction l as [|cr l IH]; intros st.
  - simpl. symmetry. apply app_nil_r.
  - simpl. unfold answered_all in IH. rewrite IH. unfold calls. simpl.
    rewrite <- app_assoc. reflexivity.
Qed.

Lemma answered_all_clock (l : list (Syscall * Reply)) (st : State) :
  w_clock (os (answered_all l st)) = w_clock (os st) + total_time (map snd l).
Proof.
  revert st. induction l as [|cr l IH]; intros st.
  - simpl. lia.
  - simpl. unfold answered_all in IH. rewrite IH. simpl. lia.
Qed.

Lemma answered_all_script (l : list (Syscall * Reply)) (st : State) (rest : list Reply) :
  w_script (os st) = map snd l ++ rest -> w_script (os (answered_all l st)) = rest.
Proof.
  revert st. induction l as [|cr l IH]; intros st Hs; [exact Hs|].
  simpl. apply IH. simpl. rewrite Hs. reflexivity.
Qed.

Lemma answered_all_errno (l : list (Syscall * Reply)) (x : Syscall) (final : Reply)
      (st : State) :
  r_rc final < 0 ->
  w_errno (os (answered_all (l ++ [(x, final)]) st)) = r_errno final.
Proof.
  intros H. rewrite answered_all_app. simpl.
  destruct (Z.ltb_spec (r_rc final) 0); [reflexivity | lia].
Qed.

Lemma budgets_length (b : Z) (es : list Z) : length (budgets b es) = S (length es).
Proof. revert b. induction es as [|e es IH]; intros b; simpl; [|rewrite IH]; reflexivity. Qed.








Lemma lowest_free_nonneg (fds : gmap Z Z) (fd : Z) : lowest_free fds = Some fd -> 0 <= fd.
Proof.
  unfold lowest_free. intros H. apply find_some in H as [H _].
  apply in_map_iff in H as (n & <- & _). lia.
Qed.

Section PollRun.

Variable P : Platform.
Variables timeout mode : Z.
Variable st : State.
Variables (intr : list Reply) (final : Reply) (rest : list Reply).

Hypothesis sockfd_set : _sockfd (this st) <> POCO_INVALID_SOCKET.
Hypothesis interrupts : Forall (fun r => is_interrupt (codes P) r = true) intr.
Hypothesis final_reply : is_interrupt (codes P) final = false.



End PollRun.

Lemma os_open_run (P : Platform) (x : Syscall) (st : State) (r : Reply)
      (rest : list Reply) (fd : Z) :
  w_script (os st) = r :: rest -> 0 <= r_rc r ->
  lowest_free (w_fds (os st)) = Some fd ->
  os_open P x st
  = (Return fd, snd (put_fds (<[fd := 0]> (w_fds (os st))) (answered x r st))).
Proof.
  intros Hs Hrc Hfree. unfold os_open.
  rewrite (bind_return _ _ _ _ _ (syscall_answered x st r rest Hs)).
  rewrite bind_get_fds.
  change (w_fds (os (answered x r st))) with (w_fds (os st)).
  destruct (Z.leb_spec 0 (r_rc r)); [|lia]. rewrite Hfree. reflexivity.
Qed.

Lemma bind_kernel {B : Type} (x : Syscall) (rc errno : Z) (fds : gmap Z Z)
      (k : Z -> M B) (st : State) :
  bind (kernel x rc errno fds) k st = k rc (decided x rc errno fds st).
Proof. reflexivity. Qed.

Lemma calls_answered (x : Syscall) (r : Reply) (st : State) :
  calls (answered x r st) = calls st ++ [x].
Proof. reflexivity. Qed.


(** *** The arithmetic of the budget *)



Lemma to_int_small (x : Z) : 0 <= x < 2147483648 -> to_int x = x.
Proof.
  intros H. unfold to_int. rewrite Z.mod_small by lia. lia.
Qed.










(** ** File transmission *)

Lemma len_nonneg {A : Type} (l : list A) : 0 <= len l.
Proof. unfold len. lia. Qed.


Lemma len_take {A : Type} (n : Z) (l : list A) :
  0 <= n -> len (take n l) = Z.min n (len l).
Proof. intros H. unfold len, take. rewrite length_firstn. lia. Qed.

Lemma len_drop {A : Type} (n : Z) (l : list A) :
  0 <= n <= len l -> len (drop n l) = len l - n.
Proof. intros H. unfold len, drop in *. rewrite length_skipn. lia. Qed.

Lemma take_all {A : Type} (n : Z) (l : list A) : len l <= n -> take n l = l.
Proof. intros H. unfold take, len in *. apply firstn_all2. lia. Qed.

Lemma take_zero {A : Type} (l : list A) : take 0 l = [].
Proof. reflexivity. Qed.

Lemma take_add {A : Type} (a b : Z) (l : list A) :
  0 <= a -> 0 <= b -> take (a + b) l = take a l ++ take b (drop a l).
Proof.
  intros Ha Hb. unfold take, drop. rewrite Z2Nat.inj_add by assumption.
  revert l. induction (Z.to_nat a) as [|n IH]; intros l; [reflexivity|].
  destruct l as [|x l]; simpl.
  - rewrite firstn_nil. reflexivity.
  - rewrite IH. reflexivity.
Qed.

Lemma drop_add {A : Type} (a b : Z) (l : list A) :
  0 <= a -> 0 <= b -> drop (a + b) l = drop b (drop a l).
Proof.
  intros Ha Hb. unfold drop. rewrite Z2Nat.inj_add by assumption.
  rewrite Nat.add_comm. symmetry. apply skipn_skipn.
Qed.

Lemma file_bytes_add (f : FileInputStream) (offset a b : Z) :
  0 <= offset -> 0 <= a -> 0 <= b ->
  file_bytes f offset (a + b) = file_bytes f offset a ++ file_bytes f (offset + a) b.
Proof.
  intros Ho Ha Hb. unfold file_bytes.
  rewrite take_add by assumption. rewrite (drop_add offset a) by assumption.
  reflexivity.
Qed.

Lemma moved_all (rc asked : Z) : 0 <= asked <= rc -> moved rc asked = asked.
Proof. intros H. unfold moved. destruct (Z.ltb_spec rc 0); lia. Qed.

(** *** The zero-copy path *)



(** *** The chunked fallback *)

Lemma take_overwrite (buf src : list Z) :
  len src <= len buf -> take (len src) (overwrite buf src) = src.
Proof.
  intros H. unfold take, overwrite, len in *. rewrite Nat2Z.id.
  rewrite firstn_firstn. rewrite Nat.min_l by lia.
  rewrite firstn_app, Nat.sub_diag, firstn_all, firstn_O. apply app_nil_r.
Qed.

Lemma len_overwrite (buf src : list Z) : len (overwrite buf src) = len buf.
Proof.
  unfold overwrite, len. rewrite length_firstn, length_app, length_skipn. lia.
Qed.

Lemma take_len_take {A : Type} (n : Z) (l : list A) : take (len (take n l)) l = take n l.
Proof.
  unfold take, len. rewrite Nat2Z.id, length_firstn.
  destruct (Nat.le_ge_cases (Z.to_nat n) (length l)).
  - rewrite Nat.min_l by assumption. reflexivity.
  - rewrite Nat.min_r by assumption. rewrite !firstn_all2 by lia. reflexivity.
Qed.

(** A send of [data] that the kernel accepts whole, on a handle without
    timeout emulation. *)
Lemma sendBytes_accepts (P : Platform) (data : list Z) (flags : Z) (st : State)
      (r : Reply) (rest : list Reply) :
  _sockfd (this st) <> POCO_INVALID_SOCKET ->
  _isBrokenTimeout (this st) = false ->
  w_script (os st) = r :: rest ->
  len data <= r_rc r ->
  sendBytes P data flags st
  = (Return (len data),
     snd (transmit data (answered (sys_send (_sockfd (this st)) data flags) r st))).
Proof.
  intros Hfd Hbroken Hs Hrc. unfold sendBytes. rewrite bind_get_this.
  assert (Hcheck : when (_blocking (this st)) (checkBrokenTimeout P SELECT_WRITE) st
                   = (Return tt, st)).
  { destruct (_blocking (this st)); [|reflexivity]. simpl when.
    unfold checkBrokenTimeout. rewrite bind_get_this, Hbroken. reflexivity. }
  rewrite (bind_return _ _ _ _ _ Hcheck).
  pose proof (len_nonneg data) as Hnn.
  assert (Hcall : sending (sys_send (_sockfd (this st)) data flags) data st
                  = (Return (len data, tt),
                     snd (transmit data
                            (answered (sys_send (_sockfd (this st)) data flags) r st)))).
  { unfold sending, os_transmit. rewrite bind_assoc.
    rewrite (bind_return _ _ _ _ _ (syscall_answered _ st r rest Hs)).
    rewrite (moved_all (r_rc r) (len data)) by lia.
    destruct (Z.leb_spec 0 (len data)); [|lia]. simpl when.
    rewrite (take_all (len data) data) by lia. reflexivity. }
  assert (Hloop : transfer_loop P valid_sockfd
                    (fun fd => sending (sys_send fd data flags) data) st
                  = (Return (len data, tt),
                     snd (transmit data
                            (answered (sys_send (_sockfd (this st)) data flags) r st)))).
  { unfold transfer_loop, loop. cbv beta. rewrite Hs. simpl length. rewrite iterate_step.
    rewrite (bind_return _ _ _ _ _ (valid_sockfd_set st Hfd)).
    rewrite (bind_return _ _ _ _ _ Hcall).
    unfold transfer_interrupted.
    rewrite bind_assoc, bind_get_this, bind_assoc, bind_lastError, !bind_ret.
    simpl fst. destruct (Z.ltb_spec (len data) 0); [lia|].
    rewrite andb_false_r. reflexivity. }
  rewrite (bind_return _ _ _ _ _ Hloop). cbv iota.
  unfold transfer_failed.
  destruct (Z.ltb_spec (len data) 0); [lia|]. reflexivity.
Qed.

Section Blockwise.

Variable P : Platform.
Variable f0 : FileInputStream.
Variables offset count : Z.

Hypothesis offset_range : 0 <= offset <= size f0.
Hypothesis count_nonneg : 0 <= count.

Lemma len_file_bytes (o n : Z) :
  0 <= o -> 0 <= n -> o + n <= size f0 -> len (file_bytes f0 o n) = n.
Proof.
  intros Ho Hn Hsize. unfold file_bytes. rewrite len_take by assumption.
  rewrite len_drop by (unfold size in *; lia). unfold size in *. lia.
Qed.

(** The loop is left when everything deliverable was sent. *)
Lemma blockwise_leaves (v : Blockwise) (st : State) :
  blockwise_inv f0 offset count v ->
  bw_len v = deliverable f0 offset count ->
  sendFileBlockwise_round P count v st
  = (Return (inr (deliverable f0 offset count, bw_stream v)), st).
Proof.
  intros (_ & _ & Hlen & Hbs & _ & Hn & _) Hdone. unfold sendFileBlockwise_round.
  assert (Hcond : (0 <? bw_n v) && ((count =? 0) || (bw_len v <? count)) = false).
  { unfold deliverable in *.
    destruct (Z.ltb_spec 0 (bw_n v)); [|reflexivity].
    destruct (Z.eqb_spec count 0); [exfalso; lia|].
    destruct (Z.ltb_spec (bw_len v) count); [exfalso; lia | reflexivity]. }
  rewrite Hcond, Hdone. reflexivity.
Qed.

(** A round of the loop while something is left to send: the chunk in the
    buffer is sent whole and the next chunk is read. *)
Lemma blockwise_step (v : Blockwise) (st : State) (r : Reply) (rest : list Reply) :
  blockwise_inv f0 offset count v ->
  bw_len v < deliverable f0 offset count ->
  _sockfd (this st) <> POCO_INVALID_SOCKET ->
  _isBrokenTimeout (this st) = false ->
  w_script (os st) = r :: rest ->
  8192 <= r_rc r ->
  exists v' : Blockwise,
    sendFileBlockwise_round P count v st
    = (Return (inl v'),
       snd (transmit (file_bytes f0 (offset + bw_len v) (bw_n v))
                     (answered (sys_send (_sockfd (this st))
                                         (file_bytes f0 (offset + bw_len v) (bw_n v)) 0)
                               r st)))
    /\ blockwise_inv f0 offset count v'
    /\ bw_len v' = bw_len v + bw_n v
    /\ bw_n v = Z.min 8192 (deliverable f0 offset count - bw_len v).
Proof.
  intros (Hdata & Hbuf & Hlen & Hbs & Hbsval & Hn & Hok & Hpos & Htake) Hmore
         Hfd Hbroken Hs Hrc.
  specialize (Hbsval Hmore).
  set (total := deliverable f0 offset count) in *.
  set (avail := size f0 - offset) in *.
  assert (Htotal : total = if count =? 0 then avail else Z.min count avail) by reflexivity.
  assert (Hnval : bw_n v = Z.min 8192 (total - bw_len v)).
  { rewrite Hn, Hbsval, Htotal.
    destruct (Z.eqb_spec count 0); destruct (Z.ltb_spec 0 count); lia. }
  assert (Hnpos : 0 < bw_n v <= 8192) by lia.
  assert (Hfits : offset + bw_len v + bw_n v <= size f0).
  { rewrite Htotal in Hlen, Hmore, Hnval. unfold avail in *.
    destruct (Z.eqb_spec count 0); lia. }
  assert (Hchunk : len (file_bytes f0 (offset + bw_len v) (bw_n v)) = bw_n v)
    by (apply len_file_bytes; lia).
  unfold sendFileBlockwise_round.
  assert (Hcond : (0 <? bw_n v) && ((count =? 0) || (bw_len v <? count)) = true).
  { destruct (Z.ltb_spec 0 (bw_n v)); [|lia]. simpl.
    rewrite Htotal in Hmore.
    destruct (Z.eqb_spec count 0); [reflexivity|].
    destruct (Z.ltb_spec (bw_len v) count); [reflexivity | lia]. }
  rewrite Hcond. rewrite (to_int_small (bw_n v)) by lia. rewrite Htake.
  assert (Hacc : len (file_bytes f0 (offset + bw_len v) (bw_n v)) <= r_rc r) by lia.
  rewrite (bind_return _ _ _ _ _
             (sendBytes_accepts P _ 0 st r rest Hfd Hbroken Hs Hacc)).
  set (st1 := snd (transmit _ _)).
  set (len' := bw_len v + bw_n v).
  set (bs' := if (0 <? count) && (len' <? count)
              then (if count - len' <? bw_bufferSize v then count - len'
                    else bw_bufferSize v)
              else bw_bufferSize v).
  assert (Hlen' : 0 <= len' <= total) by (unfold len'; lia).
  assert (Hbs' : 0 < bs' <= 8192).
  { unfold bs'. destruct (Z.ltb_spec 0 count); destruct (Z.ltb_spec len' count);
      simpl; try lia.
    destruct (Z.ltb_spec (count - len') (bw_bufferSize v)); lia. }
  assert (Hbsval' : len' < total ->
                    bs' = if 0 <? count then Z.min 8192 (count - len') else 8192).
  { intros Hm. unfold bs'. rewrite Htotal in Hm.
    destruct (Z.ltb_spec 0 count); destruct (Z.ltb_spec len' count); simpl;
      destruct (Z.eqb_spec count 0); try lia.
    destruct (Z.ltb_spec (count - len') (bw_bufferSize v)); unfold len' in *; lia. }
  destruct (fis_ok (bw_stream v)) eqn:Hgood.
  - (* the last read was not cut short: the next chunk is read *)
    symmetry in Hok. apply Z.eqb_eq in Hok.
    specialize (Hpos eq_refl).
    replace (offset + bw_len v + bw_n v) with (offset + len') in Hpos
      by (unfold len'; lia).
    unfold read. rewrite Hgood, Hdata, Hpos.
    rewrite (Z.max_r 0 bs') by lia.
    set (chunk' := take bs' (drop (offset + len') (fis_data f0))).
    assert (Hc' : len chunk' = Z.min bs' (avail - len')).
    { unfold chunk'. rewrite len_take by lia.
      rewrite len_drop by (unfold size, len' in *; lia).
      unfold avail, size. lia. }
    eexists. split; [reflexivity|]. split; [|split; [reflexivity | exact Hnval]].
    unfold blockwise_inv. cbn [bw_stream bw_buffer bw_bufferSize bw_len bw_n
                               fis_data fis_ok fis_pos gcount fis_gcount].
    fold total avail.
    split; [reflexivity|]. split; [rewrite len_overwrite; exact Hbuf|].
    split; [exact Hlen'|]. split; [exact Hbs'|]. split; [exact Hbsval'|].
    split; [exact Hc'|].
    split; [reflexivity|].
    split; [intros _; reflexivity|].
    fold chunk'. rewrite take_overwrite by lia.
    unfold file_bytes, chunk'. symmetry. apply take_len_take.
  - (* the last read hit the end of the file: nothing more is read *)
    symmetry in Hok. apply Z.eqb_neq in Hok.
    assert (Hend : len' = avail /\ len' = total).
    { unfold len'. rewrite Htotal in *. destruct (Z.eqb_spec count 0); lia. }
    eexists. split; [reflexivity|]. split; [|split; [reflexivity | exact Hnval]].
    unfold blockwise_inv. cbn [bw_stream bw_buffer bw_bufferSize bw_len bw_n].
    fold total avail.
    split; [exact Hdata|]. split; [exact Hbuf|].
    split; [exact Hlen'|]. split; [exact Hbs'|]. split; [exact Hbsval'|].
    split; [lia|].
    split; [rewrite Hgood; symmetry; apply Z.eqb_neq; lia|].
    split; [intros Habs; rewrite Hgood in Habs; discriminate|].
    reflexivity.
Qed.

Lemma sendFileBlockwise_rounds (script : list Reply) :
  Forall (fun r => 8192 <= r_rc r) script ->
  forall (fuel : nat) (v : Blockwise) (st : State),
    w_script (os st) = script ->
    (length script < fuel)%nat ->
    _sockfd (this st) <> POCO_INVALID_SOCKET ->
    _isBrokenTimeout (this st) = false ->
    blockwise_inv f0 offset count v ->
    deliverable f0 offset count - bw_len v <= 8192 * len script ->
    exists (f' : FileInputStream) (st' : State),
      iterate fuel (sendFileBlockwise_round P count) v st
      = (Return (deliverable f0 offset count, f'), st')
      /\ w_wire (os st')
         = w_wire (os st)
             ++ file_bytes f0 (offset + bw_len v) (deliverable f0 offset count - bw_len v)
      /\ this st' = this st.
Proof.
  intros Hgood. induction Hgood as [|r script Hr _ IH];
    intros fuel v st Hs Hfuel Hfd Hbroken Hinv Hleft;
    (destruct fuel as [|fuel]; [simpl in Hfuel; lia|]);
    pose proof Hinv as (_ & _ & Hlen & _);
    destruct (Z.eq_dec (bw_len v) (deliverable f0 offset count)) as [Hdone | Hmore].
  - rewrite iterate_step, (blockwise_leaves v st Hinv Hdone).
    exists (bw_stream v), st. split; [reflexivity|]. split; [|reflexivity].
    rewrite Hdone, Z.sub_diag. unfold file_bytes. rewrite take_zero.
    symmetry. apply app_nil_r.
  - unfold len in Hleft. simpl in Hleft. lia.
  - rewrite iterate_step, (blockwise_leaves v st Hinv Hdone).
    exists (bw_stream v), st. split; [reflexivity|]. split; [|reflexivity].
    rewrite Hdone, Z.sub_diag. unfold file_bytes. rewrite take_zero.
    symmetry. apply app_nil_r.
  - destruct (blockwise_step v st r script Hinv ltac:(lia) Hfd Hbroken Hs Hr)
      as (v' & Hround & Hinv' & Hlen' & Hn).
    rewrite iterate_step, Hround.
    set (st1 := snd (transmit _ _)) in *.
    destruct (IH fuel v' st1) as (f' & st' & Hrun & Hwire & Hthis).
    + unfold st1. simpl. rewrite Hs. reflexivity.
    + simpl in Hfuel. lia.
    + exact Hfd.
    + exact Hbroken.
    + exact Hinv'.
    + unfold len in *. simpl length in Hleft. lia.
    + exists f', st'. split; [exact Hrun|]. split; [|rewrite Hthis; reflexivity].
      rewrite Hwire. unfold st1. simpl w_wire. rewrite <- app_assoc. f_equal.
      rewrite Hlen'.
      replace (offset + (bw_len v + bw_n v)) with (offset + bw_len v + bw_n v) by lia.
      rewrite <- file_bytes_add by lia. f_equal. lia.
Qed.

End Blockwise.

Lemma seekg_ok (f : FileInputStream) (offset : Z) :
  fis_ok f = true -> 0 <= offset ->
  seekg f offset
  = mkFileInputStream (fis_handle f) (fis_data f) offset true (fis_gcount f).
Proof.
  intros Hok Ho. unfold seekg. rewrite Hok.
  destruct (Z.leb_spec 0 offset); [reflexivity | lia].
Qed.

Lemma read_ok (f : FileInputStream) (n : Z) :
  fis_ok f = true -> 0 <= n ->
  read f n
  = (take n (drop (fis_pos f) (fis_data f)),
     mkFileInputStream (fis_handle f) (fis_data f)
                       (fis_pos f + len (take n (drop (fis_pos f) (fis_data f))))
                       (len (take n (drop (fis_pos f) (fis_data f))) =? n)
                       (len (take n (drop (fis_pos f) (fis_data f))))).
Proof.
  intros Hok Hn. unfold read. rewrite Hok, (Z.max_r 0 n) by lia. reflexivity.
Qed.

Lemma sendFileBlockwise_run (P : Platform) (f : FileInputStream) (offset count : Z)
      (st : State) :
  fis_ok f = true -> 0 <= offset <= size f -> 0 <= count ->
  _sockfd (this st) <> POCO_INVALID_SOCKET ->
  _isBrokenTimeout (this st) = false ->
  Forall (fun r => 8192 <= r_rc r) (w_script (os st)) ->
  deliverable f offset count <= 8192 * len (w_script (os st)) ->
  exists (f' : FileInputStream) (st' : State),
    sendFileBlockwise P f offset count st
    = (Return (deliverable f offset count, f'), st')
    /\ w_wire (os st') = w_wire (os st) ++ file_bytes f offset (deliverable f offset count)
    /\ this st' = this st.
Proof.
  intros Hok Ho Hc Hfd Hbroken Hgood Hleft.
  unfold sendFileBlockwise. rewrite (seekg_ok f offset Hok (proj1 Ho)).
  assert (Hbuf : len (repeat 0 (Z.to_nat 8192)) = 8192).
  { unfold len. rewrite repeat_length. apply Z2Nat.id. lia. }
  cbv zeta. rewrite Hbuf.
  set (bs := if (0 <? count) && (count <? 8192) then count else 8192).
  assert (Hbs : 0 < bs <= 8192 /\ bs = if 0 <? count then Z.min 8192 count else 8192).
  { unfold bs. destruct (Z.ltb_spec 0 count); destruct (Z.ltb_spec count 8192);
      simpl; lia. }
  rewrite read_ok by (try reflexivity; lia).
  cbn [fis_ok fis_pos fis_data fis_handle].
  set (chunk := take bs (drop offset (fis_data f))).
  assert (Hchunk : len chunk = Z.min bs (size f - offset)).
  { unfold chunk. rewrite len_take by lia. rewrite len_drop by (unfold size in *; lia).
    reflexivity. }
  assert (Htotal : 0 <= deliverable f offset count).
  { unfold deliverable. destruct (Z.eqb_spec count 0); lia. }
  unfold loop.
  match goal with |- context [iterate _ _ ?v _] => set (v0 := v) end.
  assert (Hinv : blockwise_inv f offset count v0).
  { unfold blockwise_inv, v0.
    cbn [bw_stream bw_buffer bw_bufferSize bw_len bw_n fis_data fis_ok fis_pos gcount
                   fis_gcount].
    split; [reflexivity|]. split; [rewrite len_overwrite; exact Hbuf|].
    split; [lia|]. split; [lia|].
    split; [intros _; rewrite Z.sub_0_r; apply Hbs|].
    split; [rewrite Z.sub_0_r; exact Hchunk|].
    split; [reflexivity|].
    split; [intros _; lia|].
    rewrite take_overwrite by lia.
    unfold file_bytes, chunk. rewrite Z.add_0_r. symmetry. apply take_len_take. }
  assert (Hleft0 : deliverable f offset count - bw_len v0 <= 8192 * len (w_script (os st)))
    by (unfold v0; cbn [bw_len]; lia).
  destruct (sendFileBlockwise_rounds P f offset count Ho Hc (w_script (os st)) Hgood
              (S (length (w_script (os st)))) v0 st eq_refl ltac:(lia) Hfd Hbroken
              Hinv Hleft0)
    as (f' & st' & Hrun & Hwire & Hthis).
  exists f', st'. split; [exact Hrun|]. split; [|exact Hthis].
  rewrite Hwire. unfold v0. cbn [bw_len]. rewrite Z.add_0_r, Z.sub_0_r. reflexivity.
Qed.


(** ** connect with a timeout: the mode on exit *)

Lemma with_blocking_same (s : SocketImpl) : with_blocking (_blocking s) s = s.
Proof. destruct s; reflexivity. Qed.

(** connect(address, timeout) on a handle whose descriptor is open. *)
Lemma connect_timeout_open (P : Platform) (address : SocketAddress)
        (timeout fl : Z) (st st' : State) (o : Outcome unit) :
  0 <= O_NONBLOCK P ->
  _sockfd (this st) <> POCO_INVALID_SOCKET ->
  w_fds (os st) !! _sockfd (this st) = Some fl ->
  0 <= fl ->
  connect_timeout P address timeout st = (o, st') ->
  o <> Hang ->
  this st' = with_blocking true (this st)
  /\ w_fds (os st') !! _sockfd (this st) = Some (Z.land fl (Z.lnot (O_NONBLOCK P)))
  /\ (_blocking (this st) = true -> Z.land fl (O_NONBLOCK P) = 0 ->
      this st' = this st /\ w_fds (os st') !! _sockfd (this st) = Some fl).
Proof.
  intros Hnb Hset Hfl Hnn Hrun Ho.
  set (s := this st) in *.
  set (base := Z.land fl (Z.lnot (O_NONBLOCK P))) in *.
  assert (Hinv : same_but_mode P s base st).
  { split; [exists (_blocking s); symmetry; apply with_blocking_same|].
    exists fl. auto. }
  assert (Hgoal : this st' = with_blocking true s
                  /\ w_fds (os st') !! _sockfd s = Some base).
  { unfold connect_timeout in Hrun. rewrite bind_get_this in Hrun.
    fold s in Hrun.
    destruct (Z.eqb_spec (_sockfd s) POCO_INVALID_SOCKET) as [|_]; [contradiction|].
    simpl when in Hrun. rewrite bind_ret in Hrun.
    destruct (setBlocking_run P s base Hnb false st Hinv)
      as (st1 & Hsb & _ & _ & Hinv1).
    rewrite (bind_return _ _ _ _ _ Hsb) in Hrun.
    pose proof (mode_connect_attempt P s base Hset address timeout st1 Hinv1)
      as [Hinv2 _].
    unfold bind, try_catch in Hrun.
    destruct (connect_attempt P address timeout st1) as [[[]|e|] st2];
      simpl in Hinv2.
    - destruct (setBlocking_run P s base Hnb true st2 Hinv2)
        as (st3 & Hsb3 & Hthis3 & Hfds3 & _).
      rewrite Hsb3 in Hrun. inversion Hrun; subst. auto.
    - destruct (setBlocking_run P s base Hnb true st2 Hinv2)
        as (st3 & Hsb3 & Hthis3 & Hfds3 & _).
      rewrite Hsb3 in Hrun. simpl in Hrun. inversion Hrun; subst. auto.
    - inversion Hrun; subst. contradiction. }
  destruct Hgoal as [Hthis Hfds].
  split; [exact Hthis|]. split; [exact Hfds|].
  intros Hb Hclear. split.
  - rewrite Hthis, <- Hb. apply with_blocking_same.
  - rewrite Hfds. subst base. rewrite (land_lnot_clear _ _ Hclear). reflexivity.
Qed.

(** connect(address, timeout) on an unset handle starts by creating the
    socket. *)
Lemma connect_timeout_creates (P : Platform) (address : SocketAddress) (timeout : Z)
      (st : State) (r : Reply) (rest : list Reply) (fd : Z) :
  _sockfd (this st) = POCO_INVALID_SOCKET ->
  w_script (os st) = r :: rest -> 0 <= r_rc r ->
  lowest_free (w_fds (os st)) = Some fd ->
  exists st1 : State,
    connect_timeout P address timeout st = connect_timeout P address timeout st1
    /\ _sockfd (this st1) = fd
    /\ w_fds (os st1) !! fd = Some 0.
Proof.
  intros Hunset Hs Hrc Hfree.
  pose proof (lowest_free_nonneg _ _ Hfree) as Hnn.
  set (st1 := snd (set_sockfd fd
                     (snd (put_fds (<[fd := 0]> (w_fds (os st)))
                                   (answered (sys_socket (sa_af address)) r st))))).
  exists st1. split; [|split; [reflexivity | apply lookup_insert_eq]].
  assert (Hinit : init P (sa_af address) st = (Return tt, st1)).
  { unfold init, initSocket. rewrite bind_get_this, Hunset. simpl poco_assert.
    rewrite bind_ret. unfold os_socket.
    rewrite (bind_return _ _ _ _ _ (os_open_run P _ st r rest fd Hs Hrc Hfree)).
    unfold bind, set_sockfd. cbv beta iota.
    unfold POCO_INVALID_SOCKET. destruct (Z.eqb_spec fd (-1)); [lia|]. reflexivity. }
  unfold connect_timeout. rewrite !bind_get_this, Hunset. simpl when.
  rewrite (bind_return _ _ _ _ _ Hinit).
  change (_sockfd (this st1)) with fd.
  unfold POCO_INVALID_SOCKET. destruct (Z.eqb_spec fd (-1)); [lia|]. reflexivity.
Qed.

(** connect(address, timeout) on an unset handle when socket() fails. *)
Lemma connect_timeout_no_socket (P : Platform) (address : SocketAddress) (timeout : Z)
      (st : State) (r : Reply) (rest : list Reply) :
  _sockfd (this st) = POCO_INVALID_SOCKET ->
  w_script (os st) = r :: rest -> r_rc r < 0 ->
  r_errno r <> POCO_ENOERR (codes P) ->
  exists (e : Exception) (st1 : State),
    translate (codes P) (r_errno r) "" = Some e
    /\ connect_timeout P address timeout st = (Throw e, st1)
    /\ this st1 = this st /\ w_fds (os st1) = w_fds (os st)
    /\ calls st1 = calls st ++ [sys_socket (sa_af address)].
Proof.
  intros Hunset Hs Hrc Herr.
  destruct (translate_raises (codes P) (r_errno r) "" Herr) as (e & He).
  set (st1 := snd (set_sockfd (-1) (answered (sys_socket (sa_af address)) r st))).
  exists e, st1. split; [exact He|]. split; [|split; [|split; reflexivity]].
  - unfold connect_timeout. rewrite bind_get_this, Hunset. simpl when.
    apply bind_throw. unfold init, initSocket. rewrite bind_get_this, Hunset.
    simpl poco_assert. rewrite bind_ret. unfold os_socket, os_open.
    rewrite !bind_assoc.
    rewrite (bind_return _ _ _ _ _ (syscall_answered _ st r rest Hs)).
    rewrite bind_assoc, bind_get_fds.
    destruct (Z.leb_spec 0 (r_rc r)); [lia|]. rewrite bind_ret.
    unfold bind at 1. unfold set_sockfd at 1. cbv beta iota. fold st1.
    simpl when. unfold error_last. rewrite bind_lastError.
    assert (Herrno : w_errno (os st1) = r_errno r)
      by exact (answered_errno (sys_socket (sa_af address)) r st Hrc).
    change (error P (w_errno (os st1)) "" st1 = (Throw e, st1)).
    rewrite Herrno, error_run.
    unfold raised. rewrite He. reflexivity.
  - unfold st1. simpl. destruct (this st) as [fd b br rt stt sec]. simpl in *.
    rewrite Hunset. reflexivity.
Qed.

(** C1 (as amended). connect(address, timeout) leaves the handle in
    blocking mode on every exit path after its switch to non-blocking, a
    return as well as a throw.  For a handle whose descriptor is open the
    cached flag is true afterwards, the descriptor's O_NONBLOCK flag is
    cleared, its other status flags are as before and nothing else of the
    handle changes, so the pre-call mode is restored when it was blocking.
    For an unset handle whose socket is created by the call the new
    descriptor ends blocking as well; when socket() fails with an errno
    other than the no-error code the call throws what error() makes of that
    errno, socket() being the only call attempted, and the handle and the
    descriptor table are as before. *)
Theorem connect_timeout_leaves_blocking (P : Platform) (address : SocketAddress)
        (timeout : Z) (st st' : State) (o : Outcome unit) :
  0 <= O_NONBLOCK P ->
  connect_timeout P address timeout st = (o, st') ->
  o <> Hang ->
  (forall fl : Z,
      _sockfd (this st) <> POCO_INVALID_SOCKET ->
      w_fds (os st) !! _sockfd (this st) = Some fl ->
      0 <= fl ->
      this st' = with_blocking true (this st)
      /\ w_fds (os st') !! _sockfd (this st) = Some (Z.land fl (Z.lnot (O_NONBLOCK P)))
      /\ (_blocking (this st) = true -> Z.land fl (O_NONBLOCK P) = 0 ->
          this st' = this st /\ w_fds (os st') !! _sockfd (this st) = Some fl))
  /\ (forall (r : Reply) (rest : list Reply) (fd : Z),
         _sockfd (this st) = POCO_INVALID_SOCKET ->
         w_script (os st) = r :: rest -> 0 <= r_rc r ->
         lowest_free (w_fds (os st)) = Some fd ->
         _sockfd (this st') = fd
         /\ _blocking (this st') = true
         /\ w_fds (os st') !! fd = Some 0)
  /\ (forall (r : Reply) (rest : list Reply),
         _sockfd (this st) = POCO_INVALID_SOCKET ->
         w_script (os st) = r :: rest -> r_rc r < 0 ->
         r_errno r <> POCO_ENOERR (codes P) ->
         exists e : Exception,
           translate (codes P) (r_errno r) "" = Some e
           /\ o = Throw e
           /\ this st' = this st /\ w_fds (os st') = w_fds (os st)
           /\ calls st' = calls st ++ [sys_socket (sa_af address)]).
Proof.
  intros Hnb Hrun Ho. split; [|split].
  - intros fl Hset Hfl Hnn.
    apply (connect_timeout_open P address timeout fl st st' o); assumption.
  - intros r rest fd Hunset Hs Hrc Hfree.
    destruct (connect_timeout_creates P address timeout st r rest fd Hunset Hs Hrc Hfree)
      as (st1 & Heq & Hfd & Hfds).
    rewrite Heq in Hrun.
    pose proof (lowest_free_nonneg _ _ Hfree) as Hpos.
    destruct (connect_timeout_open P address timeout 0 st1 st' o Hnb) as (Hthis & Hfl & _).
    + rewrite Hfd. unfold POCO_INVALID_SOCKET. lia.
    + rewrite Hfd. exact Hfds.
    + lia.
    + exact Hrun.
    + exact Ho.
    + rewrite Hthis. rewrite Hfd in Hfl. rewrite Z.land_0_l in Hfl.
      split; [exact Hfd|]. split; [reflexivity | exact Hfl].
  - intros r rest Hunset Hs Hrc Herr.
    destruct (connect_timeout_no_socket P address timeout st r rest Hunset Hs Hrc Herr)
      as (e & st1 & He & Heq & Hthis & Hfds & Hcalls).
    rewrite Heq in Hrun. inversion Hrun; subst.
    exists e. repeat split; assumption.
Qed.

Lemma connect_timeout_leaves_blocking_witness :
  0 <= O_NONBLOCK linux
  /\ _sockfd (this refused_state) <> POCO_INVALID_SOCKET
  /\ w_fds (os refused_state) !! _sockfd (this refused_state) = Some 2
  /\ 0 <= 2
  /\ fst (connect_timeout linux peer 1000 refused_state)
     = Throw (exn_code ConnectionRefusedException 111)
  /\ this (snd (connect_timeout linux peer 1000 refused_state))
     = with_blocking true (this refused_state)
  /\ w_fds (os (snd (connect_timeout linux peer 1000 refused_state)))
       !! _sockfd (this refused_state) = Some 2
  /\ _sockfd (this no_socket_state) = POCO_INVALID_SOCKET
  /\ w_script (os no_socket_state) = [failed 24 0]
  /\ fst (connect_timeout linux peer 1000 no_socket_state)
     = Throw (exn_msg IOException "Too many open files" 24)
  /\ this (snd (connect_timeout linux peer 1000 no_socket_state)) = this no_socket_state
  /\ calls (snd (connect_timeout linux peer 1000 no_socket_state)) = [sys_socket 2].
Proof.
  assert (H1 : 0 <= O_NONBLOCK linux) by (vm_compute; discriminate).
  assert (H2 : _sockfd (this refused_state) <> POCO_INVALID_SOCKET)
    by (vm_compute; discriminate).
  assert (H3 : w_fds (os refused_state) !! _sockfd (this refused_state) = Some 2)
    by reflexivity.
  assert (H4 : 0 <= 2) by lia.
  assert (H5 : fst (connect_timeout linux peer 1000 refused_state)
               = Throw (exn_code ConnectionRefusedException 111))
    by (vm_compute; reflexivity).
  assert (H6 : connect_timeout linux peer 1000 refused_state
               = (fst (connect_timeout linux peer 1000 refused_state),
                  snd (connect_timeout linux peer 1000 refused_state)))
    by (destruct (connect_timeout linux peer 1000 refused_state); reflexivity).
  assert (H7 : fst (connect_timeout linux peer 1000 refused_state) <> Hang)
    by (rewrite H5; discriminate).
  destruct (proj1 (connect_timeout_leaves_blocking linux peer 1000 refused_state
                     _ _ H1 H6 H7) 2 H2 H3 H4)
    as (Ha & Hb & _).
  assert (H8 : connect_timeout linux peer 1000 no_socket_state
               = (fst (connect_timeout linux peer 1000 no_socket_state),
                  snd (connect_timeout linux peer 1000 no_socket_state)))
    by (destruct (connect_timeout linux peer 1000 no_socket_state); reflexivity).
  assert (H9 : fst (connect_timeout linux peer 1000 no_socket_state) <> Hang)
    by (vm_compute; discriminate).
  assert (H10 : r_errno (failed 24 0) <> POCO_ENOERR (codes linux))
    by (vm_compute; discriminate).
  destruct (proj2 (proj2 (connect_timeout_leaves_blocking linux peer 1000 no_socket_state
                            _ _ H1 H8 H9))
                  (failed 24 0) [] eq_refl eq_refl ltac:(reflexivity) H10)
    as (e & He & Hthrow & Hthis & _ & Hcalls).
  assert (Htr : translate (codes linux) (r_errno (failed 24 0)) ""
                = Some (exn_msg IOException "Too many open files" 24)) by reflexivity.
  rewrite Htr in He. injection He as <-.
  split; [exact H1|]. split; [exact H2|]. split; [exact H3|]. split; [exact H4|].
  split; [exact H5|]. split; [exact Ha|]. split; [exact Hb|].
  split; [reflexivity|]. split; [reflexivity|].
  split; [exact Hthrow|]. split; [exact Hthis|]. exact Hcalls.
Defined.

(** C1 as stated fails for a handle that was non-blocking before the call:
    after an immediately successful connect the cached flag is true and
    O_NONBLOCK (2048) is cleared. *)
Lemma connect_timeout_counterexample :
  _blocking (this nonblocking_state) = false
  /\ w_fds (os nonblocking_state) !! 3 = Some 2048
  /\ fst (connect_timeout linux peer 1000 nonblocking_state) = Return tt
  /\ _blocking (this (snd (connect_timeout linux peer 1000 nonblocking_state))) = true
  /\ w_fds (os (snd (connect_timeout linux peer 1000 nonblocking_state))) !! 3 = Some 0.
Proof. vm_compute. repeat split; reflexivity. Qed.

(** * Further properties of the code *)

(** ** What the error translator throws *)

Lemma translate_class (c : ErrorCodes) (code : Z) (arg : string) (e : Exception) :
  translate c code arg = Some e -> In (ex_kind e) translator_classes.
Proof.
  unfold translate, error_arms, switch, translator_classes.
  destruct (code =? POCO_ENOERR c); [discriminate|].
  repeat (match goal with
          | |- context [if ?b then _ else _] =>
              destruct b; [intros [= <-]; simpl; tauto|]
          end).
  intros [= <-]. simpl. tauto.
Qed.

(** X1. Every exception error(code, arg) throws carries [code] as its code
    and is of one of seven classes (never InvalidSocketException); its
    context argument is [arg] or empty; and error returns for the no-error
    code only. *)
Theorem error_exception_carries_code (c : ErrorCodes) (code : Z) (arg : string) :
  match translate c code arg with
  | None => code = POCO_ENOERR c
  | Some e =>
      ex_code e = code
      /\ (ex_arg e = arg \/ ex_arg e = "")
      /\ In (ex_kind e) translator_classes
  end.
Proof.
  unfold translate, error_arms, switch, translator_classes.
  destruct (Z.eqb_spec code (POCO_ENOERR c)); [assumption|].
  repeat (match goal with
          | |- context [if ?b then _ else _] =>
              destruct b; [simpl; split; [reflexivity|]; split; [auto|]; tauto|]
          end).
  simpl. split; [reflexivity|]. split; [auto|]. tauto.
Qed.

(** ** The blocking mode *)

Lemma mode_flags_mode_bit (P : Platform) (flag : bool) (fl : Z) :
  Z.land (mode_flags P flag fl) (O_NONBLOCK P) = if flag then 0 else O_NONBLOCK P.
Proof.
  assert (H : Z.land (Z.land fl (Z.lnot (O_NONBLOCK P))) (O_NONBLOCK P) = 0).
  { rewrite <- Z.land_assoc, (Z.land_comm (Z.lnot _)), Z.land_lnot_diag.
    apply Z.land_0_r. }
  unfold mode_flags. destruct flag; [exact H|].
  rewrite Z.land_lor_distr_l, H, Z.land_diag. reflexivity.
Qed.

Lemma mode_flags_other_bits (P : Platform) (flag : bool) (fl : Z) :
  Z.land (mode_flags P flag fl) (Z.lnot (O_NONBLOCK P))
  = Z.land fl (Z.lnot (O_NONBLOCK P)).
Proof.
  unfold mode_flags. destruct flag; [apply land_lnot_twice | apply land_lor_lnot].
Qed.

Lemma mode_flags_nonneg (P : Platform) (flag : bool) (fl : Z) :
  0 <= O_NONBLOCK P -> 0 <= fl -> 0 <= mode_flags P flag fl.
Proof.
  intros Hnb Hfl. unfold mode_flags.
  assert (0 <= Z.land fl (Z.lnot (O_NONBLOCK P))) by (apply Z.land_nonneg; auto).
  destruct flag; [assumption|]. apply Z.lor_nonneg. auto.
Qed.

Lemma mode_flags_again (P : Platform) (a b : bool) (fl : Z) :
  mode_flags P b (mode_flags P a fl) = mode_flags P b fl.
Proof.
  unfold mode_flags at 1 3. cbv zeta. rewrite mode_flags_other_bits. reflexivity.
Qed.

(** setBlocking(flag) on a descriptor that is open with status flags [fl]. *)
Lemma setBlocking_open (P : Platform) (flag : bool) (st : State) (fl : Z) :
  w_fds (os st) !! _sockfd (this st) = Some fl -> 0 <= fl ->
  exists st' : State,
    setBlocking P flag st = (Return tt, st')
    /\ this st' = with_blocking flag (this st)
    /\ w_fds (os st') = <[_sockfd (this st) := mode_flags P flag fl]> (w_fds (os st))
    /\ calls st' = calls st ++ [sys_fcntl_GETFL (_sockfd (this st));
                                sys_fcntl_SETFL (_sockfd (this st)) (mode_flags P flag fl)]
    /\ w_script (os st') = w_script (os st)
    /\ w_wire (os st') = w_wire (os st).
Proof.
  intros Hfl Hnn. unfold setBlocking.
  rewrite (bind_return _ _ _ _ _ (fcntl_GETFL_run P st fl Hfl Hnn)).
  set (st1 := decided _ fl 0 _ st).
  assert (Hfl1 : w_fds (os st1) !! _sockfd (this st1) = Some fl) by exact Hfl.
  set (flags := if negb flag then _ else _).
  assert (Hflags : flags = mode_flags P flag fl)
    by (unfold flags, mode_flags; destruct flag; reflexivity).
  rewrite (bind_return _ _ _ _ _ (fcntl_SETFL_run P st1 fl flags Hfl1)).
  eexists. split; [reflexivity|]. rewrite Hflags.
  split; [reflexivity|]. split; [reflexivity|].
  split; [|split; reflexivity].
  unfold calls. simpl. rewrite <- app_assoc. reflexivity.
Qed.

(** X2. On a descriptor that is open with non-negative status flags,
    setBlocking(flag) returns without consuming a reply of the network; it
    attempts F_GETFL and then F_SETFL on the handle's descriptor; afterwards
    getBlocking() gives [flag], the O_NONBLOCK bits of the descriptor are set
    exactly when [flag] is false, its other status flags and every other
    descriptor are as before; and a further setBlocking(flag') leaves the
    handle and the table as setBlocking(flag') alone would: the last call
    wins. *)
Theorem setBlocking_sets_mode (P : Platform) (flag : bool) (st : State) (fl : Z) :
  0 <= O_NONBLOCK P ->
  w_fds (os st) !! _sockfd (this st) = Some fl -> 0 <= fl ->
  exists st' : State,
    setBlocking P flag st = (Return tt, st')
    /\ this st' = with_blocking flag (this st)
    /\ getBlocking st' = (Return flag, st')
    /\ w_fds (os st') = <[_sockfd (this st) := mode_flags P flag fl]> (w_fds (os st))
    /\ Z.land (mode_flags P flag fl) (O_NONBLOCK P) = (if flag then 0 else O_NONBLOCK P)
    /\ Z.land (mode_flags P flag fl) (Z.lnot (O_NONBLOCK P))
       = Z.land fl (Z.lnot (O_NONBLOCK P))
    /\ calls st' = calls st ++ [sys_fcntl_GETFL (_sockfd (this st));
                                sys_fcntl_SETFL (_sockfd (this st)) (mode_flags P flag fl)]
    /\ w_script (os st') = w_script (os st)
    /\ (forall flag' : bool,
           exists st'' : State,
             setBlocking P flag' st' = (Return tt, st'')
             /\ this st'' = with_blocking flag' (this st)
             /\ w_fds (os st'')
                = <[_sockfd (this st) := mode_flags P flag' fl]> (w_fds (os st))).
Proof.
  intros Hnb Hfl Hnn.
  destruct (setBlocking_open P flag st fl Hfl Hnn)
    as (st' & Hrun & Hthis & Hfds & Hcalls & Hscript & _).
  exists st'. split; [exact Hrun|]. split; [exact Hthis|].
  split.
  { unfold getBlocking. rewrite bind_get_this, Hthis. reflexivity. }
  split; [exact Hfds|].
  split; [apply mode_flags_mode_bit|]. split; [apply mode_flags_other_bits|].
  split; [exact Hcalls|]. split; [exact Hscript|].
  intros flag'.
  assert (Hfd : _sockfd (this st') = _sockfd (this st)) by (rewrite Hthis; reflexivity).
  assert (Hfl' : w_fds (os st') !! _sockfd (this st') = Some (mode_flags P flag fl)).
  { rewrite Hfd, Hfds. apply lookup_insert_eq. }
  destruct (setBlocking_open P flag' st' _ Hfl' (mode_flags_nonneg P flag fl Hnb Hnn))
    as (st'' & Hrun' & Hthis' & Hfds' & _).
  exists st''. split; [exact Hrun'|]. split.
  - rewrite Hthis', Hthis. reflexivity.
  - rewrite Hfds', Hfd, Hfds, mode_flags_again. apply insert_insert_eq.
Qed.

Lemma setBlocking_sets_mode_witness :
  0 <= O_NONBLOCK linux
  /\ w_fds (os plain_state) !! _sockfd (this plain_state) = Some 2
  /\ 0 <= 2
  /\ exists st' : State,
      setBlocking linux false plain_state = (Return tt, st')
      /\ getBlocking st' = (Return false, st')
      /\ w_fds (os st') = {[3 := 2050]}.
Proof.
  assert (H1 : 0 <= O_NONBLOCK linux) by (vm_compute; discriminate).
  assert (H2 : w_fds (os plain_state) !! _sockfd (this plain_state) = Some 2)
    by reflexivity.
  assert (H3 : 0 <= 2) by lia.
  split; [exact H1|]. split; [exact H2|]. split; [exact H3|].
  destruct (setBlocking_sets_mode linux false plain_state 2 H1 H2 H3)
    as (st' & Hrun & _ & Hget & Hfds & _).
  exists st'. split; [exact Hrun|]. split; [exact Hget|].
  rewrite Hfds. vm_compute. reflexivity.
Defined.

(** X3. On a descriptor that is not open -- an unset handle included --
    setBlocking(flag) throws what the error translator makes of EBADF (on
    Linux IOException "Bad socket descriptor"), not InvalidSocketException;
    it attempts F_GETFL only, and the cached blocking flag stays as it was. *)
Theorem setBlocking_bad_descriptor (P : Platform) (flag : bool) (st : State) :
  w_fds (os st) !! _sockfd (this st) = None ->
  EBADF (codes P) <> POCO_ENOERR (codes P) ->
  exists e : Exception,
    translate (codes P) (EBADF (codes P)) "" = Some e
    /\ setBlocking P flag st
       = (Throw e, decided (sys_fcntl_GETFL (_sockfd (this st))) (-1) (EBADF (codes P))
                           (w_fds (os st)) st)
    /\ this (snd (setBlocking P flag st)) = this st
    /\ calls (snd (setBlocking P flag st))
       = calls st ++ [sys_fcntl_GETFL (_sockfd (this st))]
    /\ (codes P = linux_codes ->
        e = exn_msg IOException "Bad socket descriptor" 9).
Proof.
  intros Hfd Hcode.
  destruct (translate_raises (codes P) (EBADF (codes P)) "" Hcode) as (e & He).
  assert (Hrun : setBlocking P flag st
                 = (Throw e, decided (sys_fcntl_GETFL (_sockfd (this st))) (-1)
                                     (EBADF (codes P)) (w_fds (os st)) st)).
  { unfold setBlocking. apply bind_throw. unfold fcntl_GETFL, os_fcntl_GETFL.
    rewrite bind_get_this, bind_assoc, bind_get_fds, Hfd.
    unfold kernel, bind at 1. cbv beta iota.
    apply bind_throw. simpl when. unfold error_last. rewrite bind_lastError.
    simpl w_errno. rewrite error_run. unfold raised, E. rewrite He. reflexivity. }
  exists e. split; [exact He|]. split; [exact Hrun|]. rewrite Hrun.
  split; [reflexivity|]. split.
  - unfold calls. simpl. reflexivity.
  - intros Hlinux. rewrite Hlinux in He.
    assert (Hc : translate linux_codes (EBADF linux_codes) ""
                 = Some (exn_msg IOException "Bad socket descriptor" 9)) by reflexivity.
    rewrite Hc in He. injection He as <-. reflexivity.
Qed.

Lemma setBlocking_bad_descriptor_witness :
  w_fds (os unset_state) !! _sockfd (this unset_state) = None
  /\ EBADF (codes linux) <> POCO_ENOERR (codes linux)
  /\ fst (setBlocking linux false unset_state)
     = Throw (exn_msg IOException "Bad socket descriptor" 9)
  /\ _blocking (this (snd (setBlocking linux false unset_state))) = true.
Proof.
  assert (H1 : w_fds (os unset_state) !! _sockfd (this unset_state) = None)
    by reflexivity.
  assert (H2 : EBADF (codes linux) <> POCO_ENOERR (codes linux))
    by (vm_compute; discriminate).
  split; [exact H1|]. split; [exact H2|].
  destruct (setBlocking_bad_descriptor linux false unset_state H1 H2)
    as (e & _ & Hrun & Hthis & _ & Hlinux).
  rewrite Hthis. rewrite Hrun. simpl fst. rewrite (Hlinux eq_refl).
  split; reflexivity.
Defined.

(** ** connect without a timeout, and connectNB *)

Lemma connect_round_run (P : Platform) (address : SocketAddress) (st : State)
      (r : Reply) (rest : list Reply) :
  w_script (os st) = r :: rest ->
  connect_round P address tt st
  = (Return (if negb (r_rc r =? 0)
                && (w_errno (os (answered (sys_connect (_sockfd (this st)) address) r st))
                    =? POCO_EINTR (codes P))
             then inl tt else inr (r_rc r)),
     answered (sys_connect (_sockfd (this st)) address) r st).
Proof.
  intros Hs. unfold connect_round. rewrite bind_get_this.
  rewrite (bind_return _ _ _ _ _ (os_call_answered _ st r rest Hs)).
  rewrite bind_lastError. reflexivity.
Qed.

Lemma interrupt_errno (c : ErrorCodes) (x : Syscall) (r : Reply) (st : State) :
  is_interrupt c r = true ->
  r_rc r <> 0 /\ w_errno (os (answered x r st)) = POCO_EINTR c.
Proof.
  unfold is_interrupt. intros H. apply andb_true_iff in H as [Hrc He].
  apply Z.ltb_lt in Hrc. apply Z.eqb_eq in He.
  split; [lia|]. rewrite (answered_errno x r st Hrc). exact He.
Qed.

Lemma connect_loop_run (P : Platform) (address : SocketAddress) (intr : list Reply)
      (final : Reply) (rest : list Reply) :
  Forall (fun r => is_interrupt (codes P) r = true) intr ->
  settles (codes P) final ->
  forall st : State,
    w_script (os st) = intr ++ final :: rest ->
    loop (connect_round P address) tt st
    = (Return (r_rc final),
       answered_all (map (fun r => (sys_connect (_sockfd (this st)) address, r))
                         (intr ++ [final])) st).
Proof.
  intros Hintr Hfinal. induction Hintr as [|r intr Hr _ IH]; intros st Hs.
  - simpl in Hs. unfold loop. rewrite Hs. simpl length. rewrite iterate_step.
    rewrite (connect_round_run P address st final rest Hs).
    destruct Hfinal as [H0 | [Hneg Hne]].
    + rewrite H0. reflexivity.
    + rewrite (answered_errno _ final st Hneg).
      destruct (Z.eqb_spec (r_errno final) (POCO_EINTR (codes P))); [contradiction|].
      rewrite andb_false_r. reflexivity.
  - simpl in Hs. unfold loop. rewrite Hs. simpl length. rewrite iterate_step.
    rewrite (connect_round_run P address st r _ Hs).
    destruct (interrupt_errno (codes P) (sys_connect (_sockfd (this st)) address) r st Hr)
      as [Hrc He].
    rewrite He, Z.eqb_refl. destruct (Z.eqb_spec (r_rc r) 0); [contradiction|].
    simpl negb. simpl andb. cbv iota.
    specialize (IH (answered (sys_connect (_sockfd (this st)) address) r st)
                   (answered_script _ _ _ _ Hs)).
    unfold loop in IH. rewrite (answered_script _ _ _ _ Hs) in IH. rewrite IH.
    reflexivity.
Qed.

(** X4. connect(address) on a set handle whose connect call is interrupted
    by signals any number of times before a reply that is a success or
    another failure: it attempts connect once more after each interruption
    and nothing else; it returns on success and otherwise has the outcome
    of error(errno, address.toString()), so the address travels with the
    exception; the handle, its blocking mode included, and the descriptor
    table are as before. *)
Theorem connect_retries_until_settled (P : Platform) (address : SocketAddress)
        (st : State) (intr : list Reply) (final : Reply) (rest : list Reply) :
  _sockfd (this st) <> POCO_INVALID_SOCKET ->
  Forall (fun r => is_interrupt (codes P) r = true) intr ->
  settles (codes P) final ->
  w_script (os st) = intr ++ final :: rest ->
  fst (connect P address st)
  = (if r_rc final =? 0 then Return tt
     else raised (codes P) (r_errno final) (sa_toString address))
  /\ calls (snd (connect P address st))
     = calls st ++ repeat (sys_connect (_sockfd (this st)) address) (S (length intr))
  /\ this (snd (connect P address st)) = this st
  /\ w_fds (os (snd (connect P address st))) = w_fds (os st)
  /\ w_script (os (snd (connect P address st))) = rest.
Proof.
  intros Hfd Hintr Hfinal Hs.
  set (l := map (fun r => (sys_connect (_sockfd (this st)) address, r)) (intr ++ [final])).
  assert (Hrun : connect P address st
                 = (if r_rc final =? 0 then Return tt
                    else raised (codes P) (r_errno final) (sa_toString address),
                    answered_all l st)).
  { unfold connect. rewrite bind_get_this.
    destruct (Z.eqb_spec (_sockfd (this st)) POCO_INVALID_SOCKET); [contradiction|].
    simpl when. rewrite bind_ret.
    rewrite (bind_return _ _ _ _ _
               (connect_loop_run P address intr final rest Hintr Hfinal st Hs)).
    fold l. destruct Hfinal as [H0 | [Hneg Hne]].
    - rewrite H0. reflexivity.
    - destruct (Z.eqb_spec (r_rc final) 0); [lia|]. simpl when.
      rewrite bind_lastError. unfold l. rewrite map_app. simpl map.
      rewrite (answered_all_errno _ _ final st Hneg). apply error_run. }
  rewrite Hrun. simpl fst. simpl snd.
  split; [reflexivity|]. split.
  { rewrite answered_all_calls. f_equal. unfold l. rewrite map_map. simpl.
    clear. induction intr as [|r intr IH]; [reflexivity|].
    simpl. f_equal. exact IH. }
  split; [apply answered_all_this|]. split; [apply answered_all_this|].
  apply answered_all_script. unfold l. rewrite map_map. simpl. rewrite map_id.
  rewrite <- app_assoc. exact Hs.
Qed.

Lemma connect_retries_until_settled_witness :
  _sockfd (this interrupted_connect_state) <> POCO_INVALID_SOCKET
  /\ Forall (fun r => is_interrupt (codes linux) r = true) [failed 4 10; failed 4 20]
  /\ settles (codes linux) (failed 111 30)
  /\ fst (connect linux peer interrupted_connect_state)
     = Throw (exn_msg ConnectionRefusedException "192.0.2.1:80" 111)
  /\ calls (snd (connect linux peer interrupted_connect_state))
     = [sys_connect 3 peer; sys_connect 3 peer; sys_connect 3 peer].
Proof.
  assert (H1 : _sockfd (this interrupted_connect_state) <> POCO_INVALID_SOCKET)
    by (vm_compute; discriminate).
  assert (H2 : Forall (fun r => is_interrupt (codes linux) r = true)
                      [failed 4 10; failed 4 20]) by (repeat constructor).
  assert (H3 : settles (codes linux) (failed 111 30)).
  { right. split; [vm_compute; reflexivity | vm_compute; discriminate]. }
  split; [exact H1|]. split; [exact H2|]. split; [exact H3|].
  destruct (connect_retries_until_settled linux peer interrupted_connect_state
              [failed 4 10; failed 4 20] (failed 111 30) [] H1 H2 H3 eq_refl)
    as (Hout & Hcalls & _).
  split; [rewrite Hout; reflexivity | rewrite Hcalls; reflexivity].
Defined.

(** X5. connectNB(address) on a descriptor that is open with non-negative
    status flags: whatever becomes of the connect call, the handle is left
    in non-blocking mode, cached flag and O_NONBLOCK both, with the other
    status flags untouched; a connect that succeeds at once, or reports
    EINPROGRESS or EWOULDBLOCK, is a plain return; any other failure has
    the outcome of error(errno, address.toString()). *)
Theorem connectNB_leaves_nonblocking (P : Platform) (address : SocketAddress)
        (st : State) (fl : Z) :
  _sockfd (this st) <> POCO_INVALID_SOCKET ->
  w_fds (os st) !! _sockfd (this st) = Some fl -> 0 <= fl ->
  this (snd (connectNB P address st)) = with_blocking false (this st)
  /\ w_fds (os (snd (connectNB P address st)))
     = <[_sockfd (this st) := mode_flags P false fl]> (w_fds (os st))
  /\ (forall (r : Reply) (rest : list Reply),
         w_script (os st) = r :: rest ->
         (r_rc r = 0
          \/ (r_rc r < 0 /\ (r_errno r = POCO_EINPROGRESS (codes P)
                             \/ r_errno r = POCO_EWOULDBLOCK (codes P))) ->
          fst (connectNB P address st) = Return tt)
         /\ (r_rc r < 0 -> r_errno r <> POCO_EINPROGRESS (codes P) ->
             r_errno r <> POCO_EWOULDBLOCK (codes P) ->
             fst (connectNB P address st)
             = raised (codes P) (r_errno r) (sa_toString address)))
  /\ (w_script (os st) = [] -> fst (connectNB P address st) = Hang).
Proof.
  intros Hfd Hfl Hnn.
  destruct (setBlocking_open P false st fl Hfl Hnn)
    as (st1 & Hrun & Hthis & Hfds & _ & Hscript & _).
  assert (Hstart : connectNB P address st
                   = (let* rc := os_call (sys_connect (_sockfd (this st)) address) in
                      when (negb (rc =? 0))
                        (let* err := lastError in
                         when (negb (err =? POCO_EINPROGRESS (codes P))
                               && negb (err =? POCO_EWOULDBLOCK (codes P)))
                           (error P err (sa_toString address)))) st1).
  { unfold connectNB. rewrite bind_get_this.
    destruct (Z.eqb_spec (_sockfd (this st)) POCO_INVALID_SOCKET); [contradiction|].
    simpl when. rewrite bind_ret.
    rewrite (bind_return _ _ _ _ _ Hrun), bind_get_this, Hthis. reflexivity. }
  rewrite Hstart. clear Hstart.
  destruct (w_script (os st)) as [|r rest] eqn:Hs.
  - assert (Hh : os_call (sys_connect (_sockfd (this st)) address) st1
                 = (Hang, blocked (sys_connect (_sockfd (this st)) address) st1)).
    { unfold os_call. apply bind_hang. apply syscall_blocked. exact Hscript. }
    rewrite (bind_hang _ _ _ _ Hh). simpl.
    split; [exact Hthis|]. split; [exact Hfds|]. split; [|reflexivity].
    intros r rest Habs. discriminate.
  - rewrite (bind_return _ _ _ _ _ (os_call_answered _ st1 r rest Hscript)).
    set (st2 := answered (sys_connect (_sockfd (this st)) address) r st1).
    assert (Hthis2 : this st2 = with_blocking false (this st)) by exact Hthis.
    assert (Hfds2 : w_fds (os st2)
                    = <[_sockfd (this st) := mode_flags P false fl]> (w_fds (os st)))
      by exact Hfds.
    destruct (Z.eqb_spec (r_rc r) 0) as [H0 | Hn0]; simpl when.
    + split; [exact Hthis2|]. split; [exact Hfds2|]. split; [|discriminate].
      intros r' rest' [= <- <-]. split; [reflexivity|]. intros Hneg. lia.
    + rewrite bind_lastError.
      destruct (Z.ltb_spec (r_rc r) 0) as [Hneg | Hpos].
      * assert (He : w_errno (os st2) = r_errno r) by (apply answered_errno; exact Hneg).
        rewrite He.
        destruct (Z.eqb_spec (r_errno r) (POCO_EINPROGRESS (codes P))) as [Hip | Hip];
          simpl negb; simpl andb; simpl when.
        { split; [exact Hthis2|]. split; [exact Hfds2|]. split; [|discriminate].
          intros r' rest' [= <- <-]. split; [reflexivity|]. intros _ Habs. contradiction. }
        destruct (Z.eqb_spec (r_errno r) (POCO_EWOULDBLOCK (codes P))) as [Hwb | Hwb];
          simpl negb; simpl when.
        { split; [exact Hthis2|]. split; [exact Hfds2|]. split; [|discriminate].
          intros r' rest' [= <- <-]. split; [reflexivity|]. intros _ _ Habs.
          contradiction. }
        rewrite error_run. simpl.
        split; [exact Hthis2|]. split; [exact Hfds2|]. split; [|discriminate].
        intros r' rest' [= <- <-]. split; [|reflexivity].
        intros [H0 | [_ [Habs | Habs]]]; [lia | contradiction | contradiction].
      * assert (Hstate : forall m : M unit,
                   (forall st0, snd (m st0) = st0) ->
                   this (snd (m st2)) = with_blocking false (this st)
                   /\ w_fds (os (snd (m st2)))
                      = <[_sockfd (this st) := mode_flags P false fl]> (w_fds (os st))).
        { intros m Hm. rewrite Hm. split; assumption. }
        assert (Hpure : forall st0,
                   snd (when (negb (w_errno (os st2) =? POCO_EINPROGRESS (codes P))
                              && negb (w_errno (os st2) =? POCO_EWOULDBLOCK (codes P)))
                          (error P (w_errno (os st2)) (sa_toString address)) st0) = st0).
        { intros st0. destruct (_ && _); [|reflexivity]. simpl when.
          rewrite error_run. reflexivity. }
        destruct (Hstate _ Hpure) as [Ha Hb].
        split; [exact Ha|]. split; [exact Hb|]. split; [|discriminate].
        intros r' rest' [= <- <-]. split; [|intros Hneg; lia].
        intros [H0 | [Hneg _]]; lia.
Qed.

Lemma connectNB_leaves_nonblocking_witness :
  _sockfd (this refused_state) <> POCO_INVALID_SOCKET
  /\ w_fds (os refused_state) !! _sockfd (this refused_state) = Some 2
  /\ 0 <= 2
  /\ fst (connectNB linux peer refused_state) = Return tt
  /\ _blocking (this (snd (connectNB linux peer refused_state))) = false
  /\ w_fds (os (snd (connectNB linux peer refused_state))) !! 3 = Some 2050.
Proof.
  assert (H1 : _sockfd (this refused_state) <> POCO_INVALID_SOCKET)
    by (vm_compute; discriminate).
  assert (H2 : w_fds (os refused_state) !! _sockfd (this refused_state) = Some 2)
    by reflexivity.
  assert (H3 : 0 <= 2) by lia.
  split; [exact H1|]. split; [exact H2|]. split; [exact H3|].
  destruct (connectNB_leaves_nonblocking linux peer refused_state 2 H1 H2 H3)
    as (Hthis & Hfds & Hreply & _).
  split.
  { apply (proj1 (Hreply (failed 115 0) _ eq_refl)).
    right. split; [vm_compute; reflexivity | left; reflexivity]. }
  split; [rewrite Hthis; reflexivity|].
  rewrite Hfds. vm_compute. reflexivity.
Defined.

(** ** Options: what is set is what is read back *)

Lemma setRawOption_run (P : Platform) (opt : OptionName) (value : list Z) (st : State)
      (p : Reply) (rest : list Reply) :
  _sockfd (this st) <> POCO_INVALID_SOCKET ->
  w_script (os st) = p :: rest -> r_rc p <> -1 ->
  setRawOption P opt value st
  = (Return tt, answered (sys_setsockopt (_sockfd (this st)) opt value) p st).
Proof.
  intros Hfd Hs Hrc. unfold setRawOption.
  rewrite (bind_return _ _ _ _ _ (valid_sockfd_set st Hfd)).
  rewrite (bind_return _ _ _ _ _ (os_call_answered _ st p rest Hs)).
  destruct (Z.eqb_spec (r_rc p) (-1)); [contradiction | reflexivity].
Qed.

Lemma getRawOption_run (P : Platform) (opt : OptionName) (value : list Z) (st : State)
      (q : Reply) (rest : list Reply) :
  _sockfd (this st) <> POCO_INVALID_SOCKET ->
  w_script (os st) = q :: rest -> r_rc q = 0 ->
  getRawOption P opt value st
  = (Return (r_out q), answered (sys_getsockopt (_sockfd (this st)) opt) q st).
Proof.
  intros Hfd Hs Hrc. unfold getRawOption.
  rewrite (bind_return _ _ _ _ _ (valid_sockfd_set st Hfd)).
  unfold os_query. rewrite bind_assoc.
  rewrite (bind_return _ _ _ _ _ (syscall_answered _ st q rest Hs)).
  rewrite bind_ret, Hrc. reflexivity.
Qed.


(** A setter that is one setRawOption, against a getter that decodes what
    getRawOption stored. *)
Lemma round_trip_raw {A : Type} (P : Platform) (opt : OptionName) (value initial : list Z)
      (decode : list Z -> A) (v : A) :
  decode value = v ->
  round_trip opt (setRawOption P opt value)
             (let* out := getRawOption P opt initial in ret (decode out)) v.
Proof.
  intros Hdec st p q rest Hfd Hs Hp Hq.
  exists value, (answered (sys_setsockopt (_sockfd (this st)) opt value) p st).
  split; [apply (setRawOption_run P opt value st p _ Hfd Hs Hp)|].
  split; [apply calls_answered|].
  intros Hout.
  set (st1 := answered _ p st).
  assert (Hfd1 : _sockfd (this st1) <> POCO_INVALID_SOCKET) by exact Hfd.
  assert (Hs1 : w_script (os st1) = q :: rest) by (apply (answered_script _ _ _ _ Hs)).
  rewrite (bind_return _ _ _ _ _ (getRawOption_run P opt initial st1 q rest Hfd1 Hs1 Hq)).
  simpl. rewrite Hout, Hdec. reflexivity.
Qed.

Lemma flag_decoded (flag : bool) : negb ((if flag then 1 else 0) =? 0) = flag.
Proof. destruct flag; reflexivity. Qed.

Lemma round_trip_flag (P : Platform) (opt : OptionName) (flag : bool) :
  round_trip opt (setOption P opt (if flag then 1 else 0))
             (let* value := getOption P opt 0 in ret (negb (value =? 0))) flag.
Proof.
  intros st p q rest Hfd Hs Hp Hq.
  destruct (round_trip_raw P opt [if flag then 1 else 0] [0]
              (fun out => negb (hd 0 out =? 0)) flag (flag_decoded flag)
              st p q rest Hfd Hs Hp Hq) as (value & st1 & Hset & Hcalls & Hget).
  exists value, st1. split; [exact Hset|]. split; [exact Hcalls|].
  intros Hout. specialize (Hget Hout). unfold getOption.
  rewrite <- Hget. unfold bind. destruct (getRawOption P opt [0] st1) as [[out|e|] st2];
    reflexivity.
Qed.

Lemma round_trip_int (P : Platform) (opt : OptionName) (n : Z) :
  round_trip opt (setOption P opt n) (getOption P opt 0) n.
Proof.
  exact (round_trip_raw P opt [n] [0] (fun out => hd 0 out) n eq_refl).
Qed.

(** X6. The option accessors agree on their encoding: for the flags
    no-delay, keep-alive, reuse-address, OOB-inline and broadcast, for
    linger (on, seconds) and for the two buffer sizes, the setter makes
    exactly one call, setsockopt of that option, and the getter returns the
    value that was set whenever getsockopt hands back the bytes that
    setsockopt was given. *)
Theorem options_round_trip (P : Platform) :
  (forall flag, round_trip TCP_NODELAY (setNoDelay P flag) (getNoDelay P) flag)
  /\ (forall flag, round_trip SO_KEEPALIVE (setKeepAlive P flag) (getKeepAlive P) flag)
  /\ (forall flag, round_trip SO_REUSEADDR (setReuseAddress P flag) (getReuseAddress P) flag)
  /\ (forall flag, round_trip SO_OOBINLINE (setOOBInline P flag) (getOOBInline P) flag)
  /\ (forall flag, round_trip SO_BROADCAST (setBroadcast P flag) (getBroadcast P) flag)
  /\ (forall on seconds,
         round_trip SO_LINGER (setLinger P on seconds) (getLinger P) (on, seconds))
  /\ (forall size,
         round_trip SO_SNDBUF (setSendBufferSize P size) (getSendBufferSize P) size)
  /\ (forall size,
         round_trip SO_RCVBUF (setReceiveBufferSize P size) (getReceiveBufferSize P) size).
Proof.
  repeat split; intros;
    first [ apply round_trip_flag | apply round_trip_int | idtac ].
  unfold setLinger, getLinger.
  apply (round_trip_raw P SO_LINGER [if on then 1 else 0; seconds] [0; 0]
           (fun out => (negb (nth 0 out 0 =? 0), nth 1 out 0)) (on, seconds)).
  simpl. rewrite flag_decoded. reflexivity.
Qed.

Lemma options_round_trip_witness :
  _sockfd (this (storing_state false [1; 30])) <> POCO_INVALID_SOCKET
  /\ r_rc (ok 0 0) <> -1
  /\ exists (value : list Z) (st1 : State),
      setLinger linux true 30 (storing_state false [1; 30]) = (Return tt, st1)
      /\ calls st1 = [sys_setsockopt 3 SO_LINGER value]
      /\ ([1; 30] = value -> fst (getLinger linux st1) = Return (true, 30)).
Proof.
  assert (Hfd : _sockfd (this (storing_state false [1; 30])) <> POCO_INVALID_SOCKET)
    by (vm_compute; discriminate).
  assert (Hp : r_rc (ok 0 0) <> -1) by (vm_compute; discriminate).
  split; [exact Hfd|]. split; [exact Hp|].
  exact (proj1 (proj2 (proj2 (proj2 (proj2 (proj2 (options_round_trip linux))))))
               true 30 (storing_state false [1; 30]) (ok 0 0)
               (mkReply 0 0 0 [1; 30] []) [] Hfd eq_refl Hp eq_refl).
Defined.

(** *** Timeouts *)

Lemma timeval_decoded (timeout : Z) :
  nth 0 [totalSeconds timeout; useconds timeout] 0 * 1000000
  + nth 1 [totalSeconds timeout; useconds timeout] 0 = timeout.
Proof.
  simpl. unfold totalSeconds, useconds.
  pose proof (Z.quot_rem' timeout 1000000). lia.
Qed.

Section Timeouts.

Variable P : Platform.
Variable opt : OptionName.
Variable cache : Z -> M unit.
Variable cached : SocketImpl -> Z.
Variable timeout : Z.

Let setter : M unit :=
  do (if POCO_BROKEN_TIMEOUTS P then ret tt else setOption_Timespan P opt timeout) then
  let* s := get_this in when (_isBrokenTimeout s) (cache timeout).

Let getter : M Z :=
  let* result := (if POCO_BROKEN_TIMEOUTS P then ret 0
                  else getOption_Timespan P opt 0) in
  let* s := get_this in
  ret (if _isBrokenTimeout s then cached s else result).

(** Built without POCO_BROKEN_TIMEOUTS, on a handle without the emulation
    flag: the timeout goes through the socket option. *)
Lemma timeout_stored (st : State) (p q : Reply) (rest : list Reply) :
  POCO_BROKEN_TIMEOUTS P = false ->
  _isBrokenTimeout (this st) = false ->
  _sockfd (this st) <> POCO_INVALID_SOCKET ->
  w_script (os st) = p :: q :: rest -> r_rc p <> -1 -> r_rc q = 0 ->
  exists st1 : State,
    setter st = (Return tt, st1)
    /\ this st1 = this st
    /\ calls st1
       = calls st ++ [sys_setsockopt (_sockfd (this st)) opt
                                     [totalSeconds timeout; useconds timeout]]
    /\ calls (snd (getter st1)) = calls st1 ++ [sys_getsockopt (_sockfd (this st)) opt]
    /\ (r_out q = [totalSeconds timeout; useconds timeout] ->
        fst (getter st1) = Return timeout).
Proof.
  intros Hmacro Hflag Hfd Hs Hp Hq. unfold setter, getter. rewrite Hmacro.
  set (value := [totalSeconds timeout; useconds timeout]).
  set (st1 := answered (sys_setsockopt (_sockfd (this st)) opt value) p st).
  assert (Hset : setOption_Timespan P opt timeout st = (Return tt, st1))
    by (apply (setRawOption_run P opt value st p _ Hfd Hs Hp)).
  exists st1. rewrite (bind_return _ _ _ _ _ Hset), bind_get_this.
  change (this st1) with (this st). rewrite Hflag.
  split; [reflexivity|]. split; [reflexivity|]. split; [apply calls_answered|].
  assert (Hfd1 : _sockfd (this st1) <> POCO_INVALID_SOCKET) by exact Hfd.
  assert (Hs1 : w_script (os st1) = q :: rest) by (apply (answered_script _ _ _ _ Hs)).
  unfold getOption_Timespan. rewrite bind_assoc.
  rewrite (bind_return _ _ _ _ _ (getRawOption_run P opt [0; 0] st1 q rest Hfd1 Hs1 Hq)).
  rewrite bind_ret, bind_get_this. unfold ret.
  change (this (answered (sys_getsockopt (_sockfd (this st1)) opt) q st1)) with (this st).
  rewrite Hflag. split; [apply calls_answered|].
  intros Hout. simpl fst. rewrite Hout. unfold value. rewrite timeval_decoded. reflexivity.
Qed.

Hypothesis cache_run :
  forall st : State,
    exists st' : State,
      cache timeout st = (Return tt, st')
      /\ os st' = os st
      /\ _sockfd (this st') = _sockfd (this st)
      /\ _blocking (this st') = _blocking (this st)
      /\ _isBrokenTimeout (this st') = _isBrokenTimeout (this st)
      /\ cached (this st') = timeout.

(** Built with POCO_BROKEN_TIMEOUTS, so with the emulation flag set: the
    timeout is kept in the handle and no system call is made. *)
Lemma timeout_cached (st : State) :
  POCO_BROKEN_TIMEOUTS P = true ->
  _isBrokenTimeout (this st) = true ->
  exists st1 : State,
    setter st = (Return tt, st1)
    /\ os st1 = os st
    /\ _sockfd (this st1) = _sockfd (this st)
    /\ _blocking (this st1) = _blocking (this st)
    /\ cached (this st1) = timeout
    /\ getter st1 = (Return timeout, st1).
Proof.
  intros Hmacro Hflag. unfold setter, getter. rewrite Hmacro.
  rewrite !bind_ret, bind_get_this, Hflag. simpl when.
  destruct (cache_run st) as (st1 & Hrun & Hos & Hfd & Hb & Hflag1 & Hc).
  exists st1. split; [exact Hrun|]. split; [exact Hos|]. split; [exact Hfd|].
  split; [exact Hb|]. split; [exact Hc|].
  rewrite bind_ret, bind_get_this. rewrite Hflag1, Hflag, Hc. reflexivity.
Qed.

End Timeouts.

(** X7. setSendTimeout followed by getSendTimeout, and setReceiveTimeout
    followed by getReceiveTimeout, give back the timeout that was set, for
    every timeout, negative ones included.  In a build without
    POCO_BROKEN_TIMEOUTS, on a set handle without the emulation flag, the
    setter makes exactly one call, setsockopt with the timeout as seconds
    and microseconds, and leaves the handle as it was; the getter makes one
    getsockopt call and returns the timeout whenever getsockopt hands those
    two numbers back.  In a build with POCO_BROKEN_TIMEOUTS, where the
    emulation flag is set, neither makes a system call, on a set or an
    unset handle: the setter stores the timeout in the handle and the
    getter returns it. *)
Theorem timeouts_round_trip (P : Platform) (timeout : Z) (st : State) :
  (POCO_BROKEN_TIMEOUTS P = false ->
   _isBrokenTimeout (this st) = false ->
   _sockfd (this st) <> POCO_INVALID_SOCKET ->
   forall (p q : Reply) (rest : list Reply),
     w_script (os st) = p :: q :: rest -> r_rc p <> -1 -> r_rc q = 0 ->
     (exists st1 : State,
         setSendTimeout P timeout st = (Return tt, st1)
         /\ this st1 = this st
         /\ calls st1
            = calls st ++ [sys_setsockopt (_sockfd (this st)) SO_SNDTIMEO
                                          [totalSeconds timeout; useconds timeout]]
         /\ calls (snd (getSendTimeout P st1))
            = calls st1 ++ [sys_getsockopt (_sockfd (this st)) SO_SNDTIMEO]
         /\ (r_out q = [totalSeconds timeout; useconds timeout] ->
             fst (getSendTimeout P st1) = Return timeout))
     /\ (exists st1 : State,
            setReceiveTimeout P timeout st = (Return tt, st1)
            /\ this st1 = this st
            /\ calls st1
               = calls st ++ [sys_setsockopt (_sockfd (this st)) SO_RCVTIMEO
                                             [totalSeconds timeout; useconds timeout]]
            /\ calls (snd (getReceiveTimeout P st1))
               = calls st1 ++ [sys_getsockopt (_sockfd (this st)) SO_RCVTIMEO]
            /\ (r_out q = [totalSeconds timeout; useconds timeout] ->
                fst (getReceiveTimeout P st1) = Return timeout)))
  /\ (POCO_BROKEN_TIMEOUTS P = true ->
      _isBrokenTimeout (this st) = true ->
      (exists st1 : State,
          setSendTimeout P timeout st = (Return tt, st1)
          /\ os st1 = os st
          /\ _sockfd (this st1) = _sockfd (this st)
          /\ _blocking (this st1) = _blocking (this st)
          /\ _sndTimeout (this st1) = timeout
          /\ getSendTimeout P st1 = (Return timeout, st1))
      /\ (exists st1 : State,
             setReceiveTimeout P timeout st = (Return tt, st1)
             /\ os st1 = os st
             /\ _sockfd (this st1) = _sockfd (this st)
             /\ _blocking (this st1) = _blocking (this st)
             /\ _recvTimeout (this st1) = timeout
             /\ getReceiveTimeout P st1 = (Return timeout, st1))).
Proof.
  split.
  - intros Hmacro Hflag Hfd p q rest Hs Hp Hq. split.
    + exact (timeout_stored P SO_SNDTIMEO set_sndTimeout _sndTimeout timeout
               st p q rest Hmacro Hflag Hfd Hs Hp Hq).
    + exact (timeout_stored P SO_RCVTIMEO set_recvTimeout _recvTimeout timeout
               st p q rest Hmacro Hflag Hfd Hs Hp Hq).
  - intros Hmacro Hflag. split.
    + apply (timeout_cached P SO_SNDTIMEO set_sndTimeout _sndTimeout timeout);
        [|assumption|assumption].
      intros st0. eexists. split; [reflexivity|]. repeat split; reflexivity.
    + apply (timeout_cached P SO_RCVTIMEO set_recvTimeout _recvTimeout timeout);
        [|assumption|assumption].
      intros st0. eexists. split; [reflexivity|]. repeat split; reflexivity.
Qed.

Lemma timeouts_round_trip_witness :
  (POCO_BROKEN_TIMEOUTS linux = false
   /\ _isBrokenTimeout (this (storing_state false [-2; -500000])) = false
   /\ _sockfd (this (storing_state false [-2; -500000])) <> POCO_INVALID_SOCKET
   /\ r_rc (ok 0 0) <> -1
   /\ exists st1 : State,
       setSendTimeout linux (-2500000) (storing_state false [-2; -500000])
       = (Return tt, st1)
       /\ calls st1 = [sys_setsockopt 3 SO_SNDTIMEO [-2; -500000]]
       /\ fst (getSendTimeout linux st1) = Return (-2500000))
  /\ (POCO_BROKEN_TIMEOUTS linux_broken_timeouts = true
      /\ _isBrokenTimeout (this unset_emulated_state) = true
      /\ exists st1 : State,
          setReceiveTimeout linux_broken_timeouts 1500000 unset_emulated_state
          = (Return tt, st1)
          /\ os st1 = os unset_emulated_state
          /\ getReceiveTimeout linux_broken_timeouts st1 = (Return 1500000, st1)).
Proof.
  assert (Hfd : _sockfd (this (storing_state false [-2; -500000])) <> POCO_INVALID_SOCKET)
    by (vm_compute; discriminate).
  assert (Hp : r_rc (ok 0 0) <> -1) by (vm_compute; discriminate).
  split.
  - split; [reflexivity|]. split; [reflexivity|]. split; [exact Hfd|]. split; [exact Hp|].
    destruct (proj1 (proj1 (timeouts_round_trip linux (-2500000)
                              (storing_state false [-2; -500000]))
                           eq_refl eq_refl Hfd (ok 0 0) (mkReply 0 0 0 [-2; -500000] []) []
                           eq_refl Hp eq_refl))
      as (st1 & Hset & _ & Hcalls & _ & Hget).
    exists st1. split; [exact Hset|]. split; [exact Hcalls|]. apply Hget. reflexivity.
  - split; [reflexivity|]. split; [reflexivity|].
    destruct (proj2 (proj2 (timeouts_round_trip linux_broken_timeouts 1500000
                              unset_emulated_state) eq_refl eq_refl))
      as (st1 & Hset & Hos & _ & _ & _ & Hget).
    exists st1. split; [exact Hset|]. split; [exact Hos|]. exact Hget.
Defined.

(** ** What a computation leaves behind when it returns or throws *)

Lemma ends_weaken {A : Type} (pre pre' : State -> Prop) (m : M A)
      (post post' : A -> State -> Prop) (exc exc' : State -> Prop) :
  ends pre m post exc ->
  (forall st, pre' st -> pre st) ->
  (forall a st, post a st -> post' a st) ->
  (forall st, exc st -> exc' st) ->
  ends pre' m post' exc'.
Proof.
  intros H Hpre Hpost Hexc st Hst. specialize (H st (Hpre st Hst)).
  destruct (m st) as [[a|e|] st']; auto.
Qed.

Lemma ends_bind {A B : Type} (pre : State -> Prop) (m : M A) (k : A -> M B)
      (mid : A -> State -> Prop) (post : B -> State -> Prop) (exc : State -> Prop) :
  ends pre m mid exc -> (forall a, ends (mid a) (k a) post exc) ->
  ends pre (bind m k) post exc.
Proof.
  intros Hm Hk st Hst. specialize (Hm st Hst). unfold bind.
  destruct (m st) as [[a|e|] st']; [apply (Hk a st' Hm) | exact Hm | exact I].
Qed.

(** A computation that leaves the state as it found it. *)
Lemma ends_silent {A : Type} (pre : State -> Prop) (m : M A)
      (post : A -> State -> Prop) (exc : State -> Prop) :
  (forall st, snd (m st) = st) ->
  (forall a st, pre st -> post a st) -> (forall st, pre st -> exc st) ->
  ends pre m post exc.
Proof.
  intros Hm Hpost Hexc st Hst. specialize (Hm st).
  destruct (m st) as [[a|e|] st']; simpl in Hm; subst; auto.
Qed.

(** A computation that returns at once, the state as it found it. *)
Lemma ends_quiet {A : Type} (pre : State -> Prop) (m : M A)
      (post : A -> State -> Prop) (exc : State -> Prop) :
  (forall st, exists a, m st = (Return a, st)) ->
  (forall a st, pre st -> post a st) ->
  ends pre m post exc.
Proof.
  intros Hm Hpost st Hst. destruct (Hm st) as (a & ->). auto.
Qed.

Lemma ends_syscall (pre : State -> Prop) (c : Syscall) (exc : State -> Prop) :
  (forall r st, pre st -> pre (answered c r st)) ->
  ends pre (syscall c) (fun _ => pre) exc.
Proof.
  intros Ha st Hst. unfold syscall. destruct (w_script (os st)); [exact I|].
  apply Ha, Hst.
Qed.

Lemma ends_os_call (pre : State -> Prop) (c : Syscall) (exc : State -> Prop) :
  (forall r st, pre st -> pre (answered c r st)) ->
  ends pre (os_call c) (fun _ => pre) exc.
Proof.
  intros Ha. unfold os_call. eapply ends_bind; [apply ends_syscall, Ha|].
  intros r st Hst. exact Hst.
Qed.

Lemma ends_iterate {A B : Type} (inv : State -> Prop) (body : A -> M (A + B))
      (exc : State -> Prop) (n : nat) :
  (forall a, ends inv (body a) (fun _ => inv) exc) ->
  forall a, ends inv (iterate n body a) (fun _ => inv) exc.
Proof.
  intros Hbody. induction n as [|n IH]; intros a st Hst; [exact I|].
  simpl. specialize (Hbody a st Hst).
  destruct (body a st) as [[[a'|b]|e|] st']; [apply (IH a' st' Hbody)| | |]; assumption.
Qed.

Lemma ends_loop {A B : Type} (inv : State -> Prop) (body : A -> M (A + B))
      (exc : State -> Prop) :
  (forall a, ends inv (body a) (fun _ => inv) exc) ->
  forall a, ends inv (loop body a) (fun _ => inv) exc.
Proof. intros Hbody a st Hst. unfold loop. apply (ends_iterate inv body exc _ Hbody a st Hst). Qed.

Lemma error_silent (P : Platform) (code : Z) (arg : string) (st : State) :
  snd (error P code arg st) = st.
Proof. rewrite error_run. reflexivity. Qed.

Lemma error_last_silent (P : Platform) (st : State) : snd (error_last P st) = st.
Proof. unfold error_last. rewrite bind_lastError. apply error_silent. Qed.

Lemma error_arg_silent (P : Platform) (arg : string) (st : State) :
  snd (error_arg P arg st) = st.
Proof. unfold error_arg. rewrite bind_lastError. apply error_silent. Qed.

Lemma valid_sockfd_silent (st : State) : snd (valid_sockfd st) = st.
Proof.
  unfold valid_sockfd. rewrite bind_get_this. destruct (_ =? _); reflexivity.
Qed.

Lemma wait_interrupted_silent (P : Platform) (rc : Z) (st : State) :
  snd (wait_interrupted P rc st) = st.
Proof. reflexivity. Qed.

(** One step through a computation that no more than talks to the kernel:
    the invariant of the goal carries over. *)
Ltac ends_step :=
  lazymatch goal with
  | |- ends ?pre (bind _ _) _ _ => apply ends_bind with (mid := fun _ => pre); [|intros]
  | |- ends _ (os_call _) _ _ => apply ends_os_call; intros; assumption
  | |- ends _ (if ?b then _ else _) _ _ => destruct b
  | |- ends _ _ _ _ =>
      apply ends_quiet; [intros; eexists; reflexivity | intros; assumption]
  end.

(** ** poll and the table of open descriptors *)

Section Table.

Variable P : Platform.
Variable s0 : SocketImpl.
Variable fds0 : gmap Z Z.

(** The handle and the table are as at the start. *)
Let same : State -> Prop := fun st => this st = s0 /\ w_fds (os st) = fds0.

(** Between epoll_create and close: the queue's descriptor [e], which was
    not open at the start, may be the one descriptor more. *)
Let during (e : Z) : State -> Prop :=
  fun st =>
    this st = s0
    /\ fds0 !! e = None
    /\ (w_fds (os st) = fds0 \/ w_fds (os st) = <[e := 0]> fds0).

Hypothesis invalid_not_open : fds0 !! POCO_INVALID_SOCKET = None.

Lemma same_during (e : Z) (st : State) : fds0 !! e = None -> same st -> during e st.
Proof. intros He [H1 H2]. split; [exact H1|]. split; [exact He | left; exact H2]. Qed.

Lemma during_answered (e : Z) (c : Syscall) (r : Reply) (st : State) :
  during e st -> during e (answered c r st).
Proof. intros H. exact H. Qed.

Lemma same_answered (c : Syscall) (r : Reply) (st : State) :
  same st -> same (answered c r st).
Proof. intros H. exact H. Qed.

Lemma table_os_open (c : Syscall) :
  ends same (os_open P c) (fun e st => during e st /\ (e < 0 -> same st)) same.
Proof.
  intros st [Hthis Hfds]. unfold os_open, syscall, bind.
  destruct (w_script (os st)) as [|r rest]; [exact I|]. simpl.
  destruct (0 <=? r_rc r).
  - destruct (lowest_free (w_fds (os st))) as [fd|] eqn:Hfree; simpl.
    + pose proof (lowest_free_nonneg _ _ Hfree) as Hnn.
      apply lowest_free_free in Hfree. rewrite Hfds in *.
      split; [|lia]. split; [exact Hthis|]. split; [exact Hfree | right; reflexivity].
    + split; [|intros _]; [apply same_during; [exact invalid_not_open|]|]; split; assumption.
  - simpl. split; [|intros _]; [apply same_during; [exact invalid_not_open|]|];
      split; assumption.
Qed.

Lemma table_os_close (e : Z) (exc : State -> Prop) :
  ends (during e) (os_close P e) (fun _ st => during e st /\ same st) exc.
Proof.
  intros st (Hthis & Hfree & Hfds). unfold os_close. rewrite bind_get_fds.
  destruct Hfds as [Hfds | Hfds]; rewrite Hfds.
  - rewrite Hfree. simpl. repeat split; auto.
  - rewrite lookup_insert_eq. simpl.
    rewrite delete_insert_id by exact Hfree. repeat split; auto.
Qed.

Lemma table_epoll_round (inv : State -> Prop) (e b : Z) (exc : State -> Prop) :
  (forall c r st, inv st -> inv (answered c r st)) ->
  ends inv (epoll_round P e b) (fun _ => inv) exc.
Proof.
  intros Hinv. unfold epoll_round, wait_interrupted.
  repeat first [apply ends_os_call; intros; apply Hinv; assumption | ends_step].
Qed.

Lemma table_pollfd_round (inv : State -> Prop) (fd mode b : Z) (exc : State -> Prop) :
  (forall c r st, inv st -> inv (answered c r st)) ->
  ends inv (pollfd_round P fd mode b) (fun _ => inv) exc.
Proof.
  intros Hinv. unfold pollfd_round, wait_interrupted.
  repeat first [apply ends_os_call; intros; apply Hinv; assumption | ends_step].
Qed.

Lemma table_select_round (inv : State -> Prop) (fd mode : Z) (state : Z * Z)
      (exc : State -> Prop) :
  (forall c r st, inv st -> inv (answered c r st)) ->
  ends inv (select_round P fd mode state) (fun _ => inv) exc.
Proof.
  intros Hinv. unfold select_round. destruct state as [remainingTime errorCode].
  repeat first [apply ends_os_call; intros; apply Hinv; assumption | ends_step].
Qed.

Lemma table_valid_sockfd : ends same valid_sockfd (fun _ => same) same.
Proof. apply ends_silent; [apply valid_sockfd_silent | auto | auto]. Qed.

Lemma table_poll_epoll (timeout mode : Z) :
  ends same (poll_epoll P timeout mode) (fun _ => same) same.
Proof.
  unfold poll_epoll.
  eapply ends_bind; [apply table_valid_sockfd|]. intros sockfd. cbv beta.
  eapply ends_bind; [apply table_os_open|]. intros e. cbv beta.
  apply ends_bind with (mid := fun _ => during e).
  { destruct (Z.ltb_spec e 0) as [Hneg | Hpos]; simpl when.
    - apply ends_silent;
        [apply error_arg_silent | intros _ st [Hd _]; exact Hd | intros st [_ Hs]; auto].
    - apply ends_quiet; [intros; eexists; reflexivity | intros _ st [Hd _]; exact Hd]. }
  intros ?. apply ends_bind with (mid := fun _ => during e).
  { apply ends_os_call. intros; assumption. }
  intros rc. apply ends_bind with (mid := fun _ => during e).
  { destruct (rc <? 0); simpl when.
    - eapply ends_bind; [apply table_os_close|]. intros ?. cbv beta.
      apply ends_silent;
        [apply error_arg_silent | intros _ st [H _]; exact H | intros st [_ H]; exact H].
    - apply ends_quiet; [intros; eexists; reflexivity | auto]. }
  intros ?. apply ends_bind with (mid := fun _ => during e).
  { apply ends_loop. intros b. apply table_epoll_round. intros; assumption. }
  intros rc'. eapply ends_bind; [apply table_os_close|]. intros ?. cbv beta.
  apply ends_bind with (mid := fun _ => same).
  { destruct (rc' <? 0); simpl when.
    - apply ends_silent;
        [apply error_last_silent | intros _ st [_ H]; exact H | intros st [_ H]; exact H].
    - apply ends_quiet; [intros; eexists; reflexivity | intros _ st [_ H]; exact H]. }
  intros ?. apply ends_quiet; [intros; eexists; reflexivity | auto].
Qed.

Lemma table_poll_pollfd (timeout mode : Z) :
  ends same (poll_pollfd P timeout mode) (fun _ => same) same.
Proof.
  unfold poll_pollfd.
  eapply ends_bind; [apply table_valid_sockfd|]. intros sockfd. cbv beta.
  apply ends_bind with (mid := fun _ => same).
  { apply ends_loop. intros b. apply table_pollfd_round. intros; assumption. }
  intros rc. apply ends_bind with (mid := fun _ => same).
  { destruct (rc <? 0); simpl when.
    - apply ends_silent; [apply error_last_silent | auto | auto].
    - apply ends_quiet; [intros; eexists; reflexivity | auto]. }
  intros ?. apply ends_quiet; [intros; eexists; reflexivity | auto].
Qed.

Lemma table_poll_select (timeout mode : Z) :
  ends same (poll_select P timeout mode) (fun _ => same) same.
Proof.
  unfold poll_select.
  eapply ends_bind; [apply table_valid_sockfd|]. intros sockfd. cbv beta.
  apply ends_bind with (mid := fun _ => same).
  { apply ends_loop. intros b. apply table_select_round. intros; assumption. }
  intros [rc errorCode]. apply ends_bind with (mid := fun _ => same).
  { destruct (rc <? 0); simpl when.
    - apply ends_silent; [apply error_silent | auto | auto].
    - apply ends_quiet; [intros; eexists; reflexivity | auto]. }
  intros ?. apply ends_quiet; [intros; eexists; reflexivity | auto].
Qed.

Lemma table_poll (timeout mode : Z) :
  ends same (poll P timeout mode) (fun _ => same) same.
Proof.
  unfold poll. destruct (poll_backend P);
    [apply table_poll_epoll | apply table_poll_pollfd | apply table_poll_select].
Qed.

End Table.

(** X8. poll(timeout, mode) opens no descriptor that it does not close:
    whenever it returns or throws, in any of the three backends and on
    every path (epoll_create or epoll_ctl failing, any number of
    interruptions), the table of open descriptors and the handle are
    exactly as before the call. *)
Theorem poll_keeps_descriptor_table (P : Platform) (timeout mode : Z) (st : State) :
  w_fds (os st) !! POCO_INVALID_SOCKET = None ->
  fst (poll P timeout mode st) <> Hang ->
  w_fds (os (snd (poll P timeout mode st))) = w_fds (os st)
  /\ this (snd (poll P timeout mode st)) = this st.
Proof.
  intros Hfree Hout.
  pose proof (table_poll P (this st) (w_fds (os st)) Hfree timeout mode st
                (conj eq_refl eq_refl)) as H.
  destruct (poll P timeout mode st) as [[ready|e|] st']; simpl in *.
  - destruct H as [H1 H2]. split; assumption.
  - destruct H as [H1 H2]. split; assumption.
  - contradiction.
Qed.

Lemma poll_keeps_descriptor_table_witness :
  w_fds (os twice_interrupted_state) !! POCO_INVALID_SOCKET = None
  /\ fst (poll linux 5000 SELECT_READ twice_interrupted_state) <> Hang
  /\ w_fds (os (snd (poll linux 5000 SELECT_READ twice_interrupted_state)))
     = w_fds (os twice_interrupted_state)
  /\ existsb (fun c => match c with sys_epoll_create => true | _ => false end)
             (calls (snd (poll linux 5000 SELECT_READ twice_interrupted_state))) = true.
Proof.
  assert (H1 : w_fds (os twice_interrupted_state) !! POCO_INVALID_SOCKET = None)
    by reflexivity.
  assert (H2 : fst (poll linux 5000 SELECT_READ twice_interrupted_state) <> Hang)
    by (vm_compute; discriminate).
  split; [exact H1|]. split; [exact H2|]. split.
  - apply (poll_keeps_descriptor_table linux 5000 SELECT_READ twice_interrupted_state
             H1 H2).
  - vm_compute. reflexivity.
Defined.

(** ** receiveBytes into a Poco::Buffer, when data is there *)

(** A transfer loop whose call succeeds leaves after one round. *)
Lemma transfer_loop_once {A : Type} (P : Platform) (prepare : M Z) (call : Z -> M (Z * A))
      (st st0 st' : State) (fd rc : Z) (a : A) :
  prepare st = (Return fd, st0) ->
  call fd st0 = (Return (rc, a), st') ->
  0 <= rc ->
  transfer_loop P prepare call st = (Return (rc, a), st').
Proof.
  intros Hprep Hcall Hrc. unfold transfer_loop, loop. cbv beta.
  rewrite iterate_step.
  rewrite (bind_return _ _ _ _ _ Hprep), (bind_return _ _ _ _ _ Hcall).
  unfold transfer_interrupted.
  rewrite bind_assoc, bind_get_this, bind_assoc, bind_lastError, !bind_ret.
  simpl fst. destruct (Z.ltb_spec rc 0); [lia|].
  rewrite andb_false_r. reflexivity.
Qed.

Lemma transfer_failed_not (P : Platform) (rc : Z) (st : State) :
  0 <= rc -> transfer_failed P rc st = (Return tt, st).
Proof.
  intros H. unfold transfer_failed. destruct (Z.ltb_spec rc 0); [lia | reflexivity].
Qed.

Lemma available_run (P : Platform) (st : State) (q : Reply) (rest : list Reply) :
  w_script (os st) = q :: rest -> r_rc q = 0 ->
  available P st
  = (Return (hd 0 (r_out q)), answered (sys_ioctl_FIONREAD (_sockfd (this st))) q st).
Proof.
  intros Hs Hrc. unfold available, ioctl_FIONREAD, os_query.
  rewrite bind_get_this, !bind_assoc.
  rewrite (bind_return _ _ _ _ _ (syscall_answered _ st q rest Hs)).
  rewrite bind_ret, Hrc. reflexivity.
Qed.

Lemma os_receive_run (x : Syscall) (buffer : list Z) (st : State) (r : Reply)
      (rest : list Reply) :
  w_script (os st) = r :: rest -> 0 <= r_rc r ->
  let n := Z.min (r_rc r) (Z.min (len buffer) (len (r_out r))) in
  os_receive x buffer st
  = (Return (n, overwrite buffer (take n (r_out r))), answered x r st).
Proof.
  intros Hs Hrc n. unfold os_receive.
  rewrite (bind_return _ _ _ _ _ (syscall_answered _ st r rest Hs)).
  pose proof (len_nonneg buffer). pose proof (len_nonneg (r_out r)).
  assert (Hm : moved (r_rc r) (Z.min (len buffer) (len (r_out r))) = n).
  { unfold moved, n. destruct (Z.ltb_spec (r_rc r) 0); [lia | reflexivity]. }
  rewrite Hm. destruct (Z.leb_spec 0 n); [reflexivity | unfold n in *; lia].
Qed.

Lemma len_Buffer_resize (buffer : list Z) (newSize : Z) :
  0 <= newSize -> len (Buffer_resize buffer newSize) = newSize.
Proof.
  intros H. unfold Buffer_resize, len.
  rewrite length_app, length_firstn, repeat_length. lia.
Qed.

Lemma Buffer_resize_shrink (buffer : list Z) (newSize : Z) :
  0 <= newSize <= len buffer -> Buffer_resize buffer newSize = take newSize buffer.
Proof.
  intros H. unfold Buffer_resize, take, len in *.
  replace (Z.to_nat newSize - length buffer)%nat with 0%nat by lia.
  apply app_nil_r.
Qed.

Lemma to_size_t_small (x : Z) : 0 <= x < 2147483648 -> to_size_t x = x.
Proof. intros H. unfold to_size_t. apply Z.mod_small. lia. Qed.

(** X9. receiveBytes(buffer, flags, timeout) when poll reports the socket
    readable, FIONREAD reports [avail] bytes and recv succeeds: the buffer
    is first grown to [avail] if it is smaller, and comes back holding
    exactly the bytes received, its size equal to the count returned,
    which is at most the larger of the buffer's size and [avail]. *)
Theorem receiveBytes_Buffer_fits_data (P : Platform) (buffer : list Z)
        (flags timeout : Z) (st st1 : State) (q r : Reply) (rest : list Reply)
        (avail : Z) :
  poll P timeout SELECT_READ st = (Return true, st1) ->
  _sockfd (this st1) <> POCO_INVALID_SOCKET ->
  w_script (os st1) = q :: r :: rest ->
  r_rc q = 0 -> r_out q = [avail] -> 0 <= avail < 2147483648 ->
  len buffer < 2147483648 ->
  0 <= r_rc r ->
  let size := Z.max (len buffer) avail in
  let n := Z.min (r_rc r) (Z.min size (len (r_out r))) in
  fst (receiveBytes_Buffer P buffer flags timeout st) = Return (n, take n (r_out r))
  /\ len (take n (r_out r)) = n
  /\ n <= size
  /\ calls (snd (receiveBytes_Buffer P buffer flags timeout st))
     = calls st1 ++ [sys_ioctl_FIONREAD (_sockfd (this st1));
                     sys_recv (_sockfd (this st1)) size flags].
Proof.
  intros Hpoll Hfd Hs Hq Hout Havail Hlen Hrc size n.
  pose proof (len_nonneg buffer) as Hnn. pose proof (len_nonneg (r_out r)) as Hnn'.
  set (grown := if len buffer <? to_size_t avail
                then Buffer_resize buffer (to_size_t avail) else buffer).
  assert (Hgrown : len grown = size).
  { unfold grown, size. rewrite to_size_t_small by assumption.
    destruct (Z.ltb_spec (len buffer) avail); [rewrite len_Buffer_resize|]; lia. }
  set (st2 := answered (sys_ioctl_FIONREAD (_sockfd (this st1))) q st1).
  assert (Hs2 : w_script (os st2) = r :: rest) by (apply (answered_script _ _ _ _ Hs)).
  assert (Hfd2 : _sockfd (this st2) <> POCO_INVALID_SOCKET) by exact Hfd.
  set (x := sys_recv (_sockfd (this st2)) (to_int (len grown)) flags).
  assert (Hn : 0 <= n <= size /\ n <= len (r_out r)) by (unfold n, size; lia).
  assert (Hlen_src : len (take n (r_out r)) = n) by (rewrite len_take; lia).
  assert (Hloop : transfer_loop P valid_sockfd
                    (fun fd => os_receive (sys_recv fd (to_int (len grown)) flags) grown) st2
                  = (Return (n, overwrite grown (take n (r_out r))), answered x r st2)).
  { apply (transfer_loop_once P valid_sockfd _ st2 st2 _ (_sockfd (this st2)));
      [apply valid_sockfd_set; exact Hfd2| |lia].
    pose proof (os_receive_run x grown st2 r rest Hs2 Hrc) as Hrun.
    cbv zeta in Hrun. rewrite Hgrown in Hrun. exact Hrun. }
  assert (Hrun : receiveBytes_Buffer P buffer flags timeout st
                 = (Return (n, take n (r_out r)), answered x r st2)).
  { unfold receiveBytes_Buffer. rewrite (bind_return _ _ _ _ _ Hpoll).
    rewrite (bind_return _ _ _ _ _ (available_run P st1 q _ Hs Hq)).
    rewrite Hout. simpl hd. fold st2. fold grown.
    rewrite (bind_return _ _ _ _ _ Hloop). cbv iota beta.
    rewrite (bind_return _ _ _ _ _ (transfer_failed_not P n _ (proj1 (proj1 Hn)))).
    assert (Hbuf : (if to_size_t n <? len (overwrite grown (take n (r_out r)))
                    then Buffer_resize (overwrite grown (take n (r_out r))) (to_size_t n)
                    else overwrite grown (take n (r_out r)))
                   = take n (r_out r)).
    { rewrite to_size_t_small by lia. rewrite len_overwrite, Hgrown.
      destruct (Z.ltb_spec n size) as [Hlt | Hge].
      - rewrite Buffer_resize_shrink by (rewrite len_overwrite; lia).
        rewrite <- Hlen_src at 1. apply take_overwrite. lia.
      - rewrite <- (take_all size (overwrite grown (take n (r_out r))))
          by (rewrite len_overwrite; lia).
        replace size with (len (take n (r_out r))) by lia.
        apply take_overwrite. lia. }
    rewrite Hbuf. reflexivity. }
  rewrite Hrun. simpl fst. simpl snd.
  split; [reflexivity|]. split; [exact Hlen_src|]. split; [lia|].
  unfold x. rewrite Hgrown, to_int_small by (unfold size; lia).
  rewrite calls_answered. unfold st2 at 1. rewrite calls_answered.
  rewrite <- app_assoc. reflexivity.
Qed.

Lemma receiveBytes_Buffer_fits_data_witness :
  poll linux 5000 SELECT_READ readable_state
  = (Return true, snd (poll linux 5000 SELECT_READ readable_state))
  /\ fst (receiveBytes_Buffer linux [0; 0] 0 5000 readable_state) = Return (3, [7; 8; 9]).
Proof.
  assert (Hpoll : poll linux 5000 SELECT_READ readable_state
                  = (Return true, snd (poll linux 5000 SELECT_READ readable_state)))
    by (vm_compute; reflexivity).
  split; [exact Hpoll|].
  assert (Hfd : _sockfd (this (snd (poll linux 5000 SELECT_READ readable_state)))
                <> POCO_INVALID_SOCKET) by (vm_compute; discriminate).
  apply (proj1 (receiveBytes_Buffer_fits_data linux [0; 0] 0 5000 readable_state _
                  (mkReply 0 0 0 [5] []) (mkReply 3 0 0 [7; 8; 9] []) [] 5
                  Hpoll Hfd eq_refl eq_refl eq_refl ltac:(lia)
                  ltac:(vm_compute; reflexivity) ltac:(vm_compute; discriminate))).
Defined.

(** ** Datagrams: sendTo and receiveFrom *)

(** init(af) on an unset handle when socket() succeeds. *)
Lemma init_creates (P : Platform) (af : Z) (st : State) (r : Reply) (rest : list Reply)
      (fd : Z) :
  _sockfd (this st) = POCO_INVALID_SOCKET ->
  w_script (os st) = r :: rest -> 0 <= r_rc r ->
  lowest_free (w_fds (os st)) = Some fd ->
  exists st1 : State,
    init P af st = (Return tt, st1)
    /\ _sockfd (this st1) = fd
    /\ _blocking (this st1) = _blocking (this st)
    /\ w_fds (os st1) = <[fd := 0]> (w_fds (os st))
    /\ calls st1 = calls st ++ [sys_socket af]
    /\ w_script (os st1) = rest
    /\ w_wire (os st1) = w_wire (os st).
Proof.
  intros Hunset Hs Hrc Hfree.
  pose proof (lowest_free_nonneg _ _ Hfree) as Hnn.
  eexists. split.
  - unfold init, initSocket. rewrite bind_get_this, Hunset. simpl poco_assert.
    rewrite bind_ret. unfold os_socket.
    rewrite (bind_return _ _ _ _ _ (os_open_run P _ st r rest fd Hs Hrc Hfree)).
    unfold bind, set_sockfd. cbv beta iota.
    unfold POCO_INVALID_SOCKET. destruct (Z.eqb_spec fd (-1)); [lia|]. reflexivity.
  - simpl. rewrite Hs. repeat split; reflexivity.
Qed.

(** init(af) on an unset handle when socket() fails. *)
Lemma init_fails (P : Platform) (af : Z) (st : State) (r : Reply) (rest : list Reply) :
  _sockfd (this st) = POCO_INVALID_SOCKET ->
  w_script (os st) = r :: rest -> r_rc r < 0 ->
  exists st1 : State,
    init P af st = (raised (codes P) (r_errno r) "", st1)
    /\ this st1 = this st
    /\ w_fds (os st1) = w_fds (os st)
    /\ calls st1 = calls st ++ [sys_socket af]
    /\ w_wire (os st1) = w_wire (os st).
Proof.
  intros Hunset Hs Hrc.
  set (st1 := snd (set_sockfd (-1) (answered (sys_socket af) r st))).
  exists st1. split.
  - unfold init, initSocket. rewrite bind_get_this, Hunset.
    simpl poco_assert. rewrite bind_ret. unfold os_socket, os_open.
    rewrite !bind_assoc.
    rewrite (bind_return _ _ _ _ _ (syscall_answered _ st r rest Hs)).
    rewrite bind_assoc, bind_get_fds.
    destruct (Z.leb_spec 0 (r_rc r)); [lia|]. rewrite bind_ret.
    unfold bind at 1. unfold set_sockfd at 1. cbv beta iota. fold st1.
    simpl when. unfold error_last. rewrite bind_lastError.
    assert (Herrno : w_errno (os st1) = r_errno r)
      by exact (answered_errno (sys_socket af) r st Hrc).
    change (error P (w_errno (os st1)) "" st1 = (raised (codes P) (r_errno r) "", st1)).
    rewrite Herrno. apply error_run.
  - split; [|repeat split; reflexivity].
    unfold st1. simpl. destruct (this st) as [fd b br rt stt sec]. simpl in *.
    rewrite Hunset. reflexivity.
Qed.

Lemma sending_run (x : Syscall) (data : list Z) (st : State) (r : Reply)
      (rest : list Reply) :
  w_script (os st) = r :: rest -> 0 <= r_rc r ->
  let n := Z.min (r_rc r) (len data) in
  sending x data st = (Return (n, tt), snd (transmit (take n data) (answered x r st))).
Proof.
  intros Hs Hrc n. unfold sending, os_transmit. rewrite bind_assoc.
  rewrite (bind_return _ _ _ _ _ (syscall_answered _ st r rest Hs)).
  pose proof (len_nonneg data).
  assert (Hm : moved (r_rc r) (len data) = n).
  { unfold moved, n. destruct (Z.ltb_spec (r_rc r) 0); [lia | reflexivity]. }
  rewrite Hm. destruct (Z.leb_spec 0 n); [reflexivity | unfold n in *; lia].
Qed.

(** No primitive of its own: only the steps that hold for every invariant. *)
Ltac no_prim := idtac; fail.

Section SendTo.

Variable P : Platform.
Variable address : SocketAddress.
Variable c : Z -> Syscall.
Variable data : list Z.

(** The body shared by the two forms of sendTo. *)
Let T : M Z :=
  let* '(rc, _) := transfer_loop P (lazy_sockfd P address)
                     (fun fd => sending (c fd) data) in
  do transfer_failed P rc then
  ret rc.

Lemma sendTo_creates (st : State) (r1 r2 : Reply) (rest : list Reply) (fd : Z) :
  _sockfd (this st) = POCO_INVALID_SOCKET ->
  w_script (os st) = r1 :: r2 :: rest ->
  lowest_free (w_fds (os st)) = Some fd ->
  0 <= r_rc r1 -> 0 <= r_rc r2 ->
  let n := Z.min (r_rc r2) (len data) in
  fst (T st) = Return n
  /\ _sockfd (this (snd (T st))) = fd
  /\ w_fds (os (snd (T st))) = <[fd := 0]> (w_fds (os st))
  /\ calls (snd (T st)) = calls st ++ [sys_socket (sa_af address); c fd]
  /\ w_wire (os (snd (T st))) = w_wire (os st) ++ take n data.
Proof.
  intros Hunset Hs Hfree Hrc1 Hrc2 n.
  destruct (init_creates P (sa_af address) st r1 _ fd Hunset Hs Hrc1 Hfree)
    as (st1 & Hinit & Hfd & _ & Hfds & Hcalls & Hs1 & Hwire).
  pose proof (lowest_free_nonneg _ _ Hfree) as Hnn.
  assert (Hprep : lazy_sockfd P address st = (Return fd, st1)).
  { unfold lazy_sockfd. rewrite bind_get_this, Hunset. simpl when.
    rewrite (bind_return _ _ _ _ _ Hinit), bind_get_this, Hfd. reflexivity. }
  pose proof (sending_run (c fd) data st1 r2 rest Hs1 Hrc2) as Hsend. cbv zeta in Hsend.
  fold n in Hsend.
  assert (Hn : 0 <= n) by (unfold n; pose proof (len_nonneg data); lia).
  assert (Hrun : T st = (Return n, snd (transmit (take n data) (answered (c fd) r2 st1)))).
  { unfold T.
    rewrite (bind_return _ _ _ _ _
               (transfer_loop_once P _ (fun fd => sending (c fd) data)
                                   st st1 _ fd n tt Hprep Hsend Hn)).
    cbv iota beta. rewrite (bind_return _ _ _ _ _ (transfer_failed_not P n _ Hn)).
    reflexivity. }
  rewrite Hrun. simpl fst. simpl snd.
  split; [reflexivity|]. split; [exact Hfd|]. split; [exact Hfds|].
  split.
  - change (calls (answered (c fd) r2 st1) = calls st ++ [sys_socket (sa_af address); c fd]).
    rewrite calls_answered, Hcalls, <- app_assoc. reflexivity.
  - simpl. rewrite Hwire. reflexivity.
Qed.

Lemma sendTo_no_socket (st : State) (r1 : Reply) (rest : list Reply) :
  _sockfd (this st) = POCO_INVALID_SOCKET ->
  w_script (os st) = r1 :: rest ->
  r_rc r1 < 0 -> r_errno r1 <> POCO_ENOERR (codes P) ->
  (exists e : Exception,
      translate (codes P) (r_errno r1) "" = Some e /\ fst (T st) = Throw e)
  /\ _sockfd (this (snd (T st))) = POCO_INVALID_SOCKET
  /\ w_fds (os (snd (T st))) = w_fds (os st)
  /\ calls (snd (T st)) = calls st ++ [sys_socket (sa_af address)]
  /\ w_wire (os (snd (T st))) = w_wire (os st).
Proof.
  intros Hunset Hs Hrc Herr.
  destruct (init_fails P (sa_af address) st r1 _ Hunset Hs Hrc)
    as (st1 & Hinit & Hthis & Hfds & Hcalls & Hwire).
  destruct (translate_raises (codes P) (r_errno r1) "" Herr) as (e & He).
  assert (Hraised : raised (codes P) (r_errno r1) "" = Throw e)
    by (unfold raised; rewrite He; reflexivity).
  rewrite Hraised in *.
  assert (Hrun : T st = (Throw e, st1)).
  { unfold T. apply bind_throw. unfold transfer_loop, loop. cbv beta.
    rewrite iterate_step.
    assert (Hprep : lazy_sockfd P address st = (Throw e, st1)).
    { unfold lazy_sockfd. rewrite bind_get_this, Hunset. simpl when.
      apply bind_throw. exact Hinit. }
    rewrite (bind_throw _ _ _ _ _ Hprep). reflexivity. }
  rewrite Hrun. simpl fst. simpl snd.
  split; [exists e; split; [exact He | reflexivity]|].
  split; [rewrite Hthis; exact Hunset|]. repeat split; assumption.
Qed.

Variable st0 : State.

(** The handle is set, and since [st0] only sendto or sendmsg were
    attempted. *)
Let inv : State -> Prop :=
  fun st => _sockfd (this st) <> POCO_INVALID_SOCKET /\ only_calls is_sendto_call st0 st.

Hypothesis c_sendto : forall fd, is_sendto_call (c fd) = true.

Lemma sendTo_only_sendto : keeps inv T (fun _ => True).
Proof.
  assert (Hsys : forall x, is_sendto_call x = true -> keeps inv (syscall x) (fun _ => True)).
  { intros x Hx. apply keeps_syscall.
    - intros r st [Hfd Hc]. split; [exact Hfd|].
      apply (calls_cons _ _ (x, Some r) st); [exact Hx | reflexivity | exact Hc].
    - intros st [Hfd Hc]. split; [exact Hfd|].
      apply (calls_cons _ _ (x, None) st); [exact Hx | reflexivity | exact Hc]. }
  assert (Htr : forall bytes, keeps inv (transmit bytes) (fun _ => True)).
  { intros bytes st [Hfd Hc]. split; [|auto]. split; [exact Hfd|].
    apply (calls_same _ _ st); [reflexivity | exact Hc]. }
  assert (Hlazy : keeps inv (lazy_sockfd P address) (fun _ => True)).
  { unfold lazy_sockfd.
    eapply keeps_bind; [apply keeps_get_this|].
    intros s (st & [Hfd _] & <-).
    destruct (Z.eqb_spec (_sockfd (this st)) POCO_INVALID_SOCKET); [contradiction|].
    simpl when. repeat keeps_step no_prim. }
  unfold T, transfer_loop, transfer_failed, transfer_interrupted, sending, os_transmit.
  repeat first
    [ apply Hlazy
    | apply Hsys; apply c_sendto
    | apply Htr
    | keeps_step no_prim ].
Qed.

End SendTo.

(** X10. sendTo on an unset handle creates the socket first: when socket()
    succeeds the handle takes the lowest free descriptor, the datagram is
    sent on it and the count of bytes the kernel accepted is returned;
    when socket() fails the error translator's exception for its errno is
    thrown, nothing is sent and the handle stays unset.  Both forms of
    sendTo behave so. *)
Theorem sendTo_opens_socket (P : Platform) (address : SocketAddress) (flags : Z)
        (st : State) (r1 : Reply) (rest : list Reply) :
  _sockfd (this st) = POCO_INVALID_SOCKET ->
  w_script (os st) = r1 :: rest ->
  (forall (buffer : list Z) (r2 : Reply) (rest' : list Reply) (fd : Z),
      rest = r2 :: rest' -> lowest_free (w_fds (os st)) = Some fd ->
      0 <= r_rc r1 -> 0 <= r_rc r2 ->
      let n := Z.min (r_rc r2) (len buffer) in
      let st' := snd (sendTo P buffer address flags st) in
      fst (sendTo P buffer address flags st) = Return n
      /\ _sockfd (this st') = fd
      /\ w_fds (os st') = <[fd := 0]> (w_fds (os st))
      /\ calls st' = calls st ++ [sys_socket (sa_af address);
                                  sys_sendto fd buffer flags address]
      /\ w_wire (os st') = w_wire (os st) ++ take n buffer)
  /\ (forall (buffers : list (list Z)) (r2 : Reply) (rest' : list Reply) (fd : Z),
         rest = r2 :: rest' -> lowest_free (w_fds (os st)) = Some fd ->
         0 <= r_rc r1 -> 0 <= r_rc r2 ->
         let n := Z.min (r_rc r2) (len (concat buffers)) in
         let st' := snd (sendTo_vec P buffers address flags st) in
         fst (sendTo_vec P buffers address flags st) = Return n
         /\ _sockfd (this st') = fd
         /\ w_fds (os st') = <[fd := 0]> (w_fds (os st))
         /\ calls st' = calls st ++ [sys_socket (sa_af address);
                                     sys_sendmsg fd buffers flags address]
         /\ w_wire (os st') = w_wire (os st) ++ take n (concat buffers))
  /\ (r_rc r1 < 0 -> r_errno r1 <> POCO_ENOERR (codes P) ->
      forall buffer : list Z,
        let st' := snd (sendTo P buffer address flags st) in
        (exists e : Exception,
            translate (codes P) (r_errno r1) "" = Some e
            /\ fst (sendTo P buffer address flags st) = Throw e)
        /\ _sockfd (this st') = POCO_INVALID_SOCKET
        /\ w_fds (os st') = w_fds (os st)
        /\ calls st' = calls st ++ [sys_socket (sa_af address)]
        /\ w_wire (os st') = w_wire (os st))
  /\ (r_rc r1 < 0 -> r_errno r1 <> POCO_ENOERR (codes P) ->
      forall buffers : list (list Z),
        let st' := snd (sendTo_vec P buffers address flags st) in
        (exists e : Exception,
            translate (codes P) (r_errno r1) "" = Some e
            /\ fst (sendTo_vec P buffers address flags st) = Throw e)
        /\ _sockfd (this st') = POCO_INVALID_SOCKET
        /\ w_fds (os st') = w_fds (os st)
        /\ calls st' = calls st ++ [sys_socket (sa_af address)]
        /\ w_wire (os st') = w_wire (os st)).
Proof.
  intros Hunset Hs. split; [|split; [|split]].
  - intros buffer r2 rest' fd -> Hfree Hrc1 Hrc2.
    exact (sendTo_creates P address (fun fd => sys_sendto fd buffer flags address) buffer
             st r1 r2 rest' fd Hunset Hs Hfree Hrc1 Hrc2).
  - intros buffers r2 rest' fd -> Hfree Hrc1 Hrc2.
    exact (sendTo_creates P address (fun fd => sys_sendmsg fd buffers flags address)
             (concat buffers) st r1 r2 rest' fd Hunset Hs Hfree Hrc1 Hrc2).
  - intros Hrc Herr buffer.
    exact (sendTo_no_socket P address (fun fd => sys_sendto fd buffer flags address) buffer
             st r1 rest Hunset Hs Hrc Herr).
  - intros Hrc Herr buffers.
    exact (sendTo_no_socket P address (fun fd => sys_sendmsg fd buffers flags address)
             (concat buffers) st r1 rest Hunset Hs Hrc Herr).
Qed.

Lemma sendTo_opens_socket_witness :
  _sockfd (this unset_state) = POCO_INVALID_SOCKET
  /\ lowest_free (w_fds (os unset_state)) = Some 1
  /\ fst (sendTo linux [1; 2; 3; 4; 5] peer 0 unset_state) = Return 4
  /\ w_wire (os (snd (sendTo linux [1; 2; 3; 4; 5] peer 0 unset_state))) = [1; 2; 3; 4]
  /\ _sockfd (this (snd (sendTo linux [1; 2; 3; 4; 5] peer 0 unset_state))) = 1
  /\ _sockfd (this no_socket_state) = POCO_INVALID_SOCKET
  /\ fst (sendTo_vec linux [[1; 2]; [3]] peer 0 no_socket_state)
     = Throw (exn_msg IOException "Too many open files" 24)
  /\ calls (snd (sendTo_vec linux [[1; 2]; [3]] peer 0 no_socket_state)) = [sys_socket 2]
  /\ _sockfd (this (snd (sendTo_vec linux [[1; 2]; [3]] peer 0 no_socket_state)))
     = POCO_INVALID_SOCKET.
Proof.
  assert (H1 : _sockfd (this unset_state) = POCO_INVALID_SOCKET) by reflexivity.
  assert (H2 : lowest_free (w_fds (os unset_state)) = Some 1) by (vm_compute; reflexivity).
  split; [exact H1|]. split; [exact H2|].
  destruct (proj1 (sendTo_opens_socket linux peer 0 unset_state (ok 0 0) [ok 4 0]
                     H1 eq_refl)
              [1; 2; 3; 4; 5] (ok 4 0) [] 1 eq_refl H2
              ltac:(vm_compute; discriminate) ltac:(vm_compute; discriminate))
    as (Hout & Hfd & _ & _ & Hwire).
  split; [exact Hout|]. split; [exact Hwire|]. split; [exact Hfd|].
  assert (H3 : _sockfd (this no_socket_state) = POCO_INVALID_SOCKET) by reflexivity.
  destruct (proj2 (proj2 (proj2 (sendTo_opens_socket linux peer 0 no_socket_state
                                   (failed 24 0) [] H3 eq_refl)))
              ltac:(reflexivity) ltac:(vm_compute; discriminate) [[1; 2]; [3]])
    as ((e & He & Hthrow) & Hunset & _ & Hcalls & _).
  assert (Htr : translate (codes linux) (r_errno (failed 24 0)) ""
                = Some (exn_msg IOException "Too many open files" 24)) by reflexivity.
  rewrite Htr in He. injection He as <-.
  split; [exact H3|]. split; [exact Hthrow|]. split; [exact Hcalls | exact Hunset].
Defined.

(** X11. sendTo on a set handle attempts nothing but sendto (sendmsg for
    the scatter/gather form), whatever the outcome: unlike sendBytes it
    does not consult the emulated send timeout, so it never polls, also on
    a blocking handle under timeout emulation with a non-zero timeout. *)
Theorem sendTo_skips_timeout_emulation (P : Platform) (address : SocketAddress)
        (flags : Z) (st : State) :
  _sockfd (this st) <> POCO_INVALID_SOCKET ->
  (forall buffer : list Z,
      only_calls is_sendto_call st (snd (sendTo P buffer address flags st)))
  /\ (forall buffers : list (list Z),
         only_calls is_sendto_call st (snd (sendTo_vec P buffers address flags st))).
Proof.
  intros Hfd. split.
  - intros buffer.
    apply (sendTo_only_sendto P address (fun fd => sys_sendto fd buffer flags address)
             buffer st (fun _ => eq_refl) st (conj Hfd (only_calls_refl _ st))).
  - intros buffers.
    apply (sendTo_only_sendto P address (fun fd => sys_sendmsg fd buffers flags address)
             (concat buffers) st (fun _ => eq_refl) st (conj Hfd (only_calls_refl _ st))).
Qed.

Lemma sendTo_skips_timeout_emulation_witness :
  _sockfd (this emulated_state) <> POCO_INVALID_SOCKET
  /\ _isBrokenTimeout (this emulated_state) = true
  /\ _sndTimeout (this emulated_state) = 5000
  /\ only_calls is_sendto_call emulated_state
                (snd (sendTo linux_broken_timeouts [1; 2] peer 0 emulated_state))
  /\ calls (snd (sendTo linux_broken_timeouts [1; 2] peer 0 emulated_state)) = [sys_sendto 3 [1; 2] 0 peer].
Proof.
  assert (H1 : _sockfd (this emulated_state) <> POCO_INVALID_SOCKET)
    by (vm_compute; discriminate).
  split; [exact H1|]. split; [reflexivity|]. split; [reflexivity|].
  split.
  - apply (proj1 (sendTo_skips_timeout_emulation linux_broken_timeouts peer 0 emulated_state H1)).
  - vm_compute. reflexivity.
Defined.

Lemma os_receive_from_run (x : Syscall) (buffer : list Z) (st : State) (r : Reply)
      (rest : list Reply) :
  w_script (os st) = r :: rest ->
  let n := moved (r_rc r) (Z.min (len buffer) (len (r_out r))) in
  os_receive_from x buffer st
  = (Return (n, (if 0 <=? n then overwrite buffer (take n (r_out r)) else buffer,
                 r_addr r)),
     answered x r st).
Proof.
  intros Hs n. unfold os_receive_from.
  rewrite (bind_return _ _ _ _ _ (syscall_answered _ st r rest Hs)). reflexivity.
Qed.

Lemma checkBrokenTimeout_skipped (P : Platform) (mode : Z) (st : State) :
  _isBrokenTimeout (this st) = false ->
  when (_blocking (this st)) (checkBrokenTimeout P mode) st = (Return tt, st).
Proof.
  intros Hb. destruct (_blocking (this st)); [|reflexivity]. simpl when.
  unfold checkBrokenTimeout. rewrite bind_get_this, Hb. reflexivity.
Qed.

(** One round of the loop of receiveFrom, for whatever the kernel replies. *)
Lemma receiveFrom_round (P : Platform) (buffer : list Z) (flags : Z) (st : State)
      (r : Reply) (rest : list Reply) (fuel : nat) :
  _sockfd (this st) <> POCO_INVALID_SOCKET ->
  w_script (os st) = r :: rest ->
  let x := sys_recvfrom (_sockfd (this st)) (len buffer) flags in
  let n := moved (r_rc r) (Z.min (len buffer) (len (r_out r))) in
  let body := fun _ : unit =>
                let* fd := valid_sockfd in
                let* res := os_receive_from (sys_recvfrom fd (len buffer) flags) buffer in
                let* again := transfer_interrupted P (fst res) in
                ret (if again then inl tt else inr res) in
  iterate (S fuel) body tt st
  = if _blocking (this st) && (n <? 0) && (w_errno (os (answered x r st)) =? POCO_EINTR (codes P))
    then iterate fuel body tt (answered x r st)
    else (Return (n, (if 0 <=? n then overwrite buffer (take n (r_out r)) else buffer,
                      r_addr r)),
          answered x r st).
Proof.
  intros Hfd Hs x n body. rewrite iterate_step. unfold body at 1.
  rewrite (bind_return _ _ _ _ _ (valid_sockfd_set st Hfd)).
  rewrite (bind_return _ _ _ _ _ (os_receive_from_run x buffer st r rest Hs)).
  fold n. unfold transfer_interrupted.
  rewrite bind_assoc, bind_get_this, bind_assoc, bind_lastError, !bind_ret.
  simpl fst. change (this (answered x r st)) with (this st). unfold E.
  destruct (_blocking (this st) && (n <? 0)
            && (w_errno (os (answered x r st)) =? POCO_EINTR (codes P)));
    reflexivity.
Qed.

(** X12. receiveFrom(buffer, length, address, flags) on a set handle
    without timeout emulation.  The sender's address is assigned exactly
    when the value returned is not negative, in whatever state the call is
    made.  A datagram that arrives is stored at the start of the buffer,
    the rest of the buffer and its size untouched, the count returned is
    at most the buffer's size, and the address is the one the kernel
    stored.  On a non-blocking handle a would-block failure returns the
    negative value with the buffer as it was and no address; on a blocking
    handle an interrupted call is made again. *)
Theorem receiveFrom_reports_sender (P : Platform) (buffer : list Z) (flags : Z)
        (st : State) :
  (forall (rc : Z) (data : list Z) (sender : option (list Z)),
      fst (receiveFrom P buffer flags st) = Return (rc, data, sender) ->
      (sender = None <-> rc < 0))
  /\ (forall (r : Reply) (rest : list Reply),
         _sockfd (this st) <> POCO_INVALID_SOCKET ->
         _isBrokenTimeout (this st) = false ->
         w_script (os st) = r :: rest ->
         let x := sys_recvfrom (_sockfd (this st)) (len buffer) flags in
         (0 <= r_rc r ->
          let n := Z.min (r_rc r) (Z.min (len buffer) (len (r_out r))) in
          receiveFrom P buffer flags st
          = (Return (n, overwrite buffer (take n (r_out r)), Some (r_addr r)),
             answered x r st)
          /\ n <= len buffer
          /\ len (overwrite buffer (take n (r_out r))) = len buffer
          /\ take n (overwrite buffer (take n (r_out r))) = take n (r_out r))
         /\ (r_rc r < 0 -> _blocking (this st) = false ->
             r_errno r = POCO_EAGAIN (codes P) \/ r_errno r = POCO_EWOULDBLOCK (codes P) ->
             receiveFrom P buffer flags st
             = (Return (r_rc r, buffer, None), answered x r st))
         /\ (r_rc r < 0 -> _blocking (this st) = true ->
             r_errno r = POCO_EINTR (codes P) ->
             receiveFrom P buffer flags st
             = receiveFrom P buffer flags (answered x r st))).
Proof.
  split.
  - intros rc data sender. unfold receiveFrom, bind.
    destruct (receiveFrom_raw P buffer flags st) as [[[rc' [data' storage]]|e|] st'];
      simpl; [|discriminate|discriminate].
    intros [= <- <- <-].
    destruct (Z.leb_spec 0 rc'); split; intros H'; try discriminate; try lia; reflexivity.
  - intros r rest Hfd Hbroken Hs x.
    pose proof (len_nonneg buffer) as Hnn. pose proof (len_nonneg (r_out r)) as Hnn'.
    set (body := fun _ : unit =>
                   let* fd := valid_sockfd in
                   let* res := os_receive_from (sys_recvfrom fd (len buffer) flags) buffer in
                   let* again := transfer_interrupted P (fst res) in
                   ret (if again then inl tt else inr res)).
    assert (Hstart : forall st1 : State,
               _isBrokenTimeout (this st1) = false ->
               receiveFrom P buffer flags st1
               = (let* '(rc, (buffer, storage)) :=
                    (let* res := loop body tt in
                     do transfer_failed P (fst res) then ret res) in
                  ret (rc, buffer, if 0 <=? rc then Some storage else None)) st1).
    { intros st1 Hb1. unfold receiveFrom, receiveFrom_raw.
      rewrite !bind_assoc, bind_get_this, bind_assoc.
      rewrite (bind_return _ _ _ _ _ (checkBrokenTimeout_skipped P SELECT_READ st1 Hb1)).
      rewrite !bind_assoc. reflexivity. }
    pose proof (receiveFrom_round P buffer flags st r rest (S (length rest)) Hfd Hs)
      as Hround.
    cbv zeta in Hround. fold body in Hround. fold x in Hround.
    assert (Hloop : loop body tt st = iterate (S (S (length rest))) body tt st).
    { unfold loop. rewrite Hs. reflexivity. }
    assert (Hnext : loop body tt (answered x r st)
                    = iterate (S (length rest)) body tt (answered x r st)).
    { unfold loop. simpl w_script. rewrite Hs. reflexivity. }
    rewrite <- Hloop, <- Hnext in Hround. clear Hloop Hnext.
    split; [|split].
    + intros Hrc n.
      assert (Hm : moved (r_rc r) (Z.min (len buffer) (len (r_out r))) = n).
      { unfold moved, n. destruct (Z.ltb_spec (r_rc r) 0); [lia | reflexivity]. }
      rewrite Hm in Hround.
      assert (Hn : 0 <= n <= len buffer /\ n <= len (r_out r)) by (unfold n; lia).
      destruct (Z.ltb_spec n 0) as [Habs|_]; [lia|].
      rewrite andb_false_r in Hround. simpl andb in Hround. cbv iota in Hround.
      destruct (Z.leb_spec 0 n) as [_|Habs]; [|lia].
      split.
      { rewrite (Hstart st Hbroken).
        rewrite !bind_assoc, (bind_return _ _ _ _ _ Hround).
        rewrite bind_assoc.
        rewrite (bind_return _ _ _ _ _ (transfer_failed_not P n _ (proj1 (proj1 Hn)))).
        rewrite !bind_ret. unfold ret.
        destruct (Z.leb_spec 0 n) as [_|Habs]; [reflexivity | lia]. }
      split; [lia|]. split; [apply len_overwrite|].
      assert (Hlen : len (take n (r_out r)) = n) by (rewrite len_take; lia).
      rewrite <- Hlen at 1. apply take_overwrite. lia.
    + intros Hrc Hnb Hwb.
      rewrite (moved_negative _ _ Hrc) in Hround. rewrite Hnb in Hround.
      simpl andb in Hround. cbv iota in Hround.
      destruct (Z.leb_spec 0 (r_rc r)) as [Habs|_]; [lia|].
      rewrite (Hstart st Hbroken).
      rewrite !bind_assoc, (bind_return _ _ _ _ _ Hround).
      rewrite bind_assoc. simpl fst.
      assert (Hfailed : transfer_failed P (r_rc r) (answered x r st)
                        = (Return tt, answered x r st)).
      { rewrite (transfer_failed_run P _ _ Hrc). cbv zeta.
        rewrite (answered_errno x r st Hrc).
        change (this (answered x r st)) with (this st). rewrite Hnb.
        assert (Hw : (r_errno r =? POCO_EAGAIN (codes P))
                     || (r_errno r =? POCO_EWOULDBLOCK (codes P)) = true).
        { rewrite orb_true_iff, !Z.eqb_eq. exact Hwb. }
        rewrite Hw. reflexivity. }
      rewrite (bind_return _ _ _ _ _ Hfailed). rewrite !bind_ret. unfold ret.
      destruct (Z.leb_spec 0 (r_rc r)) as [Habs|_]; [lia | reflexivity].
    + intros Hrc Hb He.
      rewrite (moved_negative _ _ Hrc) in Hround. rewrite Hb in Hround.
      rewrite (answered_errno x r st Hrc), He, Z.eqb_refl in Hround.
      destruct (Z.ltb_spec (r_rc r) 0) as [_|Habs]; [|lia].
      simpl andb in Hround. cbv iota in Hround.
      rewrite (Hstart st Hbroken), (Hstart (answered x r st) Hbroken).
      rewrite !bind_assoc. unfold bind at 1 3. rewrite Hround. reflexivity.
Qed.

Lemma receiveFrom_reports_sender_witness :
  _sockfd (this datagram_state) <> POCO_INVALID_SOCKET
  /\ _isBrokenTimeout (this datagram_state) = false
  /\ fst (receiveFrom linux [0; 0; 0] 0 datagram_state)
     = Return (2, [7; 8; 0], Some [192; 0; 2; 1])
  /\ _blocking (this empty_queue_state) = false
  /\ fst (receiveFrom linux [0; 0; 0] 0 empty_queue_state) = Return (-1, [0; 0; 0], None).
Proof.
  assert (H1 : _sockfd (this datagram_state) <> POCO_INVALID_SOCKET)
    by (vm_compute; discriminate).
  assert (H2 : _sockfd (this empty_queue_state) <> POCO_INVALID_SOCKET)
    by (vm_compute; discriminate).
  split; [exact H1|]. split; [reflexivity|]. split.
  - destruct (proj1 (proj2 (receiveFrom_reports_sender linux [0; 0; 0] 0 datagram_state)
                       (mkReply 2 0 0 [7; 8] [192; 0; 2; 1]) [] H1 eq_refl eq_refl)
                ltac:(vm_compute; discriminate)) as (Hrun & _).
    rewrite Hrun. reflexivity.
  - split; [reflexivity|].
    rewrite (proj1 (proj2 (proj2 (receiveFrom_reports_sender linux [0; 0; 0] 0
                                    empty_queue_state)
                             (failed 11 0) [] H2 eq_refl eq_refl))
               ltac:(vm_compute; reflexivity) eq_refl (or_introl eq_refl)).
    reflexivity.
Defined.

(** ** setReusePort *)

(** What setOption makes of the reply to its setsockopt. *)
Lemma setOption_run (P : Platform) (opt : OptionName) (value : Z) (st : State)
      (r : Reply) (rest : list Reply) :
  _sockfd (this st) <> POCO_INVALID_SOCKET ->
  w_script (os st) = r :: rest ->
  setOption P opt value st
  = (if r_rc r =? -1 then raised (codes P) (r_errno r) "" else Return tt,
     answered (sys_setsockopt (_sockfd (this st)) opt [value]) r st).
Proof.
  intros Hfd Hs. unfold setOption, setRawOption.
  rewrite (bind_return _ _ _ _ _ (valid_sockfd_set st Hfd)).
  rewrite (bind_return _ _ _ _ _ (os_call_answered _ st r rest Hs)).
  destruct (Z.eqb_spec (r_rc r) (-1)) as [Hrc|]; [|reflexivity].
  simpl when. unfold error_last. rewrite bind_lastError.
  rewrite answered_errno by lia. apply error_run.
Qed.

(** X13. setReusePort(flag) swallows every failure whose exception derives
    from IOException: on an unset handle it returns, the state unchanged,
    where the other option setters throw InvalidSocketException; on a set
    handle it makes one setsockopt call and returns unless the call fails
    with a code that the error translator turns into
    InvalidArgumentException or TimeoutException, the only two classes it
    lets through. *)
Theorem setReusePort_swallows_io_errors (P : Platform) (flag : bool) (st : State) :
  (_sockfd (this st) = POCO_INVALID_SOCKET ->
   setReusePort P flag st = (Return tt, st)
   /\ setReuseAddress P flag st = (Throw InvalidSocket, st))
  /\ (forall (e : Exception) (st' : State),
         setReusePort P flag st = (Throw e, st') ->
         is_IOException (ex_kind e) = false
         /\ (ex_kind e = InvalidArgumentException \/ ex_kind e = TimeoutException))
  /\ (forall (r : Reply) (rest : list Reply),
         _sockfd (this st) <> POCO_INVALID_SOCKET ->
         w_script (os st) = r :: rest ->
         snd (setReusePort P flag st)
         = answered (sys_setsockopt (_sockfd (this st)) SO_REUSEPORT
                                    [if flag then 1 else 0]) r st
         /\ (r_rc r <> -1 -> fst (setReusePort P flag st) = Return tt)
         /\ (forall e : Exception,
                r_rc r = -1 -> translate (codes P) (r_errno r) "" = Some e ->
                fst (setReusePort P flag st)
                = if is_IOException (ex_kind e) then Return tt else Throw e)).
Proof.
  split; [|split].
  - intros Hunset. split.
    + unfold setReusePort, try_catch_IOException.
      rewrite (setRawOption_unset P SO_REUSEPORT _ st Hunset : 
                 setOption P SO_REUSEPORT (if flag then 1 else 0) st
                 = (Throw InvalidSocket, st)).
      reflexivity.
    + apply (setRawOption_unset P SO_REUSEADDR _ st Hunset).
  - intros e st'. unfold setReusePort, try_catch_IOException.
    destruct (Z.eq_dec (_sockfd (this st)) POCO_INVALID_SOCKET) as [Hunset | Hfd].
    { rewrite (setRawOption_unset P SO_REUSEPORT _ st Hunset : 
                 setOption P SO_REUSEPORT (if flag then 1 else 0) st
                 = (Throw InvalidSocket, st)).
      simpl. discriminate. }
    destruct (w_script (os st)) as [|r rest] eqn:Hs.
    { unfold setOption, setRawOption.
      rewrite (bind_return _ _ _ _ _ (valid_sockfd_set st Hfd)).
      unfold os_call. rewrite bind_assoc.
      rewrite (bind_hang _ _ _ _ (syscall_blocked _ st Hs)). discriminate. }
    rewrite (setOption_run P SO_REUSEPORT _ st r rest Hfd Hs).
    destruct (r_rc r =? -1); [|discriminate].
    unfold raised.
    destruct (translate (codes P) (r_errno r) "") as [e'|] eqn:Htr; [|discriminate].
    pose proof (translate_class _ _ _ _ Htr) as Hkind.
    destruct (is_IOException (ex_kind e')) eqn:Hio; [discriminate|].
    intros [= <- <-]. split; [exact Hio|].
    unfold translator_classes in Hkind. simpl in Hkind.
    destruct Hkind as [H|[H|[H|[H|[H|[H|[H|[]]]]]]]]; rewrite <- H in Hio |- *;
      try discriminate; auto.
  - intros r rest Hfd Hs. unfold setReusePort, try_catch_IOException.
    rewrite (setOption_run P SO_REUSEPORT _ st r rest Hfd Hs).
    destruct (Z.eqb_spec (r_rc r) (-1)) as [Hrc | Hrc].
    + unfold raised.
      destruct (translate (codes P) (r_errno r) "") as [e'|] eqn:He; simpl.
      * destruct (is_IOException (ex_kind e')) eqn:Hio; simpl.
        { split; [reflexivity|]. split; [intros; reflexivity|].
          intros e _ [= <-]. rewrite Hio. reflexivity. }
        { split; [reflexivity|]. split; [intros Habs; contradiction|].
          intros e _ [= <-]. rewrite Hio. reflexivity. }
      * split; [reflexivity|]. split; [reflexivity|]. intros e _ Habs. discriminate.
    + simpl. split; [reflexivity|]. split; [reflexivity|]. intros e Habs. contradiction.
Qed.

Lemma setReusePort_swallows_io_errors_witness :
  _sockfd (this unset_state) = POCO_INVALID_SOCKET
  /\ setReusePort linux true unset_state = (Return tt, unset_state)
  /\ _sockfd (this (failing_state 92)) <> POCO_INVALID_SOCKET
  /\ translate (codes linux) 92 "" = Some (exn_msg NetException "Protocol not available" 92)
  /\ fst (setReusePort linux true (failing_state 92)) = Return tt
  /\ fst (setReusePort linux true (failing_state 22))
     = Throw (exn_code InvalidArgumentException 22).
Proof.
  assert (H1 : _sockfd (this unset_state) = POCO_INVALID_SOCKET) by reflexivity.
  assert (H2 : _sockfd (this (failing_state 92)) <> POCO_INVALID_SOCKET)
    by (vm_compute; discriminate).
  assert (H3 : _sockfd (this (failing_state 22)) <> POCO_INVALID_SOCKET)
    by (vm_compute; discriminate).
  split; [exact H1|].
  split; [apply (proj1 (setReusePort_swallows_io_errors linux true unset_state) H1)|].
  split; [exact H2|]. split; [reflexivity|]. split.
  - destruct (proj2 (proj2 (setReusePort_swallows_io_errors linux true (failing_state 92)))
                (failed 92 0) [] H2 eq_refl) as (_ & _ & H).
    rewrite (H _ eq_refl eq_refl). reflexivity.
  - destruct (proj2 (proj2 (setReusePort_swallows_io_errors linux true (failing_state 22)))
                (failed 22 0) [] H3 eq_refl) as (_ & _ & H).
    rewrite (H (exn_code InvalidArgumentException 22) eq_refl eq_refl). reflexivity.
Defined.

(** ** The life of a handle: construction, adoption, close and re-use *)

Lemma init_set (P : Platform) (af : Z) (st : State) :
  _sockfd (this st) <> POCO_INVALID_SOCKET ->
  exists e : Exception,
    init P af st = (Throw e, st) /\ ex_kind e = AssertionViolationException.
Proof.
  intros Hfd. unfold init, initSocket. rewrite bind_get_this.
  destruct (Z.eqb_spec (_sockfd (this st)) POCO_INVALID_SOCKET); [contradiction|].
  eexists. split; reflexivity.
Qed.

(** X14. init(af) and useFileDescriptor(fd) refuse a handle that is set:
    they throw an exception of class AssertionViolationException with the
    state unchanged, so no socket is created.  After close(), whatever the
    handle was, both are accepted: useFileDescriptor adopts the descriptor,
    and init gives the handle the lowest descriptor that is free once the
    old one is closed (which may be the old number again).  A handle as the
    default constructor makes it is unset and blocking, with the emulation
    flag of the build; one made from a descriptor closes exactly that
    descriptor when destroyed. *)
Theorem handle_reusable_after_close (P : Platform) (af : Z) (st : State) :
  (_sockfd (this st) <> POCO_INVALID_SOCKET ->
   (exists e : Exception,
       init P af st = (Throw e, st) /\ ex_kind e = AssertionViolationException)
   /\ forall fd : Z,
       exists e : Exception,
         useFileDescriptor fd st = (Throw e, st)
         /\ ex_kind e = AssertionViolationException)
  /\ (exists st1 : State,
         close P st = (Return tt, st1)
         /\ (forall fd : Z,
                fst (useFileDescriptor fd st1) = Return tt
                /\ _sockfd (this (snd (useFileDescriptor fd st1))) = fd
                /\ os (snd (useFileDescriptor fd st1)) = os st1)
         /\ (forall (r : Reply) (rest : list Reply) (fd : Z),
                w_script (os st) = r :: rest -> 0 <= r_rc r ->
                lowest_free (w_fds (os st1)) = Some fd ->
                fst (init P af st1) = Return tt
                /\ _sockfd (this (snd (init P af st1))) = fd
                /\ w_fds (os (snd (init P af st1))) = <[fd := 0]> (w_fds (os st1))))
  /\ (forall w : World,
         _sockfd (SocketImpl_new P) = POCO_INVALID_SOCKET
         /\ _blocking (SocketImpl_new P) = true
         /\ _isBrokenTimeout (SocketImpl_new P) = POCO_BROKEN_TIMEOUTS P
         /\ close P (mkState (SocketImpl_new P) w)
            = (Return tt, mkState (SocketImpl_new P) w))
  /\ (forall (w : World) (fd : Z),
         fd <> POCO_INVALID_SOCKET ->
         fst (close P (mkState (SocketImpl_adopt P fd) w)) = Return tt
         /\ calls (snd (close P (mkState (SocketImpl_adopt P fd) w)))
            = calls (mkState (SocketImpl_adopt P fd) w) ++ [sys_close fd]
         /\ w_fds (os (snd (close P (mkState (SocketImpl_adopt P fd) w))))
            = delete fd (w_fds w)).
Proof.
  split; [|split; [|split]].
  - intros Hfd. split; [apply init_set; exact Hfd|].
    intros fd. unfold useFileDescriptor. rewrite bind_get_this.
    destruct (Z.eqb_spec (_sockfd (this st)) POCO_INVALID_SOCKET); [contradiction|].
    eexists. split; reflexivity.
  - assert (Hclose : exists st1 : State,
               close P st = (Return tt, st1)
               /\ _sockfd (this st1) = POCO_INVALID_SOCKET
               /\ w_script (os st1) = w_script (os st)).
    { destruct (Z.eq_dec (_sockfd (this st)) POCO_INVALID_SOCKET) as [Hu | Hs].
      - exists st. split; [apply close_unset, Hu|]. split; [exact Hu | reflexivity].
      - destruct (close_set P st Hs) as (st1 & Hc & Hfd & _ & _ & Hscript & _).
        exists st1. split; [exact Hc|]. split; assumption. }
    destruct Hclose as (st1 & Hc & Hunset & Hscript).
    exists st1. split; [exact Hc|]. split.
    + intros fd. unfold useFileDescriptor. rewrite bind_get_this, Hunset.
      repeat split; reflexivity.
    + intros r rest fd Hs Hrc Hfree. rewrite <- Hscript in Hs.
      destruct (init_creates P af st1 r rest fd Hunset Hs Hrc Hfree)
        as (st2 & Hinit & Hfd & _ & Hfds & _).
      rewrite Hinit. repeat split; assumption.
  - intros w. split; [reflexivity|]. split; [reflexivity|]. split; [reflexivity|].
    apply close_unset. reflexivity.
  - intros w fd Hfd.
    destruct (close_set P (mkState (SocketImpl_adopt P fd) w) Hfd)
      as (st1 & Hc & _ & Hcalls & Hfds & _).
    rewrite Hc. repeat split; assumption.
Qed.

Lemma handle_reusable_after_close_witness :
  _sockfd (this plain_state) <> POCO_INVALID_SOCKET
  /\ (exists e : Exception,
         init linux 2 plain_state = (Throw e, plain_state)
         /\ ex_kind e = AssertionViolationException)
  /\ fst ((do close linux then init linux 2) plain_state) = Return tt
  /\ _sockfd (this (snd ((do close linux then init linux 2) plain_state))) = 0.
Proof.
  assert (H1 : _sockfd (this plain_state) <> POCO_INVALID_SOCKET)
    by (vm_compute; discriminate).
  split; [exact H1|].
  split; [apply (proj1 (handle_reusable_after_close linux 2 plain_state) H1)|].
  destruct (proj1 (proj2 (handle_reusable_after_close linux 2 plain_state)))
    as (st1 & Hc & _ & Hinit).
  rewrite (bind_return _ _ _ _ _ Hc).
  assert (Hst1 : st1 = snd (close linux plain_state)) by (rewrite Hc; reflexivity).
  destruct (Hinit (ok 8192 0) [ok 8192 0] 0 eq_refl ltac:(vm_compute; discriminate))
    as (Hout & Hfd & _).
  { rewrite Hst1. vm_compute. reflexivity. }
  split; assumption.
Defined.

(** ** Calls that are made once *)

(** X15. listen, shutdownReceive, shutdownSend, shutdown and sendUrgent do
    not retry an interrupted system call: on a set handle whose call fails
    with EINTR each of them attempts that one call and throws what the
    error translator makes of EINTR (IOException "Interrupted" where EINTR
    is not also the no-error, not-ready or not-initialised code), where
    the transfer functions would call again. *)
Theorem control_calls_not_retried (P : Platform) (st : State) (r : Reply)
        (rest : list Reply) :
  _sockfd (this st) <> POCO_INVALID_SOCKET ->
  w_script (os st) = r :: rest ->
  r_rc r < 0 -> r_errno r = POCO_EINTR (codes P) ->
  POCO_EINTR (codes P) <> POCO_ENOERR (codes P) ->
  exists e : Exception,
    translate (codes P) (POCO_EINTR (codes P)) "" = Some e
    /\ (POCO_EINTR (codes P) <> POCO_ESYSNOTREADY (codes P) ->
        POCO_EINTR (codes P) <> POCO_ENOTINIT (codes P) ->
        e = exn_msg IOException "Interrupted" (POCO_EINTR (codes P)))
    /\ (forall backlog : Z,
           listen P backlog st
           = (Throw e, answered (sys_listen (_sockfd (this st)) backlog) r st))
    /\ shutdownReceive P st
       = (Throw e, answered (sys_shutdown (_sockfd (this st)) 0) r st)
    /\ shutdownSend P st
       = (Throw e, answered (sys_shutdown (_sockfd (this st)) 1) r st)
    /\ shutdown P st
       = (Throw e, answered (sys_shutdown (_sockfd (this st)) 2) r st)
    /\ (forall data : Z,
           sendUrgent P data st
           = (Throw e, answered (sys_send (_sockfd (this st)) [data] MSG_OOB) r st)).
Proof.
  intros Hfd Hs Hrc Herrno Hcode.
  destruct (translate_raises (codes P) (POCO_EINTR (codes P)) "" Hcode) as (e & He).
  exists e. split; [exact He|].
  assert (Hfail : forall x : Syscall,
             error_last P (answered x r st) = (Throw e, answered x r st)).
  { intros x. unfold error_last. rewrite bind_lastError.
    rewrite (answered_errno x r st Hrc), Herrno, error_run. unfold raised.
    rewrite He. reflexivity. }
  assert (Hn0 : (r_rc r =? 0) = false) by (apply Z.eqb_neq; lia).
  split.
  { intros H1 H2. revert He. unfold translate, error_arms, switch.
    destruct (Z.eqb_spec (POCO_EINTR (codes P)) (POCO_ENOERR (codes P))); [contradiction|].
    destruct (Z.eqb_spec (POCO_EINTR (codes P)) (POCO_ESYSNOTREADY (codes P)));
      [contradiction|].
    destruct (Z.eqb_spec (POCO_EINTR (codes P)) (POCO_ENOTINIT (codes P)));
      [contradiction|].
    rewrite Z.eqb_refl. intros [= <-]. reflexivity. }
  split; [|split; [|split; [|split]]].
  - intros backlog. unfold listen.
    rewrite (bind_return _ _ _ _ _ (valid_sockfd_set st Hfd)).
    rewrite (bind_return _ _ _ _ _ (os_call_answered _ st r rest Hs)).
    rewrite Hn0. apply Hfail.
  - unfold shutdownReceive.
    rewrite (bind_return _ _ _ _ _ (valid_sockfd_set st Hfd)).
    rewrite (bind_return _ _ _ _ _ (os_call_answered _ st r rest Hs)).
    rewrite Hn0. apply Hfail.
  - unfold shutdownSend.
    rewrite (bind_return _ _ _ _ _ (valid_sockfd_set st Hfd)).
    rewrite (bind_return _ _ _ _ _ (os_call_answered _ st r rest Hs)).
    rewrite Hn0. simpl when. apply bind_throw, Hfail.
  - unfold shutdown.
    rewrite (bind_return _ _ _ _ _ (valid_sockfd_set st Hfd)).
    rewrite (bind_return _ _ _ _ _ (os_call_answered _ st r rest Hs)).
    rewrite Hn0. simpl when. apply bind_throw, Hfail.
  - intros data. unfold sendUrgent.
    rewrite (bind_return _ _ _ _ _ (valid_sockfd_set st Hfd)).
    assert (Hsend : os_transmit (sys_send (_sockfd (this st)) [data] MSG_OOB) [data] st
                    = (Return (r_rc r),
                       answered (sys_send (_sockfd (this st)) [data] MSG_OOB) r st)).
    { pose proof (sending_fails (sys_send (_sockfd (this st)) [data] MSG_OOB) [data]
                                st r rest Hs Hrc) as H.
      unfold sending, bind in H.
      destruct (os_transmit _ _ st) as [[rc|e'|] st'];
        [injection H as -> ->; reflexivity | discriminate | discriminate]. }
    rewrite (bind_return _ _ _ _ _ Hsend).
    destruct (Z.ltb_spec (r_rc r) 0); [|lia]. apply Hfail.
Qed.

Lemma control_calls_not_retried_witness :
  _sockfd (this interrupted_state) <> POCO_INVALID_SOCKET
  /\ r_rc (failed 4 0) < 0
  /\ POCO_EINTR (codes linux) <> POCO_ENOERR (codes linux)
  /\ listen linux 64 interrupted_state
     = (Throw (exn_msg IOException "Interrupted" 4),
        answered (sys_listen 3 64) (failed 4 0) interrupted_state).
Proof.
  assert (H1 : _sockfd (this interrupted_state) <> POCO_INVALID_SOCKET)
    by (vm_compute; discriminate).
  assert (H2 : r_rc (failed 4 0) < 0) by (vm_compute; reflexivity).
  assert (H3 : POCO_EINTR (codes linux) <> POCO_ENOERR (codes linux))
    by (vm_compute; discriminate).
  split; [exact H1|]. split; [exact H2|]. split; [exact H3|].
  destruct (control_calls_not_retried linux interrupted_state (failed 4 0) []
              H1 eq_refl H2 eq_refl H3) as (e & _ & He & Hlisten & _).
  rewrite (Hlisten 64).
  rewrite (He ltac:(vm_compute; discriminate) ltac:(vm_compute; discriminate)).
  reflexivity.
Defined.

(** ** sendFile through the chunked fallback, when a send is cut short *)

(** sendBytes on a set handle without timeout emulation, when the kernel
    accepts some of the data. *)
Lemma sendBytes_run (P : Platform) (data : list Z) (flags : Z) (st : State)
      (r : Reply) (rest : list Reply) :
  _sockfd (this st) <> POCO_INVALID_SOCKET ->
  _isBrokenTimeout (this st) = false ->
  w_script (os st) = r :: rest -> 0 <= r_rc r ->
  let n := Z.min (r_rc r) (len data) in
  sendBytes P data flags st
  = (Return n,
     snd (transmit (take n data) (answered (sys_send (_sockfd (this st)) data flags) r st))).
Proof.
  intros Hfd Hbroken Hs Hrc n. unfold sendBytes. rewrite bind_get_this.
  rewrite (bind_return _ _ _ _ _ (checkBrokenTimeout_skipped P SELECT_WRITE st Hbroken)).
  assert (Hn : 0 <= n) by (unfold n; pose proof (len_nonneg data); lia).
  rewrite (bind_return _ _ _ _ _
             (transfer_loop_once P valid_sockfd
                (fun fd => sending (sys_send fd data flags) data) st st _ _ n tt
                (valid_sockfd_set st Hfd)
                (sending_run (sys_send (_sockfd (this st)) data flags) data st r rest Hs Hrc)
                Hn)).
  cbv iota beta. rewrite (bind_return _ _ _ _ _ (transfer_failed_not P n _ Hn)).
  reflexivity.
Qed.

Lemma sendFileBlockwise_round_split (P : Platform) (count : Z) (v : Blockwise)
      (st : State) :
  sendFileBlockwise_round P count v st
  = if (0 <? bw_n v) && ((count =? 0) || (bw_len v <? count))
    then (let* _ := sendBytes P (take (to_int (bw_n v)) (bw_buffer v)) 0 in
          ret (inl (blockwise_next count v))) st
    else (Return (inr (bw_len v, bw_stream v)), st).
Proof.
  unfold sendFileBlockwise_round, blockwise_next.
  destruct ((0 <? bw_n v) && ((count =? 0) || (bw_len v <? count))); [|reflexivity].
  cbv zeta. destruct (fis_ok (bw_stream v)); [|reflexivity].
  destruct (read (bw_stream v) _) as [chunk f]. reflexivity.
Qed.

Section ShortSends.

Variable P : Platform.
Variable f0 : FileInputStream.
Variables offset count : Z.

Hypothesis offset_range : 0 <= offset <= size f0.
Hypothesis count_nonneg : 0 <= count.



End ShortSends.





(** ** poll over epoll, when the queue cannot be set up *)

(** X17. In the epoll build, poll(timeout, mode) on a set handle throws
    when the queue cannot be set up, and waits for nothing: if epoll_create
    fails it is the only call attempted and the exception is the error
    translator's for its errno, with "Can't create epoll queue" as context;
    if epoll_ctl fails the queue's descriptor is closed again before the
    exception for its errno is thrown, with "Can't insert socket to epoll
    queue" as context, and the table of open descriptors is as before. *)
Theorem poll_epoll_setup_failure (P : Platform) (timeout mode : Z) (st : State)
        (r1 : Reply) (rest : list Reply) :
  poll_backend P = FD_EPOLL ->
  _sockfd (this st) <> POCO_INVALID_SOCKET ->
  w_script (os st) = r1 :: rest ->
  (r_rc r1 < 0 -> r_errno r1 <> POCO_ENOERR (codes P) ->
   exists e : Exception,
     translate (codes P) (r_errno r1) "Can't create epoll queue" = Some e
     /\ poll P timeout mode st = (Throw e, answered sys_epoll_create r1 st))
  /\ (forall (r2 : Reply) (rest' : list Reply) (epollfd : Z),
         0 <= r_rc r1 -> lowest_free (w_fds (os st)) = Some epollfd ->
         rest = r2 :: rest' ->
         r_rc r2 < 0 -> r_errno r2 <> POCO_ENOERR (codes P) ->
         exists e : Exception,
           translate (codes P) (r_errno r2) "Can't insert socket to epoll queue" = Some e
           /\ fst (poll P timeout mode st) = Throw e
           /\ calls (snd (poll P timeout mode st))
              = calls st ++ [sys_epoll_create;
                             sys_epoll_ctl_add epollfd (_sockfd (this st))
                                               (has_flag mode SELECT_READ)
                                               (has_flag mode SELECT_WRITE)
                                               (has_flag mode SELECT_ERROR);
                             sys_close epollfd]
           /\ w_fds (os (snd (poll P timeout mode st))) = w_fds (os st)
           /\ w_script (os (snd (poll P timeout mode st))) = rest').
Proof.
  intros Hbackend Hfd Hs. split.
  - intros Hrc Herr.
    destruct (translate_raises (codes P) (r_errno r1) "Can't create epoll queue" Herr)
      as (e & He).
    exists e. split; [exact He|].
    unfold poll. rewrite Hbackend. unfold poll_epoll.
    rewrite (bind_return _ _ _ _ _ (valid_sockfd_set st Hfd)).
    assert (Hopen : os_epoll_create P st = (Return (-1), answered sys_epoll_create r1 st)).
    { unfold os_epoll_create, os_open.
      rewrite (bind_return _ _ _ _ _ (syscall_answered _ st r1 rest Hs)).
      rewrite bind_get_fds. destruct (Z.leb_spec 0 (r_rc r1)); [lia | reflexivity]. }
    rewrite (bind_return _ _ _ _ _ Hopen). simpl when.
    apply bind_throw. unfold error_arg. rewrite bind_lastError.
    rewrite (answered_errno _ r1 st Hrc), error_run. unfold raised. rewrite He.
    reflexivity.
  - intros r2 rest' epollfd Hrc1 Hfree -> Hrc2 Herr.
    destruct (translate_raises (codes P) (r_errno r2)
                "Can't insert socket to epoll queue" Herr) as (e & He).
    exists e. split; [exact He|].
    pose proof (lowest_free_nonneg _ _ Hfree) as Hnn.
    pose proof (lowest_free_free _ _ Hfree) as Hnone.
    set (sb := snd (put_fds (<[epollfd := 0]> (w_fds (os st)))
                            (answered sys_epoll_create r1 st))).
    assert (Hsb : w_script (os sb) = r2 :: rest').
    { unfold sb. simpl. rewrite Hs. reflexivity. }
    set (x := sys_epoll_ctl_add epollfd (_sockfd (this st)) (has_flag mode SELECT_READ)
                                (has_flag mode SELECT_WRITE) (has_flag mode SELECT_ERROR)).
    set (sc := answered x r2 sb).
    set (sd := decided (sys_close epollfd) 0 0 (delete epollfd (w_fds (os sc))) sc).
    assert (Hrun : poll P timeout mode st = (Throw e, sd)).
    { unfold poll. rewrite Hbackend. unfold poll_epoll.
      rewrite (bind_return _ _ _ _ _ (valid_sockfd_set st Hfd)).
      unfold os_epoll_create.
      rewrite (bind_return _ _ _ _ _ (os_open_run P _ st r1 _ epollfd Hs Hrc1 Hfree)).
      fold sb. destruct (Z.ltb_spec epollfd 0) as [|_]; [lia|]. simpl when.
      rewrite bind_ret.
      rewrite (bind_return _ _ _ _ _ (os_call_answered _ sb r2 _ Hsb)).
      fold x. fold sc.
      destruct (Z.ltb_spec (r_rc r2) 0) as [_|]; [|lia]. simpl when.
      apply bind_throw. unfold os_close. rewrite !bind_assoc, bind_get_fds.
      assert (Hopen : w_fds (os sc) !! epollfd = Some 0) by (apply lookup_insert_eq).
      rewrite Hopen, bind_kernel. fold sd.
      unfold error_arg. rewrite bind_lastError.
      assert (Herrno : w_errno (os sd) = r_errno r2)
        by exact (answered_errno x r2 sb Hrc2).
      rewrite Herrno, error_run. unfold raised. rewrite He. reflexivity. }
    rewrite Hrun. simpl fst. simpl snd.
    split; [reflexivity|]. split; [|split].
    + change (calls sd) with (calls sc ++ [sys_close epollfd]).
      unfold sc. rewrite calls_answered.
      change (calls sb) with (calls st ++ [sys_epoll_create]).
      rewrite <- !app_assoc. reflexivity.
    + change (w_fds (os sd)) with (delete epollfd (<[epollfd := 0]> (w_fds (os st)))).
      apply delete_insert_id. exact Hnone.
    + change (w_script (os sd)) with (w_script (os sc)).
      apply (answered_script _ _ _ _ Hsb).
Qed.

Lemma poll_epoll_setup_failure_witness :
  poll_backend linux = FD_EPOLL
  /\ _sockfd (this (failing_state 24)) <> POCO_INVALID_SOCKET
  /\ r_rc (failed 24 0) < 0
  /\ r_errno (failed 24 0) <> POCO_ENOERR (codes linux)
  /\ poll linux 5000 SELECT_READ (failing_state 24)
     = (Throw (exn_msg IOException "Too many open files" 24),
        answered sys_epoll_create (failed 24 0) (failing_state 24)).
Proof.
  assert (H1 : _sockfd (this (failing_state 24)) <> POCO_INVALID_SOCKET)
    by (vm_compute; discriminate).
  assert (H2 : r_rc (failed 24 0) < 0) by (vm_compute; reflexivity).
  assert (H3 : r_errno (failed 24 0) <> POCO_ENOERR (codes linux))
    by (vm_compute; discriminate).
  split; [reflexivity|]. split; [exact H1|]. split; [exact H2|]. split; [exact H3|].
  destruct (proj1 (poll_epoll_setup_failure linux 5000 SELECT_READ (failing_state 24)
                     (failed 24 0) [] eq_refl H1 eq_refl) H2 H3) as (e & He & Hrun).
  rewrite Hrun. f_equal.
  assert (Hc : translate (codes linux) (r_errno (failed 24 0)) "Can't create epoll queue"
               = Some (exn_msg IOException "Too many open files" 24)) by reflexivity.
  rewrite Hc in He. injection He as <-. reflexivity.
Defined.

(** ** connect with a timeout: what it returns or throws *)

Section ConnectOutcome.

Variable P : Platform.
Variable address : SocketAddress.
Variable timeout : Z.
Variable st st1 : State.
Variable fl : Z.

Hypothesis nonblock_nonneg : 0 <= O_NONBLOCK P.
Hypothesis sockfd_set : _sockfd (this st) <> POCO_INVALID_SOCKET.
Hypothesis sockfd_open : w_fds (os st) !! _sockfd (this st) = Some fl.
Hypothesis flags_nonneg : 0 <= fl.
Hypothesis switched : setBlocking P false st = (Return tt, st1).

(** The handle and the table are as the switch to non-blocking left them. *)
Let settled : State -> Prop :=
  fun sx => this sx = this st1 /\ w_fds (os sx) = w_fds (os st1).

Lemma switched_state :
  this st1 = with_blocking false (this st)
  /\ w_fds (os st1) = <[_sockfd (this st) := mode_flags P false fl]> (w_fds (os st))
  /\ w_script (os st1) = w_script (os st).
Proof.
  destruct (setBlocking_open P false st fl sockfd_open flags_nonneg)
    as (st1' & Hrun & Hthis & Hfds & _ & Hscript & _).
  rewrite switched in Hrun. injection Hrun as <-. repeat split; assumption.
Qed.

Lemma settled_restores (sx : State) :
  settled sx -> exists sy : State, setBlocking P true sx = (Return tt, sy).
Proof.
  intros [Hthis Hfds]. destruct switched_state as (Hthis1 & Hfds1 & _).
  assert (Hopen : w_fds (os sx) !! _sockfd (this sx) = Some (mode_flags P false fl)).
  { rewrite Hfds, Hthis, Hfds1, Hthis1. apply lookup_insert_eq. }
  destruct (setBlocking_open P true sx _ Hopen
              (mode_flags_nonneg P false fl nonblock_nonneg flags_nonneg))
    as (sy & Hrun & _).
  exists sy. exact Hrun.
Qed.

(** The outcome of the try block is the outcome of the call. *)
Lemma connect_timeout_wraps (o : Outcome unit) (sx : State) :
  connect_attempt P address timeout st1 = (o, sx) ->
  o <> Hang -> settled sx ->
  fst (connect_timeout P address timeout st) = o.
Proof.
  intros Hrun Ho Hsx. destruct (settled_restores sx Hsx) as (sy & Hback).
  unfold connect_timeout. rewrite bind_get_this.
  destruct (Z.eqb_spec (_sockfd (this st)) POCO_INVALID_SOCKET); [contradiction|].
  simpl when. rewrite bind_ret, (bind_return _ _ _ _ _ switched).
  unfold bind at 1. unfold try_catch. rewrite Hrun.
  destruct o as [[]|e|]; [|rewrite (bind_return _ _ _ _ _ Hback)|contradiction].
  - rewrite Hback. reflexivity.
  - reflexivity.
Qed.

End ConnectOutcome.

(** X18. connect(address, timeout) on a descriptor that is open with
    non-negative status flags, as the reply to its connect call decides:
    success at once is a return; a failure other than EINPROGRESS and
    EWOULDBLOCK has the outcome of error(errno, address.toString()); and
    when the connection is in progress the call polls for read, write and
    error: if poll reports nothing ready it throws TimeoutException
    "connect timed out" with the address, an exception of poll passes
    through, and otherwise the pending error of the socket decides: zero
    is a return, another value has the outcome of error(value), without
    the address. *)
Theorem connect_timeout_outcomes (P : Platform) (address : SocketAddress)
        (timeout : Z) (st : State) (fl : Z) (r : Reply) (rest : list Reply) :
  0 <= O_NONBLOCK P ->
  _sockfd (this st) <> POCO_INVALID_SOCKET ->
  w_fds (os st) !! _sockfd (this st) = Some fl -> 0 <= fl ->
  w_fds (os st) !! POCO_INVALID_SOCKET = None ->
  w_script (os st) = r :: rest ->
  let run := connect_timeout P address timeout st in
  let st2 := answered (sys_connect (_sockfd (this st)) address) r
                      (snd (setBlocking P false st)) in
  let mask := Z.lor (Z.lor SELECT_READ SELECT_WRITE) SELECT_ERROR in
  (r_rc r = 0 -> fst run = Return tt)
  /\ (r_rc r < 0 -> r_errno r <> POCO_EINPROGRESS (codes P) ->
      r_errno r <> POCO_EWOULDBLOCK (codes P) -> r_errno r <> POCO_ENOERR (codes P) ->
      exists e : Exception,
        translate (codes P) (r_errno r) (sa_toString address) = Some e
        /\ fst run = Throw e)
  /\ (r_rc r < 0 ->
      r_errno r = POCO_EINPROGRESS (codes P) \/ r_errno r = POCO_EWOULDBLOCK (codes P) ->
      (forall st3 : State,
          poll P timeout mask st2 = (Return false, st3) ->
          fst run
          = Throw (exn_msg_arg TimeoutException "connect timed out" (sa_toString address) 0))
      /\ (forall (e : Exception) (st3 : State),
             poll P timeout mask st2 = (Throw e, st3) -> fst run = Throw e)
      /\ (forall (st3 : State) (q : Reply) (rest' : list Reply),
             poll P timeout mask st2 = (Return true, st3) ->
             w_script (os st3) = q :: rest' -> r_rc q = 0 ->
             fst run = if hd 0 (r_out q) =? 0 then Return tt
                       else raised (codes P) (hd 0 (r_out q)) "")).
Proof.
  intros Hnb Hfd Hopen Hnn Hinvalid Hs run st2 mask.
  destruct (setBlocking_open P false st fl Hopen Hnn)
    as (st1 & Hswitch & Hthis1 & Hfds1 & _ & Hscript1 & _).
  assert (Hst1 : snd (setBlocking P false st) = st1) by (rewrite Hswitch; reflexivity).
  unfold st2. rewrite Hst1. clear st2 Hst1.
  set (st2 := answered (sys_connect (_sockfd (this st)) address) r st1).
  assert (Hs1 : w_script (os st1) = r :: rest) by (rewrite Hscript1; exact Hs).
  assert (Hfd1 : _sockfd (this st1) = _sockfd (this st)) by (rewrite Hthis1; reflexivity).
  assert (Hsettled2 : this st2 = this st1 /\ w_fds (os st2) = w_fds (os st1))
    by (split; reflexivity).
  assert (Hwrap := connect_timeout_wraps P address timeout st st1 fl Hnb Hfd Hopen Hnn
                     Hswitch).
  assert (Hbegin : forall k : Z -> M unit,
             (let* s := get_this in
              let* rc := os_call (sys_connect (_sockfd s) address) in k rc) st1
             = k (r_rc r) st2).
  { intros k. rewrite bind_get_this, Hfd1.
    rewrite (bind_return _ _ _ _ _ (os_call_answered _ st1 r rest Hs1)). reflexivity. }
  assert (Hinvalid2 : w_fds (os st2) !! POCO_INVALID_SOCKET = None).
  { change (w_fds (os st2)) with (w_fds (os st1)). rewrite Hfds1.
    rewrite lookup_insert_ne by exact Hfd. exact Hinvalid. }
  assert (Herrno2 : r_rc r < 0 -> w_errno (os st2) = r_errno r)
    by (intros Hneg; apply answered_errno; exact Hneg).
  split; [|split].
  - intros Hrc. apply (Hwrap (Return tt) st2); [|discriminate | exact Hsettled2].
    unfold connect_attempt. rewrite Hbegin, Hrc. reflexivity.
  - intros Hrc Hip Hwb Herr.
    destruct (translate_raises (codes P) (r_errno r) (sa_toString address) Herr)
      as (e & He).
    exists e. split; [exact He|].
    apply (Hwrap (Throw e) st2); [|discriminate | exact Hsettled2].
    unfold connect_attempt. rewrite Hbegin.
    destruct (Z.eqb_spec (r_rc r) 0); [lia|].
    unfold when at 1. change (negb false) with true. cbv iota. rewrite bind_lastError, (Herrno2 Hrc). unfold E.
    destruct (Z.eqb_spec (r_errno r) (POCO_EINPROGRESS (codes P))); [contradiction|].
    destruct (Z.eqb_spec (r_errno r) (POCO_EWOULDBLOCK (codes P))); [contradiction|].
    apply bind_throw. simpl negb. simpl andb. unfold when.
    rewrite error_run. unfold raised. rewrite He. reflexivity.
  - intros Hrc Hprog.
    assert (Hattempt : connect_attempt P address timeout st1
                       = (let* ready := poll P timeout mask in
                          do when (negb ready)
                               (throw (exn_msg_arg TimeoutException "connect timed out"
                                                   (sa_toString address) 0)) then
                          let* err := socketError P in
                          when (negb (err =? 0)) (error_code P err)) st2).
    { unfold connect_attempt. rewrite Hbegin.
      destruct (Z.eqb_spec (r_rc r) 0); [lia|].
      unfold when at 1. change (negb false) with true. cbv iota. rewrite bind_lastError, (Herrno2 Hrc). unfold E.
      assert (Hc : negb (r_errno r =? POCO_EINPROGRESS (codes P))
                   && negb (r_errno r =? POCO_EWOULDBLOCK (codes P)) = false).
      { destruct Hprog as [-> | ->]; rewrite Z.eqb_refl; simpl;
          [reflexivity | apply andb_false_r]. }
      rewrite Hc. unfold when at 1. rewrite bind_ret. reflexivity. }
    pose proof (table_poll P (this st2) (w_fds (os st2)) Hinvalid2 timeout mask st2
                  (conj eq_refl eq_refl)) as Htable.
    split; [|split].
    + intros st3 Hpoll. rewrite Hpoll in Htable.
      apply (Hwrap _ st3); [|discriminate | exact Htable].
      rewrite Hattempt, (bind_return _ _ _ _ _ Hpoll). reflexivity.
    + intros e st3 Hpoll. rewrite Hpoll in Htable.
      apply (Hwrap _ st3); [|discriminate | exact Htable].
      rewrite Hattempt. apply bind_throw. exact Hpoll.
    + intros st3 q rest' Hpoll Hs3 Hq. rewrite Hpoll in Htable.
      destruct Htable as [Hthis3 Hfds3].
      assert (Hfd3 : _sockfd (this st3) <> POCO_INVALID_SOCKET).
      { rewrite Hthis3. change (this st2) with (this st1). rewrite Hfd1. exact Hfd. }
      set (st4 := answered (sys_getsockopt (_sockfd (this st3)) SO_ERROR) q st3).
      assert (Herr : socketError P st3 = (Return (hd 0 (r_out q)), st4)).
      { unfold socketError, getOption.
        rewrite (bind_return _ _ _ _ _ (getRawOption_run P SO_ERROR [0] st3 q rest'
                                          Hfd3 Hs3 Hq)).
        reflexivity. }
      apply (Hwrap _ st4).
      * rewrite Hattempt, (bind_return _ _ _ _ _ Hpoll). simpl when. rewrite bind_ret.
        rewrite (bind_return _ _ _ _ _ Herr).
        destruct (hd 0 (r_out q) =? 0); simpl when; [reflexivity|].
        unfold error_code. apply error_run.
      * destruct (hd 0 (r_out q) =? 0); [discriminate|].
        unfold raised. destruct (translate _ _ _); discriminate.
      * split; [exact Hthis3 | exact Hfds3].
Qed.

Lemma connect_timeout_outcomes_witness :
  0 <= O_NONBLOCK linux
  /\ _sockfd (this refused_state) <> POCO_INVALID_SOCKET
  /\ w_fds (os refused_state) !! _sockfd (this refused_state) = Some 2
  /\ w_fds (os refused_state) !! POCO_INVALID_SOCKET = None
  /\ r_rc (failed 115 0) < 0
  /\ fst (connect_timeout linux peer 1000 refused_state)
     = Throw (exn_code ConnectionRefusedException 111).
Proof.
  assert (H1 : 0 <= O_NONBLOCK linux) by (vm_compute; discriminate).
  assert (H2 : _sockfd (this refused_state) <> POCO_INVALID_SOCKET)
    by (vm_compute; discriminate).
  assert (H3 : w_fds (os refused_state) !! _sockfd (this refused_state) = Some 2)
    by reflexivity.
  assert (H4 : w_fds (os refused_state) !! POCO_INVALID_SOCKET = None) by reflexivity.
  assert (H5 : r_rc (failed 115 0) < 0) by (vm_compute; reflexivity).
  split; [exact H1|]. split; [exact H2|]. split; [exact H3|]. split; [exact H4|].
  split; [exact H5|].
  destruct (proj2 (proj2 (connect_timeout_outcomes linux peer 1000 refused_state 2
                            (failed 115 0) _ H1 H2 H3 ltac:(lia) H4 eq_refl))
              H5 (or_introl eq_refl)) as (_ & _ & Hready).
  rewrite (Hready _ (mkReply 0 0 0 [111] []) []
             ltac:(vm_compute; reflexivity) ltac:(vm_compute; reflexivity) eq_refl).
  reflexivity.
Defined.

(** ** A transfer that is interrupted again and again *)

Section Retries.

Variable P : Platform.
Variables A B : Type.
Variable call : Z -> M (Z * A).
Variable c : Z -> Syscall.
Variable a0 : A.
Variable k : Z * A -> M B.

Hypothesis call_fails :
  forall (fd : Z) (st : State) (r : Reply) (rest : list Reply),
    w_script (os st) = r :: rest -> r_rc r < 0 ->
    call fd st = (Return (r_rc r, a0), answered (c fd) r st).

(** The shape of the four transfer functions. *)
Let F (mode : Z) : M B :=
  let* s := get_this in
  do when (_blocking s) (checkBrokenTimeout P mode) then
  let* r := transfer_loop P valid_sockfd call in k r.

Lemma transfer_retries (mode : Z) (intr : list Reply) :
  Forall (fun r => is_interrupt (codes P) r = true) intr ->
  forall (st : State) (rest : list Reply),
    _sockfd (this st) <> POCO_INVALID_SOCKET ->
    _blocking (this st) = true ->
    _isBrokenTimeout (this st) = false ->
    w_script (os st) = intr ++ rest ->
    F mode st
    = F mode (answered_all (map (fun r => (c (_sockfd (this st)), r)) intr) st).
Proof.
  intros Hintr. induction Hintr as [|r intr Hr _ IH]; intros st rest Hfd Hb Hbroken Hs;
    [reflexivity|].
  simpl in Hs. unfold is_interrupt in Hr. apply andb_true_iff in Hr as [Hrc He].
  apply Z.ltb_lt in Hrc. apply Z.eqb_eq in He.
  set (st1 := answered (c (_sockfd (this st))) r st).
  assert (Hstep : F mode st = F mode st1).
  { unfold F. rewrite !bind_get_this.
    rewrite (bind_return _ _ _ _ _ (checkBrokenTimeout_skipped P mode st Hbroken)).
    rewrite (bind_return _ _ _ _ _ (checkBrokenTimeout_skipped P mode st1 Hbroken)).
    unfold bind.
    rewrite (transfer_loop_retries P A call c a0 call_fails st r _ Hfd Hs Hrc Hb He).
    reflexivity. }
  rewrite Hstep. simpl map. simpl answered_all.
  apply (IH st1 rest Hfd Hb Hbroken). apply (answered_script _ _ _ _ Hs).
Qed.

End Retries.

(** X19. On a blocking, set handle without timeout emulation, sendBytes
    and receiveBytes go through any number of interruptions: each
    interrupted call is made again with the same arguments, nothing is sent
    or stored meanwhile, and when a call at last succeeds sendBytes returns
    the count the kernel accepted, having put exactly that many bytes of
    the buffer's start on the wire, and receiveBytes returns the count of
    bytes stored at the start of the buffer, never more than its size. *)
Theorem transfers_retry_until_done (P : Platform) (flags : Z) (st : State)
        (intr : list Reply) (final : Reply) (rest : list Reply) :
  _sockfd (this st) <> POCO_INVALID_SOCKET ->
  _blocking (this st) = true ->
  _isBrokenTimeout (this st) = false ->
  Forall (fun r => is_interrupt (codes P) r = true) intr ->
  w_script (os st) = intr ++ final :: rest ->
  0 <= r_rc final ->
  (forall data : list Z,
      let n := Z.min (r_rc final) (len data) in
      let st' := snd (sendBytes P data flags st) in
      fst (sendBytes P data flags st) = Return n
      /\ calls st'
         = calls st ++ repeat (sys_send (_sockfd (this st)) data flags) (S (length intr))
      /\ w_wire (os st') = w_wire (os st) ++ take n data
      /\ w_script (os st') = rest)
  /\ (forall buffer : list Z,
         let n := Z.min (r_rc final) (Z.min (len buffer) (len (r_out final))) in
         let st' := snd (receiveBytes P buffer flags st) in
         fst (receiveBytes P buffer flags st)
         = Return (n, overwrite buffer (take n (r_out final)))
         /\ n <= len buffer
         /\ calls st'
            = calls st ++ repeat (sys_recv (_sockfd (this st)) (len buffer) flags)
                                 (S (length intr))
         /\ w_script (os st') = rest).
Proof.
  intros Hfd Hb Hbroken Hintr Hs Hrc.
  assert (Hcalls : forall x : Syscall,
             map fst (map (fun r : Reply => (x, r)) intr) = repeat x (length intr)).
  { intros x. clear. induction intr as [|r intr IH]; [reflexivity|].
    simpl. f_equal. exact IH. }
  assert (Hrep : forall x : Syscall,
             repeat x (length intr) ++ [x] = repeat x (S (length intr))).
  { intros x. clear. induction (length intr) as [|n IH]; [reflexivity|].
    simpl. f_equal. exact IH. }
  split.
  - intros data n st'.
    set (x := sys_send (_sockfd (this st)) data flags).
    set (st1 := answered_all (map (fun r => (x, r)) intr) st).
    assert (Hretry : sendBytes P data flags st = sendBytes P data flags st1).
    { exact (transfer_retries P unit Z
               (fun fd => sending (sys_send fd data flags) data)
               (fun fd => sys_send fd data flags) tt
               (fun r => let '(rc, _) := r in do transfer_failed P rc then ret rc)
               (fun fd => sending_fails _ _) SELECT_WRITE intr Hintr st (final :: rest)
               Hfd Hb Hbroken Hs). }
    destruct (answered_all_this (map (fun r => (x, r)) intr) st) as [Hthis1 Hfds1].
    fold st1 in Hthis1, Hfds1.
    assert (Hfd1 : _sockfd (this st1) <> POCO_INVALID_SOCKET) by (rewrite Hthis1; exact Hfd).
    assert (Hbroken1 : _isBrokenTimeout (this st1) = false) by (rewrite Hthis1; exact Hbroken).
    assert (Hs1 : w_script (os st1) = final :: rest).
    { apply answered_all_script. rewrite map_map. simpl. rewrite map_id. exact Hs. }
    pose proof (sendBytes_run P data flags st1 final rest Hfd1 Hbroken1 Hs1 Hrc) as Hrun.
    cbv zeta in Hrun. fold n in Hrun. rewrite Hthis1 in Hrun. fold x in Hrun.
    unfold st'. rewrite Hretry, Hrun. simpl fst. simpl snd.
    split; [reflexivity|]. split; [|split].
    + change (calls (answered x final st1)
              = calls st ++ repeat x (S (length intr))).
      rewrite calls_answered. unfold st1. rewrite answered_all_calls, Hcalls.
      rewrite <- app_assoc, Hrep. reflexivity.
    + simpl.
      assert (Hwire : forall l s, w_wire (os (answered_all l s)) = w_wire (os s)).
      { clear. induction l as [|cr l IH]; intros s; [reflexivity|].
        simpl. unfold answered_all in IH. rewrite IH. reflexivity. }
      unfold st1. rewrite Hwire. reflexivity.
    + simpl. rewrite Hs1. reflexivity.
  - intros buffer n st'.
    set (x := sys_recv (_sockfd (this st)) (len buffer) flags).
    set (st1 := answered_all (map (fun r => (x, r)) intr) st).
    assert (Hretry : receiveBytes P buffer flags st = receiveBytes P buffer flags st1).
    { exact (transfer_retries P (list Z) (Z * list Z)
               (fun fd => os_receive (sys_recv fd (len buffer) flags) buffer)
               (fun fd => sys_recv fd (len buffer) flags) buffer
               (fun r => let '(rc, buffer) := r in
                         do transfer_failed P rc then ret (rc, buffer))
               (fun fd => os_receive_fails _ _) SELECT_READ intr Hintr st (final :: rest)
               Hfd Hb Hbroken Hs). }
    destruct (answered_all_this (map (fun r => (x, r)) intr) st) as [Hthis1 Hfds1].
    fold st1 in Hthis1, Hfds1.
    assert (Hfd1 : _sockfd (this st1) <> POCO_INVALID_SOCKET) by (rewrite Hthis1; exact Hfd).
    assert (Hbroken1 : _isBrokenTimeout (this st1) = false) by (rewrite Hthis1; exact Hbroken).
    assert (Hs1 : w_script (os st1) = final :: rest).
    { apply answered_all_script. rewrite map_map. simpl. rewrite map_id. exact Hs. }
    pose proof (len_nonneg buffer) as Hnn. pose proof (len_nonneg (r_out final)) as Hnn'.
    assert (Hn : 0 <= n <= len buffer) by (unfold n; lia).
    assert (Hrun : receiveBytes P buffer flags st1
                   = (Return (n, overwrite buffer (take n (r_out final))),
                      answered x final st1)).
    { unfold receiveBytes. rewrite bind_get_this.
      rewrite (bind_return _ _ _ _ _
                 (checkBrokenTimeout_skipped P SELECT_READ st1 Hbroken1)).
      pose proof (os_receive_run (sys_recv (_sockfd (this st1)) (len buffer) flags)
                                 buffer st1 final rest Hs1 Hrc) as Hrecv.
      cbv zeta in Hrecv. fold n in Hrecv.
      rewrite (bind_return _ _ _ _ _
                 (transfer_loop_once P valid_sockfd
                    (fun fd => os_receive (sys_recv fd (len buffer) flags) buffer)
                    st1 st1 _ _ n _ (valid_sockfd_set st1 Hfd1) Hrecv (proj1 Hn))).
      cbv iota beta.
      rewrite (bind_return _ _ _ _ _ (transfer_failed_not P n _ (proj1 Hn))).
      rewrite Hthis1. reflexivity. }
    unfold st'. rewrite Hretry, Hrun. simpl fst. simpl snd.
    split; [reflexivity|]. split; [lia|]. split.
    + rewrite calls_answered. unfold st1. rewrite answered_all_calls, Hcalls.
      rewrite <- app_assoc, Hrep. reflexivity.
    + apply (answered_script _ _ _ _ Hs1).
Qed.

Lemma transfers_retry_until_done_witness :
  _sockfd (this interrupted_send_state) <> POCO_INVALID_SOCKET
  /\ Forall (fun r => is_interrupt (codes linux) r = true) [failed 4 300; failed 4 200]
  /\ 0 <= r_rc (ok 2 0)
  /\ fst (sendBytes linux [1; 2; 3] 0 interrupted_send_state) = Return 2
  /\ w_wire (os (snd (sendBytes linux [1; 2; 3] 0 interrupted_send_state))) = [1; 2].
Proof.
  assert (H1 : _sockfd (this interrupted_send_state) <> POCO_INVALID_SOCKET)
    by (vm_compute; discriminate).
  assert (H2 : Forall (fun r => is_interrupt (codes linux) r = true)
                      [failed 4 300; failed 4 200]) by (repeat constructor).
  assert (H3 : 0 <= r_rc (ok 2 0)) by (vm_compute; discriminate).
  split; [exact H1|]. split; [exact H2|]. split; [exact H3|].
  destruct (proj1 (transfers_retry_until_done linux 0 interrupted_send_state
                     [failed 4 300; failed 4 200] (ok 2 0) []
                     H1 eq_refl eq_refl H2 eq_refl H3)
              [1; 2; 3]) as (Hout & _ & Hwire & _).
  split; [exact Hout | exact Hwire].
Defined.

(** ** sendFile: which path is taken, and what it transmits *)

Lemma only_calls_trans (allowed : Syscall -> bool) (st0 st1 st2 : State) :
  only_calls allowed st0 st1 -> only_calls allowed st1 st2 -> only_calls allowed st0 st2.
Proof.
  intros (new1 & H1 & Ha1) (new2 & H2 & Ha2). exists (new2 ++ new1). split.
  - rewrite H2, H1. apply app_assoc.
  - rewrite forallb_app, Ha1, Ha2. reflexivity.
Qed.

Lemma only_calls_mono (allowed allowed' : Syscall -> bool) (st0 st : State) :
  (forall c, allowed c = true -> allowed' c = true) ->
  only_calls allowed st0 st -> only_calls allowed' st0 st.
Proof.
  intros Hsub (new & Hnew & Hall). exists new. split; [exact Hnew|].
  rewrite forallb_forall in *. intros e He. apply Hsub, Hall, He.
Qed.

(** A computation that attempts only calls of one kind may run inside one
    that admits more. *)
Lemma calls_widen {A : Type} (allowed allowed' : Syscall -> bool) (m : M A) :
  (forall c, allowed c = true -> allowed' c = true) ->
  (forall st0, keeps (only_calls allowed st0) m (fun _ => True)) ->
  forall st0, keeps (only_calls allowed' st0) m (fun _ => True).
Proof.
  intros Hsub Hm st0 st Hst. split; [|auto].
  destruct (Hm st st (only_calls_refl allowed st)) as [Hnew _].
  apply (only_calls_trans _ _ st); [exact Hst|].
  apply (only_calls_mono allowed); assumption.
Qed.

Lemma len_take_le {A : Type} (n : Z) (l : list A) : len (take n l) <= len l.
Proof. unfold len, take. rewrite length_firstn. lia. Qed.

(** sendBytes of at most 8192 bytes attempts chunk calls only, whatever the
    handle and the kernel's replies. *)
Lemma sendBytes_chunk_calls (P : Platform) (data : list Z) (flags : Z) (st0 : State) :
  len data <= 8192 ->
  keeps (only_calls is_chunk_call st0) (sendBytes P data flags) (fun _ => True).
Proof.
  intros Hlen.
  assert (Hpoll : forall timeout mode,
             keeps (only_calls is_chunk_call st0) (poll P timeout mode) (fun _ => True)).
  { intros timeout mode.
    apply (calls_widen is_poll_call is_chunk_call); [|intros; apply poll_calls].
    intros c Hc. destruct c; simpl in *; try discriminate; reflexivity. }
  unfold sendBytes, checkBrokenTimeout, transfer_loop, transfer_failed,
    transfer_interrupted, sending, os_transmit, valid_sockfd.
  repeat first
    [ apply Hpoll
    | apply calls_syscall; simpl; apply Z.leb_le; exact Hlen
    | keeps_step calls_prim ].
Qed.

Lemma blockwise_next_buffer (count : Z) (v : Blockwise) :
  len (bw_buffer (blockwise_next count v)) = len (bw_buffer v).
Proof.
  unfold blockwise_next. cbv zeta. destruct (fis_ok (bw_stream v)); [|reflexivity].
  destruct (read (bw_stream v) _) as [chunk f]. simpl. apply len_overwrite.
Qed.

(** The chunked fallback attempts chunk calls only, whatever the file, the
    handle and the kernel's replies: it never calls sendfile, and no send
    carries more than 8192 bytes. *)
Lemma sendFileBlockwise_chunk_calls (P : Platform) (f : FileInputStream)
      (offset count : Z) (st0 : State) :
  keeps (only_calls is_chunk_call st0) (sendFileBlockwise P f offset count) (fun _ => True).
Proof.
  unfold sendFileBlockwise. cbv zeta.
  destruct (read (seekg f offset) _) as [chunk f1].
  assert (Hbuf : len (repeat 0 (Z.to_nat 8192)) = 8192).
  { unfold len. rewrite repeat_length. apply Z2Nat.id. lia. }
  apply keeps_loop with (okA := fun v => len (bw_buffer v) = 8192).
  - intros v Hv st Hst. rewrite sendFileBlockwise_round_split.
    destruct ((0 <? bw_n v) && ((count =? 0) || (bw_len v <? count))).
    + refine (keeps_bind _ _ _ (fun _ => True) _ _ _ st Hst).
      * apply sendBytes_chunk_calls.
        pose proof (len_take_le (to_int (bw_n v)) (bw_buffer v)). lia.
      * intros _ _. apply keeps_ret. rewrite blockwise_next_buffer. exact Hv.
    + split; [exact Hst|]. intros a [= <-]. exact I.
  - simpl. rewrite len_overwrite. exact Hbuf.
Qed.

(** C7. On a non-blocking handle sendFile throws NetException at once, the
    state (and so the trace of system calls) unchanged.  On a blocking
    handle whose secure() is true it is sendFileBlockwise, whether or not
    the build has POCO_HAVE_SENDFILE: whatever the file, the range, the
    kernel's replies and the outcome, it never calls sendfile; what it
    attempts are send calls of at most 8192 bytes (and, under timeout
    emulation, the readiness calls in front of them).  When the sends
    accept what they are given, the bytes of the file reach the wire that
    way and their number is returned. *)
Theorem sendFile_blocking_only (P : Platform) (f : FileInputStream)
        (offset count : Z) (st : State) :
  (_blocking (this st) = false ->
   sendFile P f offset count st
   = (Throw (exn_msg NetException "sendFile() not supported for non-blocking sockets" 0), st))
  /\ (_blocking (this st) = true -> is_secure (this st) = true ->
      sendFile P f offset count st = sendFileBlockwise P f offset count st
      /\ only_calls is_chunk_call st (snd (sendFile P f offset count st))
      /\ (exists new : list (Syscall * option Reply),
             w_trace (os (snd (sendFile P f offset count st))) = new ++ w_trace (os st)
             /\ forall (sd fd o n : Z) (r : option Reply),
                 ~ In (sys_sendfile sd fd o n, r) new)
      /\ (fis_ok f = true -> 0 <= offset <= size f -> 0 <= count ->
          _sockfd (this st) <> POCO_INVALID_SOCKET ->
          _isBrokenTimeout (this st) = false ->
          Forall (fun r => 8192 <= r_rc r) (w_script (os st)) ->
          deliverable f offset count <= 8192 * len (w_script (os st)) ->
          exists (f' : FileInputStream) (st' : State),
            sendFile P f offset count st = (Return (deliverable f offset count, f'), st')
            /\ w_wire (os st')
               = w_wire (os st) ++ file_bytes f offset (deliverable f offset count))).
Proof.
  split.
  - intros Hb. unfold sendFile, getBlocking.
    rewrite bind_assoc, bind_get_this, bind_ret, Hb. reflexivity.
  - intros Hb Hs.
    assert (Heq : sendFile P f offset count st = sendFileBlockwise P f offset count st).
    { unfold sendFile, getBlocking, secure.
      rewrite bind_assoc, bind_get_this, bind_ret, Hb. simpl when.
      rewrite bind_ret.
      destruct (POCO_HAVE_SENDFILE P); [|reflexivity].
      rewrite bind_assoc, bind_get_this, bind_ret, Hs. reflexivity. }
    assert (Hcalls : only_calls is_chunk_call st (snd (sendFile P f offset count st))).
    { rewrite Heq.
      apply (sendFileBlockwise_chunk_calls P f offset count st st), only_calls_refl. }
    split; [exact Heq|]. split; [exact Hcalls|]. split.
    + destruct Hcalls as (new & Hnew & Hall). exists new. split; [exact Hnew|].
      intros sd fd o n r Hin.
      rewrite forallb_forall in Hall. specialize (Hall _ Hin). discriminate.
    + intros Hok Ho Hc Hfd Hbroken Hgood Hleft. rewrite Heq.
      destruct (sendFileBlockwise_run P f offset count st Hok Ho Hc Hfd Hbroken Hgood Hleft)
        as (f' & st' & Hrun & Hwire & _).
      exists f', st'. split; assumption.
Qed.

Lemma sendFile_blocking_only_witness :
  (_blocking (this nonblocking_state) = false
   /\ sendFile linux small_file 0 0 nonblocking_state
      = (Throw (exn_msg NetException "sendFile() not supported for non-blocking sockets" 0),
         nonblocking_state))
  /\ (_blocking (this secure_plain_state) = true
      /\ is_secure (this secure_plain_state) = true
      /\ POCO_HAVE_SENDFILE linux = true
      /\ only_calls is_chunk_call secure_plain_state
                    (snd (sendFile linux small_file 0 0 secure_plain_state))
      /\ (exists (f' : FileInputStream) (st' : State),
             sendFile linux small_file 0 0 secure_plain_state = (Return (3, f'), st')
             /\ w_wire (os st') = [10; 20; 30])
      /\ calls (snd (sendFile linux small_file 0 0 secure_plain_state))
         = [sys_send 3 [10; 20; 30] 0]).
Proof.
  split.
  - split; [reflexivity|].
    apply (proj1 (sendFile_blocking_only linux small_file 0 0 nonblocking_state)).
    reflexivity.
  - destruct (proj2 (sendFile_blocking_only linux small_file 0 0 secure_plain_state)
                eq_refl eq_refl) as (_ & Hcalls & _ & Hsent).
    split; [reflexivity|]. split; [reflexivity|]. split; [reflexivity|].
    split; [exact Hcalls|]. split; [|vm_compute; reflexivity].
    apply Hsent.
    + reflexivity.
    + vm_compute. split; discriminate.
    + lia.
    + vm_compute. discriminate.
    + reflexivity.
    + repeat constructor; vm_compute; discriminate.
    + vm_compute. discriminate.
Defined.



